(** * Smart-transaction publish hook and gas-fee-token modal

    A shallow embedding of

    - [SmartTransactionHook] (constructor, [submit], [submitBatch] and the
      private methods they call),
    - the list built by [GasFeeTokenModal],
    - [useGasFeeToken], [useSelectedGasFeeToken], [useNativeGasFeeToken]
      and [useFiatTokenValue],
    - the input [useTokenListPolling] gives to [useMultiPolling], and
    - the state and the event handlers of [PrivateKeyImportView],

    followed by the properties established about them.

    Conventions of the embedding.

    - An [async] method is a computation in the monad [M]: it threads the
      instance ([this]) and the world (the static field of the class, the
      approval flows held by the ApprovalController, the log of calls made
      to the outside, the stimuli still to come) and ends by returning,
      by throwing, or by staying pending (a promise that is never
      settled).
    - Every call that leaves the hook (controllers, messenger, logger) is
      appended to [trace], oldest first.
    - What the controllers answer is read from the record [Env]; the
      helpers and constants the hook imports from files that are not part
      of this development are fields of [Env] too. *)

From Stdlib Require Import String Ascii List Bool Arith NArith ZArith Lia Sorted.
Import ListNotations.

Local Open Scope string_scope.
Local Open Scope list_scope.

(** ** JavaScript values *)

(** Truthiness of a string: every string but the empty one. *)
Definition truthy (s : string) : bool := negb (s =? "").

(** Truthiness of [string | undefined]. *)
Definition truthy_opt (o : option string) : bool :=
  match o with
  | Some s => truthy s
  | None => false
  end.

(** [a || b] on two optional strings where the right one is a plain string. *)
Definition or_else (o : option string) (d : string) : string :=
  match o with
  | Some s => if truthy s then s else d
  | None => d
  end.

(** ** Data of the controllers *)

(** The members of [TransactionType] the hook tells apart, and some of the
    others. *)
Inductive TransactionType : Type :=
| batch
| bridge
| bridgeApproval
| cancel
| contractInteraction
| deployContract
| retry
| simpleSend
| swap
| swapAndSend
| swapApproval
| tokenMethodApprove
| tokenMethodTransfer.

Definition TransactionType_eqb (a b : TransactionType) : bool :=
  match a, b with
  | batch, batch | bridge, bridge | bridgeApproval, bridgeApproval
  | cancel, cancel | contractInteraction, contractInteraction
  | deployContract, deployContract | retry, retry | simpleSend, simpleSend
  | swap, swap | swapAndSend, swapAndSend | swapApproval, swapApproval
  | tokenMethodApprove, tokenMethodApprove
  | tokenMethodTransfer, tokenMethodTransfer => true
  | _, _ => false
  end.

(** [TransactionParams]: the fields are hex strings, all optional but
    [from]. *)
Record TransactionParams : Type := {
  tx_from : string;
  tx_to : option string;
  tx_data : option string;
  tx_value : option string;
  tx_nonce : option string;
  tx_gas : option string;
  tx_gasPrice : option string;
  tx_maxFeePerGas : option string;
  tx_maxPriorityFeePerGas : option string;
  tx_chainId : option string;
  tx_type : option string
}.

Record TransactionMeta : Type := {
  meta_id : string;
  meta_chainId : string;
  meta_origin : option string;
  meta_type : option TransactionType;
  meta_txParams : TransactionParams
}.

(** [PublishBatchHookTransaction]. *)
Record PublishBatchHookTransaction : Type := {
  batch_id : option string;
  batch_params : TransactionParams;
  batch_signedTx : string
}.

(** [Fee] and [Fees] of the smart-transactions controller. *)
Record Fee : Type := {
  fee_maxFeePerGas : N;
  fee_maxPriorityFeePerGas : N
}.

Record IndividualTxFees : Type := {
  fees : list Fee
}.

Record Fees : Type := {
  approvalTxFees : option IndividualTxFees;
  tradeTxFees : option IndividualTxFees
}.

Inductive SmartTransactionStatuses : Type :=
| PENDING
| SUCCESS
| REVERTED
| UNKNOWN
| CANCELLED
| RESOLVED.

Definition is_PENDING (s : SmartTransactionStatuses) : bool :=
  match s with
  | PENDING => true
  | _ => false
  end.

Record StatusMetadata : Type := {
  minedHash : string;
  minedTx : string
}.

Record SmartTransaction : Type := {
  st_uuid : string;
  st_status : option SmartTransactionStatuses;
  st_statusMetadata : option StatusMetadata
}.

(** [FeatureFlags]; the hook reads it through [?.] at every level. *)
Record SmartTransactionsFlags : Type := {
  expectedDeadline : option N;
  maxDeadline : option N;
  extensionReturnTxHashAsap : option bool
}.

Record FeatureFlags : Type := {
  extensionActive : bool;
  mobileActive : bool;
  smartTransactions : option SmartTransactionsFlags
}.

(** The argument of [submitSignedTransactions] and what the relay answers. *)
Record SubmitSignedTransactionsRequest : Type := {
  signedTransactions : list string;
  signedCanceledTransactions : list string;
  sub_txParams : TransactionParams;
  sub_transactionMeta : TransactionMeta
}.

Record SubmitTransactionResponse : Type := {
  uuid : option string;
  txHash : option string;
  txHashes : option (list string)
}.

(** The request handed to [ApprovalController:addRequest]. *)
Record ApprovalRequest : Type := {
  ar_id : string;
  ar_origin : string;
  ar_type : string;
  ar_status : SmartTransactionStatuses;
  ar_creationTime : Z;
  ar_uuid : string;
  ar_isDapp : bool;
  ar_txId : string
}.

(** ** Errors and outcomes *)

Inductive Error : Type :=
| HookError (message : string)      (* [new Error(message)] thrown by the hook *)
| ExternalError (message : string). (* thrown by a controller *)

(** How an [async] method ends. *)
Inductive Outcome (A : Type) : Type :=
| Returned (a : A)
| Threw (e : Error)
| Pending.

Arguments Returned {A} a.
Arguments Threw {A} e.
Arguments Pending {A}.

(** ** The hook's request, instance and surroundings *)

Record SubmitSmartTransactionRequest : Type := {
  req_transactionMeta : TransactionMeta;
  req_signedTransactionInHex : option string;
  req_isSmartTransaction : bool;
  req_featureFlags : option FeatureFlags;
  req_transactions : option (list PublishBatchHookTransaction)
}.

(** A callback the instance has handed to the messenger or to a promise. *)
Inductive Handler : Type :=
| UpdateStatusPage (uuid : string)  (* [#addListenerToUpdateStatusPage] *)
| WaitForHash (uuid : string)       (* [#waitForTransactionHash] *)
| ApprovalSettled.                  (* [.then(onApproveOrRejectWrapper, ...)] *)

(** The private fields of [SmartTransactionHook]. The three controller
    handles are not fields here: what they answer is in [Env]. [handlers]
    lists the callbacks this instance has registered, in order. *)
Record Instance : Type := {
  approvalFlowEnded : bool;
  approvalFlowId : string;
  chainId : string;
  featureFlags : option FeatureFlags;
  isDapp : bool;
  isSmartTransaction : bool;
  transactionMeta : TransactionMeta;
  signedTransactionInHex : option string;
  transactions : option (list PublishBatchHookTransaction);
  txParams : TransactionParams;
  shouldShowStatusPage : bool;
  handlers : list Handler
}.

(** Calls that leave the hook. *)
Inductive Effect : Type :=
| CallGetFees (p : TransactionParams)
| CallApproveTransactionsWithSameNonce (txs : list TransactionParams) (hasNonce : bool)
| CallSubmitSignedTransactions (r : SubmitSignedTransactionsRequest)
| CallStartFlow
| CallEndFlow (id : string)
| CallAcceptRequest (id : string)
| CallAddRequest (r : ApprovalRequest) (shouldShowRequest : bool)
| CallUpdateRequestState (id : string) (st : SmartTransaction) (dapp : bool) (txId : string)
| Subscribe (h : Handler)
| LogError (message : string)
| LogDebug (message : string).

(** What happens outside while the hook waits: the bus publishes a
    [SmartTransactionsController:smartTransaction] event, or the promise
    of the approval request is settled. *)
Inductive Stimulus : Type :=
| Published (st : SmartTransaction)
| RequestSettled.

(** What the instances share: the static field, the flows the
    ApprovalController holds as started and not ended, the number of flows
    it has started so far, the calls made, and the stimuli to come. *)
Record World : Type := {
  sharedApprovalFlowId : string;
  approvalFlows : list string;
  flowsStarted : nat;
  trace : list Effect;
  pending : list Stimulus
}.

(** The controllers' answers and the imported helpers and constants. *)
Record Env : Type := {
  (* shared/modules/transaction.utils *)
  isLegacyTransaction : TransactionMeta -> bool;
  (* shared/modules/conversion.utils *)
  decimalToHex : N -> string;
  (* shared/constants/smartTransactions *)
  CANCEL_GAS_LIMIT_DEC : N;
  (* shared/constants/app *)
  ORIGIN_METAMASK : string;
  showSmartTransactionStatusPage : string;
  (* the global [origin] and [Date.now()] *)
  origin : string;
  Date_now : Z;
  (* SmartTransactionsController *)
  getFees : TransactionParams -> Error + Fees;
  submitSignedTransactions :
    SubmitSignedTransactionsRequest -> Error + option SubmitTransactionResponse;
  (* TransactionController *)
  approveTransactionsWithSameNonce :
    list TransactionParams -> Error + list string;
  (* ApprovalController: the id given to the n-th flow, whether accepting
     a request fails, whether adding one fails at once *)
  startFlowId : nat -> string;
  acceptRequest : string -> option Error;
  addRequest : ApprovalRequest -> option Error
}.

(** ** The monad of the hook's methods *)

Definition M (A : Type) : Type := Instance -> World -> Outcome A * Instance * World.

Definition ret {A : Type} (a : A) : M A :=
  fun i w => (Returned a, i, w).

Definition throw {A : Type} (e : Error) : M A :=
  fun i w => (Threw e, i, w).

Definition bind {A B : Type} (m : M A) (k : A -> M B) : M B :=
  fun i w =>
    match m i w with
    | (Returned a, i', w') => k a i' w'
    | (Threw e, i', w') => (Threw e, i', w')
    | (Pending, i', w') => (Pending, i', w')
    end.

(** [try { m } catch (e) { h e }]. *)
Definition try_catch {A : Type} (m : M A) (h : Error -> M A) : M A :=
  fun i w =>
    match m i w with
    | (Threw e, i', w') => h e i' w'
    | r => r
    end.

Declare Scope hook_scope.
Delimit Scope hook_scope with hook.

Notation "x <- m ;; k" := (bind m (fun x => k))
  (at level 100, m at next level, right associativity) : hook_scope.
Notation "m ;; k" := (bind m (fun _ => k))
  (at level 100, right associativity) : hook_scope.

Local Open Scope hook_scope.

Definition this : M Instance := fun i w => (Returned i, i, w).
Definition world : M World := fun i w => (Returned w, i, w).

Definition when (b : bool) (m : M unit) : M unit :=
  if b then m else ret tt.

Definition emit (e : Effect) : M unit :=
  fun i w =>
    (Returned tt, i,
     {| sharedApprovalFlowId := sharedApprovalFlowId w;
        approvalFlows := approvalFlows w;
        flowsStarted := flowsStarted w;
        trace := trace w ++ [e];
        pending := pending w |}).

Definition set_sharedApprovalFlowId (id : string) : M unit :=
  fun i w =>
    (Returned tt, i,
     {| sharedApprovalFlowId := id;
        approvalFlows := approvalFlows w;
        flowsStarted := flowsStarted w;
        trace := trace w;
        pending := pending w |}).

Definition set_approvalFlows (fl : list string) (started : nat) : M unit :=
  fun i w =>
    (Returned tt, i,
     {| sharedApprovalFlowId := sharedApprovalFlowId w;
        approvalFlows := fl;
        flowsStarted := started;
        trace := trace w;
        pending := pending w |}).

Definition set_pending (ss : list Stimulus) : M unit :=
  fun i w =>
    (Returned tt, i,
     {| sharedApprovalFlowId := sharedApprovalFlowId w;
        approvalFlows := approvalFlows w;
        flowsStarted := flowsStarted w;
        trace := trace w;
        pending := ss |}).

Definition with_fields (ended : bool) (id : string) (hs : list Handler)
    (i : Instance) : Instance :=
  {| approvalFlowEnded := ended;
     approvalFlowId := id;
     chainId := chainId i;
     featureFlags := featureFlags i;
     isDapp := isDapp i;
     isSmartTransaction := isSmartTransaction i;
     transactionMeta := transactionMeta i;
     signedTransactionInHex := signedTransactionInHex i;
     transactions := transactions i;
     txParams := txParams i;
     shouldShowStatusPage := shouldShowStatusPage i;
     handlers := hs |}.

Definition set_approvalFlowEnded (b : bool) : M unit :=
  fun i w => (Returned tt, with_fields b (approvalFlowId i) (handlers i) i, w).

Definition set_approvalFlowId (id : string) : M unit :=
  fun i w => (Returned tt, with_fields (approvalFlowEnded i) id (handlers i) i, w).

Definition set_handlers (hs : list Handler) : M unit :=
  fun i w => (Returned tt, with_fields (approvalFlowEnded i) (approvalFlowId i) hs i, w).

Definition register (h : Handler) : M unit :=
  i <- this ;; set_handlers (handlers i ++ [h]).

(** [await p] for a promise that a controller settles: resolved or rejected. *)
Definition settle {A : Type} (r : Error + A) : M A :=
  match r with
  | inl e => throw e
  | inr a => ret a
  end.

(** ** The methods of [SmartTransactionHook] *)

Record SubmitResult : Type := {
  transactionHash : option string
}.

Record SubmitBatchResult : Type := {
  results : list SubmitResult
}.

(** [{ ...txParams, chainId }]. *)
Definition with_chainId (c : option string) (p : TransactionParams) : TransactionParams :=
  {| tx_from := tx_from p;
     tx_to := tx_to p;
     tx_data := tx_data p;
     tx_value := tx_value p;
     tx_nonce := tx_nonce p;
     tx_gas := tx_gas p;
     tx_gasPrice := tx_gasPrice p;
     tx_maxFeePerGas := tx_maxFeePerGas p;
     tx_maxPriorityFeePerGas := tx_maxPriorityFeePerGas p;
     tx_chainId := c;
     tx_type := tx_type p |}.

Definition is_ApprovalSettled (h : Handler) : bool :=
  match h with
  | ApprovalSettled => true
  | _ => false
  end.

Section Hook.

Variable env : Env.

(** [constructor(request)]. *)
Definition constructor (request : SubmitSmartTransactionRequest) : Instance :=
  let transactionMeta := req_transactionMeta request in
  {| approvalFlowId := "";
     approvalFlowEnded := false;
     transactionMeta := transactionMeta;
     signedTransactionInHex := req_signedTransactionInHex request;
     isSmartTransaction := req_isSmartTransaction request;
     featureFlags := req_featureFlags request;
     isDapp :=
       match meta_origin transactionMeta with
       | Some o => negb (o =? ORIGIN_METAMASK env)
       | None => true
       end;
     chainId := meta_chainId transactionMeta;
     txParams := meta_txParams transactionMeta;
     transactions := req_transactions request;
     shouldShowStatusPage :=
       match meta_type transactionMeta with
       | Some t => negb (TransactionType_eqb t bridge)
       | None => true
       end
       || match req_transactions request with
          | Some txs => (0 <? List.length txs)%nat
          | None => false
          end;
     handlers := [] |}.

(** *** Calls to the ApprovalController through the messenger *)

(** [ApprovalController:startFlow]: opens a flow and returns its id. *)
Definition callStartFlow : M string :=
  emit CallStartFlow ;;
  w <- world ;;
  let id := startFlowId env (flowsStarted w) in
  set_approvalFlows (approvalFlows w ++ [id]) (S (flowsStarted w)) ;;
  ret id.

(** [ApprovalController:endFlow]: closes the flow when it is the one opened
    last among those still open, and throws otherwise. *)
Definition callEndFlow (id : string) : M unit :=
  emit (CallEndFlow id) ;;
  w <- world ;;
  match rev (approvalFlows w) with
  | current :: earlier =>
      if id =? current
      then set_approvalFlows (rev earlier) (flowsStarted w)
      else throw (ExternalError "EndInvalidFlowError")
  | [] => throw (ExternalError "NoApprovalFlowsError")
  end.

(** [ApprovalController:acceptRequest]. Accepting a request settles the
    promise of that request, so the instance that added it runs the
    callback it attached in [#addApprovalRequest]. That callback belongs
    to another instance than the caller: where instances run side by side
    it is the call [StartApprovalFlowSettling] below, and where one
    instance runs alone it reaches it as the stimulus [RequestSettled]. *)
Definition callAcceptRequest (id : string) : M unit :=
  emit (CallAcceptRequest id) ;;
  match acceptRequest env id with
  | Some e => throw e
  | None => ret tt
  end.

(** [#endExistingApprovalFlow(approvalFlowId)]. *)
Definition endExistingApprovalFlow (approvalFlowId : string) : M unit :=
  try_catch
    (callEndFlow approvalFlowId ;;
     callAcceptRequest approvalFlowId ;;
     set_sharedApprovalFlowId "")
    (fun _ => emit (LogError "Error ending existing approval flow")).

(** [#startApprovalFlow()]. *)
Definition startApprovalFlow : M unit :=
  w <- world ;;
  when (truthy (sharedApprovalFlowId w))
       (endExistingApprovalFlow (sharedApprovalFlowId w)) ;;
  approvalFlowId <- callStartFlow ;;
  set_approvalFlowId approvalFlowId ;;
  set_sharedApprovalFlowId approvalFlowId.

(** The two calls in the [try] of [#endExistingApprovalFlow], up to the
    point where the request has been accepted. *)
Definition endAndAccept (approvalFlowId : string) : M unit :=
  callEndFlow approvalFlowId ;;
  callAcceptRequest approvalFlowId.

(** [#startApprovalFlow] from that point on: the static field is cleared,
    the new flow is started and recorded. *)
Definition startApprovalFlow_accepted : M unit :=
  set_sharedApprovalFlowId "" ;;
  approvalFlowId <- callStartFlow ;;
  set_approvalFlowId approvalFlowId ;;
  set_sharedApprovalFlowId approvalFlowId.

(** [#startApprovalFlow] up to its last [await], the one of
    [ApprovalController:startFlow]; the result is the id of the new
    flow. *)
Definition startApprovalFlow_begin : M string :=
  w <- world ;;
  when (truthy (sharedApprovalFlowId w))
       (endExistingApprovalFlow (sharedApprovalFlowId w)) ;;
  callStartFlow.

(** [#startApprovalFlow] after that [await]: the two assignments. *)
Definition startApprovalFlow_resume (approvalFlowId : string) : M unit :=
  set_approvalFlowId approvalFlowId ;;
  set_sharedApprovalFlowId approvalFlowId.

(** [#onApproveOrReject()]. *)
Definition onApproveOrReject : M unit :=
  i <- this ;;
  if negb (shouldShowStatusPage i) || approvalFlowEnded i
  then ret tt
  else
    set_approvalFlowEnded true ;;
    try_catch (callEndFlow (approvalFlowId i)) (fun _ => ret tt) ;;
    w <- world ;;
    when (sharedApprovalFlowId w =? approvalFlowId i)
         (set_sharedApprovalFlowId "").

(** [#addApprovalRequest({ uuid })]: the request is added and
    [onApproveOrRejectWrapper] is attached to its promise. *)
Definition addApprovalRequest (uuid : string) : M unit :=
  i <- this ;;
  let r :=
    {| ar_id := approvalFlowId i;
       ar_origin := origin env;
       ar_type := showSmartTransactionStatusPage env;
       ar_status := PENDING;
       ar_creationTime := Date_now env;
       ar_uuid := uuid;
       ar_isDapp := isDapp i;
       ar_txId := meta_id (transactionMeta i) |} in
  emit (CallAddRequest r true) ;;
  match addRequest env r with
  | Some e => throw e
  | None => register ApprovalSettled
  end.

(** [#updateApprovalRequest({ smartTransaction })]. *)
Definition updateApprovalRequest (smartTransaction : SmartTransaction) : M unit :=
  i <- this ;;
  emit (CallUpdateRequestState (approvalFlowId i) smartTransaction
          (isDapp i) (meta_id (transactionMeta i))).

(** [#addListenerToUpdateStatusPage({ uuid })]. *)
Definition addListenerToUpdateStatusPage (uuid : string) : M unit :=
  emit (Subscribe (UpdateStatusPage uuid)) ;;
  register (UpdateStatusPage uuid).

(** [#processApprovalIfNeeded(uuid)]. *)
Definition processApprovalIfNeeded (uuid : string) : M unit :=
  i <- this ;;
  when (shouldShowStatusPage i)
       (addApprovalRequest uuid ;;
        addListenerToUpdateStatusPage uuid).

(** *** The callbacks *)

(** The value [#waitForTransactionHash] resolves with at a smart
    transaction whose status is final. *)
Definition resolvedHash (smartTransaction : SmartTransaction) : option string :=
  match st_statusMetadata smartTransaction with
  | Some statusMetadata =>
      if truthy (minedHash statusMetadata)
      then Some (minedHash statusMetadata)
      else None
  | None => None
  end.

(** One callback run on one stimulus. The result is [Some v] when the
    callback called [resolve(v)]. *)
Definition runHandler (h : Handler) (s : Stimulus) : M (option (option string)) :=
  match h, s with
  | UpdateStatusPage uuid, Published smartTransaction =>
      if st_uuid smartTransaction =? uuid then
        match st_status smartTransaction with
        | None => ret None
        | Some status =>
            if is_PENDING status then ret None
            else
              i <- this ;;
              when (negb (approvalFlowEnded i))
                   (updateApprovalRequest smartTransaction) ;;
              ret None
        end
      else ret None
  | WaitForHash uuid, Published smartTransaction =>
      if st_uuid smartTransaction =? uuid then
        match st_status smartTransaction with
        | None => ret None
        | Some status =>
            if is_PENDING status then ret None
            else
              emit (LogDebug "Smart Transaction: ") ;;
              match resolvedHash smartTransaction with
              | Some hash =>
                  emit (LogDebug "Smart Transaction - Received tx hash: ") ;;
                  ret (Some (Some hash))
              | None => ret (Some None)
              end
        end
      else ret None
  | ApprovalSettled, RequestSettled =>
      onApproveOrReject ;;
      ret None
  | _, _ => ret None
  end.

(** All callbacks of the instance on one stimulus, in the order they were
    registered; the first [resolve] is the one that counts. *)
Fixpoint runHandlers (hs : list Handler) (s : Stimulus) : M (option (option string)) :=
  match hs with
  | [] => ret None
  | h :: hs' =>
      r <- runHandler h s ;;
      r' <- runHandlers hs' s ;;
      ret (match r with
           | Some v => Some v
           | None => r'
           end)
  end.

(** A stimulus reaches the instance. A promise is settled once: the
    callback attached to the approval request is dropped after it ran. *)
Definition dispatch (s : Stimulus) : M (option (option string)) :=
  i <- this ;;
  r <- runHandlers (handlers i) s ;;
  match s with
  | RequestSettled =>
      i' <- this ;;
      set_handlers (filter (fun h => negb (is_ApprovalSettled h)) (handlers i')) ;;
      ret r
  | Published _ => ret r
  end.

(** [await] of the promise made by [#waitForTransactionHash]: the stimuli
    are taken one by one until a callback resolves it. When they run out
    the promise stays pending. *)
Fixpoint awaitTransactionHash (ss : list Stimulus) : M (option string) :=
  match ss with
  | [] =>
      set_pending [] ;;
      (fun i w => (Pending, i, w))
  | s :: rest =>
      set_pending rest ;;
      r <- dispatch s ;;
      match r with
      | Some v => ret v
      | None => awaitTransactionHash rest
      end
  end.

(** [#waitForTransactionHash({ uuid })], awaited. *)
Definition waitForTransactionHash (uuid : string) : M (option string) :=
  emit (Subscribe (WaitForHash uuid)) ;;
  register (WaitForHash uuid) ;;
  w <- world ;;
  awaitTransactionHash (pending w).

(** *** Signing and submitting *)

(** [#applyFeeToTransaction(fee, isCancel)]. [#txParams] is always there
    (it is a field of every [TransactionMeta]), so the first [throw] of the
    method cannot happen. *)
Definition applyFeeToTransaction (i : Instance) (fee : Fee) (isCancel : bool)
    : TransactionParams :=
  let p := txParams i in
  {| tx_from := tx_from p;
     tx_to := if isCancel then Some (tx_from p) else tx_to p;
     tx_data := if isCancel then Some "0x" else tx_data p;
     tx_value := tx_value p;
     tx_nonce := tx_nonce p;
     tx_gas :=
       if isCancel
       then Some ("0x" ++ decimalToHex env (CANCEL_GAS_LIMIT_DEC env))%string
       else tx_gas p;
     tx_gasPrice := tx_gasPrice p;
     tx_maxFeePerGas :=
       Some ("0x" ++ decimalToHex env (fee_maxFeePerGas fee))%string;
     tx_maxPriorityFeePerGas :=
       Some ("0x" ++ decimalToHex env (fee_maxPriorityFeePerGas fee))%string;
     tx_chainId := tx_chainId p;
     tx_type := tx_type p |}.

(** The list handed to [approveTransactionsWithSameNonce]. *)
Definition transactionsWithChainId (i : Instance) (fees : list Fee) (isCancel : bool)
    : list TransactionParams :=
  let unsignedTransactions :=
    map (fun fee => applyFeeToTransaction i fee isCancel) fees in
  map (fun tx => with_chainId (Some (or_else (tx_chainId tx) (chainId i))) tx)
      unsignedTransactions.

(** [#createSignedTransactions(fees, isCancel)]. *)
Definition createSignedTransactions (fees : list Fee) (isCancel : bool)
    : M (list string) :=
  i <- this ;;
  if negb (truthy (chainId i))
  then throw (HookError "Transaction params and chainId are required")
  else
    let txs := transactionsWithChainId i fees isCancel in
    emit (CallApproveTransactionsWithSameNonce txs true) ;;
    settle (approveTransactionsWithSameNonce env txs).

(** [#signAndSubmitTransactions({ getFeesResponse } = {})]. *)
Definition signAndSubmitTransactions (getFeesResponse : option Fees)
    : M (option SubmitTransactionResponse) :=
  i <- this ;;
  let requiringSigning : M (list string) :=
    match getFeesResponse with
    | Some response =>
        createSignedTransactions
          match tradeTxFees response with
          | Some t => fees t
          | None => []
          end
          false
    | None => ret []
    end in
  signedTransactions <-
    match transactions i with
    | Some ((_ :: _) as txs) =>
        ret (map batch_signedTx
               (filter (fun tx => truthy (batch_signedTx tx)) txs))
    | _ =>
        match signedTransactionInHex i with
        | Some hex => if truthy hex then ret [hex] else requiringSigning
        | None => requiringSigning
        end
    end ;;
  let request :=
    {| signedTransactions := signedTransactions;
       signedCanceledTransactions := [];
       sub_txParams := txParams i;
       sub_transactionMeta := transactionMeta i |} in
  emit (CallSubmitSignedTransactions request) ;;
  settle (submitSignedTransactions env request).

(** *** [submit] and [submitBatch] *)

Definition isUnsupportedTransactionTypeForSmartTransaction (i : Instance) : bool :=
  match meta_type (transactionMeta i) with
  | Some t =>
      existsb (TransactionType_eqb t) [swapAndSend; swapApproval; bridgeApproval]
  | None => false
  end.

Definition useRegularTransactionSubmit : SubmitResult :=
  {| transactionHash := None |}.

(** [this.#featureFlags?.smartTransactions?.extensionReturnTxHashAsap],
    read as a condition. *)
Definition returnTxHashAsap (i : Instance) : bool :=
  match featureFlags i with
  | Some flags =>
      match smartTransactions flags with
      | Some st =>
          match extensionReturnTxHashAsap st with
          | Some b => b
          | None => false
          end
      | None => false
      end
  | None => false
  end.

(** [submitTransactionResponse?.uuid] and [submitTransactionResponse?.txHash]. *)
Definition response_uuid (r : option SubmitTransactionResponse) : option string :=
  match r with
  | Some r => uuid r
  | None => None
  end.

Definition response_txHash (r : option SubmitTransactionResponse) : option string :=
  match r with
  | Some r => txHash r
  | None => None
  end.

(** [const uuid = ...; if (!uuid) throw ...]. *)
Definition requireUuid (r : option SubmitTransactionResponse) : M string :=
  match response_uuid r with
  | Some u => if truthy u then ret u else throw (HookError "No smart transaction UUID")
  | None => throw (HookError "No smart transaction UUID")
  end.

(** [if (transactionHash === null) throw ...]. *)
Definition requireHash (h : option string) : M string :=
  match h with
  | Some hash => ret hash
  | None =>
      throw (HookError
               "Transaction does not have a transaction hash, there was a problem")
  end.

(** [async submit()]. *)
Definition submit : M SubmitResult :=
  i <- this ;;
  if negb (isSmartTransaction i)
     || isUnsupportedTransactionTypeForSmartTransaction i
     || isLegacyTransaction env (transactionMeta i)
  then ret useRegularTransactionSubmit
  else
    when (shouldShowStatusPage i) startApprovalFlow ;;
    fetched <-
      try_catch
        (let p := with_chainId (Some (chainId i)) (txParams i) in
         emit (CallGetFees p) ;;
         getFeesResponse <- settle (getFees env p) ;;
         ret (inr getFeesResponse))
        (fun _ =>
           emit (LogError "Error in smart transaction publish hook, falling back to regular transaction submission") ;;
           onApproveOrReject ;;
           ret (inl useRegularTransactionSubmit)) ;;
    match fetched with
    | inl fallback => ret fallback
    | inr getFeesResponse =>
        try_catch
          (submitTransactionResponse <-
             signAndSubmitTransactions (Some getFeesResponse) ;;
           uuid <- requireUuid submitTransactionResponse ;;
           processApprovalIfNeeded uuid ;;
           transactionHash <-
             match response_txHash submitTransactionResponse with
             | Some h =>
                 if returnTxHashAsap i && truthy h
                 then ret (Some h)
                 else waitForTransactionHash uuid
             | None => waitForTransactionHash uuid
             end ;;
           hash <- requireHash transactionHash ;;
           ret {| transactionHash := Some hash |})
          (fun error =>
             emit (LogError "Error in smart transaction publish hook") ;;
             onApproveOrReject ;;
             throw error)
    end.

(** [async submitBatch()]; [None] is [undefined]. *)
Definition submitBatch : M (option SubmitBatchResult) :=
  i <- this ;;
  if negb (isSmartTransaction i)
  then ret None
  else
    when (shouldShowStatusPage i) startApprovalFlow ;;
    try_catch
      (submitTransactionResponse <- signAndSubmitTransactions None ;;
       uuid <- requireUuid submitTransactionResponse ;;
       processApprovalIfNeeded uuid ;;
       transactionHash <- waitForTransactionHash uuid ;;
       _ <- requireHash transactionHash ;;
       match submitTransactionResponse with
       | Some {| txHashes := Some hashes |} =>
           ret (Some
                  {| results :=
                       map (fun txHash => {| transactionHash := Some txHash |})
                           hashes |})
       | _ => ret (Some {| results := [] |})
       end)
      (fun error =>
         emit (LogError "Error in smart transaction publish batch hook") ;;
         onApproveOrReject ;;
         throw error).

(** The two exported hooks: a new instance, then the method. *)
Definition submitSmartTransactionHook (request : SubmitSmartTransactionRequest)
    : World -> Outcome SubmitResult * Instance * World :=
  submit (constructor request).

Definition submitBatchSmartTransactionHook (request : SubmitSmartTransactionRequest)
    : World -> Outcome (option SubmitBatchResult) * Instance * World :=
  submitBatch (constructor request).

End Hook.

(** ** Several instances side by side *)

(** The instances created so far and what they share. *)
Record System : Type := {
  instances : list Instance;
  shared : World
}.

(** What touches the approval flows: a new instance is made, or one of the
    two methods that open and close flows runs on the [k]-th instance.
    Each runs from its first to its last line before the next call starts,
    with one exception: when [#startApprovalFlow] of the [k]-th instance
    has accepted the request of the flow it ends, the callback of the
    instance that added that request, the [j]-th, runs at once, before the
    [k]-th instance goes on ([StartApprovalFlowSettling k j]). *)
Inductive Call : Type :=
| New (request : SubmitSmartTransactionRequest)
| StartApprovalFlow (k : nat)
| StartApprovalFlowSettling (k j : nat)
| OnApproveOrReject (k : nat).

Fixpoint replace_nth {A : Type} (k : nat) (a : A) (l : list A) : list A :=
  match l, k with
  | [], _ => []
  | _ :: l', O => a :: l'
  | x :: l', S k' => x :: replace_nth k' a l'
  end.

Definition call_on (m : M unit) (k : nat) (s : System) : System :=
  match nth_error (instances s) k with
  | Some i =>
      let '(_, i', w') := m i (shared s) in
      {| instances := replace_nth k i' (instances s); shared := w' |}
  | None => s
  end.

Definition step (env : Env) (s : System) (c : Call) : System :=
  match c with
  | New request =>
      {| instances := instances s ++ [constructor env request];
         shared := shared s |}
  | StartApprovalFlow k => call_on (startApprovalFlow env) k s
  | StartApprovalFlowSettling k j =>
      match nth_error (instances s) k with
      | Some i =>
          let w := shared s in
          if truthy (sharedApprovalFlowId w)
          then
            match endAndAccept env (sharedApprovalFlowId w) i w with
            | (Returned _, i1, w1) =>
                call_on (startApprovalFlow_accepted env) k
                  (call_on onApproveOrReject j
                     {| instances := replace_nth k i1 (instances s);
                        shared := w1 |})
            | _ => call_on (startApprovalFlow env) k s
            end
          else call_on (startApprovalFlow env) k s
      | None => s
      end
  | OnApproveOrReject k => call_on onApproveOrReject k s
  end.

Definition run (env : Env) (cs : list Call) (s : System) : System :=
  fold_left (step env) cs s.

(** The class has just been loaded: no instance, no flow, an empty static
    field. *)
Definition initialWorld : World :=
  {| sharedApprovalFlowId := "";
     approvalFlows := [];
     flowsStarted := 0;
     trace := [];
     pending := [] |}.

Definition initialSystem : System :=
  {| instances := []; shared := initialWorld |}.

(** The flows open are the one the static field names, if it names one. *)
Definition flows_match_shared (w : World) : Prop :=
  approvalFlows w =
  if truthy (sharedApprovalFlowId w) then [sharedApprovalFlowId w] else [].

(** ** The list of [GasFeeTokenModal] *)

(** [String.prototype.toLowerCase] on the ASCII letters. *)
Definition lower_ascii (c : ascii) : ascii :=
  let n := nat_of_ascii c in
  if ((65 <=? n) && (n <=? 90))%nat then ascii_of_nat (n + 32) else c.

Fixpoint toLowerCase (s : string) : string :=
  match s with
  | EmptyString => EmptyString
  | String c s' => String (lower_ascii c) (toLowerCase s')
  end.

Fixpoint repeat_string (n : nat) (s : string) : string :=
  match n with
  | O => EmptyString
  | S n' => (s ++ repeat_string n' s)%string
  end.

(** [s.padEnd(targetLength, padString)]. *)
Definition padEnd (s : string) (targetLength : nat) (padString : string) : string :=
  let missing := targetLength - String.length s in
  if (padString =? "")%string then s
  else (s ++ substring 0 missing (repeat_string missing padString))%string.

Definition NATIVE_TOKEN_ADDRESS : string := padEnd "0x0" 42 "0".

Record GasFeeToken : Type := {
  amount : string;
  balance : string;
  decimals : N;
  gas : string;
  maxFeePerGas : string;
  maxPriorityFeePerGas : string;
  rateWei : string;
  recipient : string;
  symbol : string;
  tokenAddress : string
}.

(** The two fields of the confirmation the modal reads. *)
Record Confirmation : Type := {
  gasFeeTokens : option (list GasFeeToken);
  selectedGasFeeToken : option string
}.

(** The props of one [GasFeeTokenListItem]. *)
Record GasFeeTokenListItemProps : Type := {
  key : string;
  item_tokenAddress : string;
  isSelected : bool
}.

Definition gasFeeTokenAddresses (currentConfirmation : Confirmation) : list string :=
  NATIVE_TOKEN_ADDRESS
  :: match gasFeeTokens currentConfirmation with
     | Some tokens => map tokenAddress tokens
     | None => []
     end.

(** The expression given to [isSelected]. *)
Definition selected (selectedGasFeeToken : option string) (tokenAddress : string) : bool :=
  match selectedGasFeeToken with
  | Some s => (toLowerCase s =? toLowerCase tokenAddress)%string
  | None => false
  end
  || (negb (truthy_opt selectedGasFeeToken)
      && (tokenAddress =? NATIVE_TOKEN_ADDRESS)%string).

(** The list items the modal renders, in order. *)
Definition GasFeeTokenModal (currentConfirmation : Confirmation)
    : list GasFeeTokenListItemProps :=
  map (fun tokenAddress =>
         {| key := tokenAddress;
            item_tokenAddress := tokenAddress;
            isSelected :=
              selected (selectedGasFeeToken currentConfirmation) tokenAddress |})
      (gasFeeTokenAddresses currentConfirmation).

(** [useGasFeeToken]: the token the hook finds for an address. *)
Definition findGasFeeToken (currentConfirmation : Confirmation)
    (nativeFeeToken : GasFeeToken) (address : string) : option GasFeeToken :=
  match
    match gasFeeTokens currentConfirmation with
    | Some tokens =>
        find (fun token =>
                (toLowerCase (tokenAddress token) =? toLowerCase address)%string)
             tokens
    | None => None
    end
  with
  | Some token => Some token
  | None =>
      if (address =? NATIVE_TOKEN_ADDRESS)%string
      then Some nativeFeeToken
      else None
  end.

(** ** [useGasFeeToken], [useSelectedGasFeeToken], [useNativeGasFeeToken] *)

Definition RATE_WEI_NATIVE : string := "0xDE0B6B3A7640000".

(** What [useNativeGasFeeToken] reads from [useFeeCalculations], from the
    selectors and from [txParams] (whose three gas fields it casts to
    [Hex]). *)
Record NativeFeeInputs : Type := {
  estimatedFeeNativeHex : string;
  availableBalance : string;
  nativeCurrency : string;
  txParams_gas : string;
  txParams_maxFeePerGas : string;
  txParams_maxPriorityFeePerGas : string
}.

(** [useNativeGasFeeToken()]. *)
Definition useNativeGasFeeToken (inputs : NativeFeeInputs) : GasFeeToken :=
  {| amount := estimatedFeeNativeHex inputs;
     balance := availableBalance inputs;
     decimals := 18;
     gas := txParams_gas inputs;
     maxFeePerGas := txParams_maxFeePerGas inputs;
     maxPriorityFeePerGas := txParams_maxPriorityFeePerGas inputs;
     rateWei := RATE_WEI_NATIVE;
     recipient := NATIVE_TOKEN_ADDRESS;
     symbol := nativeCurrency inputs;
     tokenAddress := NATIVE_TOKEN_ADDRESS |}.

(** What [useGasFeeToken] returns: the token it found and the three
    fields it adds. *)
Record GasFeeTokenDetails : Type := {
  details_token : GasFeeToken;
  amountFormatted : string;
  amountFiat : option string;
  balanceFiat : option string
}.

Section GasFeeTokenHooks.

(** [formatAmount(locale, new BigNumber(amount).shift(-decimals))], as a
    function of [amount] and [decimals]. *)
Variable formatTokenAmount : string -> N -> string.

(** [useEthFiatAmount(nativeEth, {}, true)] where [nativeEth] is
    [new BigNumber(tokenValue).shift(-decimals).mul(new BigNumber(rateWei)).shift(-18)],
    as a function of [tokenValue], [decimals] and [rateWei]; [None] is
    [undefined]. *)
Variable ethFiatAmount : string -> N -> string -> option string.

(** [useFiatTokenValue(gasFeeToken, tokenValue)]. *)
Definition useFiatTokenValue (gasFeeToken : option GasFeeToken)
    (tokenValue : option string) : option string :=
  let '(tokenDecimals, tokenRateWei) :=
    match gasFeeToken with
    | Some token => (decimals token, rateWei token)
    | None => (0%N, "0x0")
    end in
  let fiatValue :=
    ethFiatAmount match tokenValue with Some v => v | None => "0x0" end
                  tokenDecimals tokenRateWei in
  match gasFeeToken with
  | Some _ => fiatValue
  | None => Some ""
  end.

(** [useGasFeeToken({ tokenAddress })]; [None] is [undefined]. *)
Definition useGasFeeToken (currentConfirmation : Confirmation)
    (inputs : NativeFeeInputs) (tokenAddress : string)
    : option GasFeeTokenDetails :=
  let nativeFeeToken := useNativeGasFeeToken inputs in
  let gasFeeToken := findGasFeeToken currentConfirmation nativeFeeToken tokenAddress in
  let '(tokenAmount, tokenDecimals) :=
    match gasFeeToken with
    | Some token => (amount token, decimals token)
    | None => ("0x0", 0%N)
    end in
  let amountFormatted := formatTokenAmount tokenAmount tokenDecimals in
  let amountFiat := useFiatTokenValue gasFeeToken (option_map amount gasFeeToken) in
  let balanceFiat := useFiatTokenValue gasFeeToken (option_map balance gasFeeToken) in
  match gasFeeToken with
  | None => None
  | Some token =>
      Some {| details_token := token;
              amountFormatted := amountFormatted;
              amountFiat := amountFiat;
              balanceFiat := balanceFiat |}
  end.

(** [useSelectedGasFeeToken()]. *)
Definition useSelectedGasFeeToken (currentConfirmation : Confirmation)
    (inputs : NativeFeeInputs) : option GasFeeTokenDetails :=
  useGasFeeToken currentConfirmation inputs
    match selectedGasFeeToken currentConfirmation with
    | Some s => s
    | None => "0x"
    end.

End GasFeeTokenHooks.

(** ** [useTokenListPolling] *)

(** What the hook selects from the store. *)
Record TokenListPollingState : Type := {
  useTokenDetection : bool;
  useTransactionSimulations : bool;
  completedOnboarding : bool;
  isUnlocked : bool;
  useExternalServices : bool;
  chainIdsToPoll : list string
}.

(** The [input] the hook gives to [useMultiPolling]. *)
Definition tokenListPollingInput (state : TokenListPollingState) : list string :=
  let enabled :=
    completedOnboarding state
    && isUnlocked state
    && useExternalServices state
    && (useTokenDetection state || useTransactionSimulations state) in
  if enabled then chainIdsToPoll state else [].

(** ** [PrivateKeyImportView] *)

(** The two pieces of state of the component. *)
Record PrivateKeyImportState : Type := {
  privateKey : string;
  showPrivateKey : bool
}.

Definition initialPrivateKeyImportState : PrivateKeyImportState :=
  {| privateKey := ""; showPrivateKey := false |}.

(** What the user does in the form: the text field changes, a key is
    pressed in it, the show/hide toggle is used. *)
Inductive PrivateKeyImportEvent : Type :=
| Change (value : string)
| KeyPress (key : string)
| Toggle.

(** A call of [importAccountFunc(strategy, args)]; [prevented] records
    that [event.preventDefault()] was called before. *)
Record ImportCall : Type := {
  strategy : string;
  args : list string;
  prevented : bool
}.

Inductive TextFieldType : Type :=
| Text
| Password.

(** The [type] of the text field. *)
Definition fieldType (state : PrivateKeyImportState) : TextFieldType :=
  if showPrivateKey state then Text else Password.

(** [isPrimaryDisabled] of the buttons. *)
Definition isPrimaryDisabled (state : PrivateKeyImportState) : bool :=
  (privateKey state =? "")%string.

(** One event: the state after it and the calls of [importAccountFunc] it
    makes. *)
Definition handleEvent (state : PrivateKeyImportState)
    (event : PrivateKeyImportEvent)
    : PrivateKeyImportState * list ImportCall :=
  match event with
  | Change value =>
      ({| privateKey := value; showPrivateKey := showPrivateKey state |}, [])
  | KeyPress key =>
      if negb (privateKey state =? "")%string && (key =? "Enter")%string
      then (state,
            [{| strategy := "privateKey";
                args := [privateKey state];
                prevented := true |}])
      else (state, [])
  | Toggle =>
      ({| privateKey := privateKey state;
          showPrivateKey := negb (showPrivateKey state) |}, [])
  end.

Definition is_Change (event : PrivateKeyImportEvent) : bool :=
  match event with
  | Change _ => true
  | _ => false
  end.

(** The events of a session, one render after the other. *)
Fixpoint handleEvents (state : PrivateKeyImportState)
    (events : list PrivateKeyImportEvent)
    : PrivateKeyImportState * list ImportCall :=
  match events with
  | [] => (state, [])
  | event :: rest =>
      let '(state', calls) := handleEvent state event in
      let '(state'', calls') := handleEvents state' rest in
      (state'', calls ++ calls')
  end.

(** ** A concrete environment *)

Definition hexDigit (d : N) : ascii :=
  if (d <? 10)%N
  then ascii_of_N (48 + d)
  else ascii_of_N (87 + d).

Fixpoint hexadecimal_from (fuel : nat) (n : N) (acc : string) : string :=
  match fuel with
  | O => acc
  | S fuel' =>
      let acc' := String (hexDigit (n mod 16)) acc in
      if (n / 16 =? 0)%N then acc' else hexadecimal_from fuel' (n / 16) acc'
  end.

(** The digits of [n] in base sixteen, without prefix. *)
Definition hexadecimal (n : N) : string :=
  hexadecimal_from (S (N.to_nat (N.log2 n))) n "".

Definition sampleTxParams : TransactionParams :=
  {| tx_from := "0xaaa";
     tx_to := Some "0xbbb";
     tx_data := None;
     tx_value := Some "0x1";
     tx_nonce := Some "0x7";
     tx_gas := Some "0x5208";
     tx_gasPrice := None;
     tx_maxFeePerGas := Some "0x1";
     tx_maxPriorityFeePerGas := Some "0x1";
     tx_chainId := None;
     tx_type := Some "0x2" |}.

Definition sampleMeta (type : option TransactionType) : TransactionMeta :=
  {| meta_id := "tx-1";
     meta_chainId := "0x1";
     meta_origin := Some "metamask";
     meta_type := type;
     meta_txParams := sampleTxParams |}.

Definition sampleFlags (asap : option bool) : option FeatureFlags :=
  Some {| extensionActive := true;
          mobileActive := false;
          smartTransactions :=
            Some {| expectedDeadline := Some 45%N;
                    maxDeadline := Some 150%N;
                    extensionReturnTxHashAsap := asap |} |}.

Definition sampleRequest (type : option TransactionType) (asap : option bool)
    : SubmitSmartTransactionRequest :=
  {| req_transactionMeta := sampleMeta type;
     req_signedTransactionInHex := None;
     req_isSmartTransaction := true;
     req_featureFlags := sampleFlags asap;
     req_transactions := None |}.

Definition sampleFees : Fees :=
  {| approvalTxFees := None;
     tradeTxFees :=
       Some {| fees :=
                 [ {| fee_maxFeePerGas := 255; fee_maxPriorityFeePerGas := 16 |};
                   {| fee_maxFeePerGas := 4096; fee_maxPriorityFeePerGas := 17 |} ] |} |}.

Definition sampleResponse : SubmitTransactionResponse :=
  {| uuid := Some "uuid-1";
     txHash := Some "0xhash";
     txHashes := Some ["0xhash"; "0xhash2"] |}.

(** An environment whose controllers answer as given. *)
Definition sampleEnvWith
    (fees : Error + Fees)
    (signed : list TransactionParams -> Error + list string)
    (relay : Error + option SubmitTransactionResponse) : Env :=
  {| isLegacyTransaction :=
       fun m =>
         match tx_type (meta_txParams m) with
         | Some t => (t =? "0x0")%string
         | None => false
         end;
     decimalToHex := hexadecimal;
     CANCEL_GAS_LIMIT_DEC := 21000;
     ORIGIN_METAMASK := "metamask";
     showSmartTransactionStatusPage := "smartTransactionStatusPage";
     origin := "chrome-extension://wallet";
     Date_now := 1700000000000;
     getFees := fun _ => fees;
     submitSignedTransactions := fun _ => relay;
     approveTransactionsWithSameNonce := signed;
     startFlowId := fun n => String "f" (repeat_string n "'");
     acceptRequest := fun _ => None;
     addRequest := fun _ => None |}.

(** An environment whose ApprovalController refuses to add a request, and
    whose other controllers answer as [sampleEnv]'s do. *)
Definition sampleEnvRefusingRequests : Env :=
  {| isLegacyTransaction :=
       fun m =>
         match tx_type (meta_txParams m) with
         | Some t => (t =? "0x0")%string
         | None => false
         end;
     decimalToHex := hexadecimal;
     CANCEL_GAS_LIMIT_DEC := 21000;
     ORIGIN_METAMASK := "metamask";
     showSmartTransactionStatusPage := "smartTransactionStatusPage";
     origin := "chrome-extension://wallet";
     Date_now := 1700000000000;
     getFees := fun _ => inr sampleFees;
     submitSignedTransactions := fun _ => inr (Some sampleResponse);
     approveTransactionsWithSameNonce :=
       fun txs => inr (map (fun _ => "0xsigned") txs);
     startFlowId := fun n => String "f" (repeat_string n "'");
     acceptRequest := fun _ => None;
     addRequest := fun _ => Some (ExternalError "request refused") |}.

(** Every controller answers; each transaction is signed. *)
Definition sampleEnv : Env :=
  sampleEnvWith (inr sampleFees)
                (fun txs => inr (map (fun _ => "0xsigned") txs))
                (inr (Some sampleResponse)).

Definition minedEvent (u : string) (hash : string) : Stimulus :=
  Published {| st_uuid := u;
               st_status := Some SUCCESS;
               st_statusMetadata := Some {| minedHash := hash; minedTx := "success" |} |}.

Definition pendingEvent (u : string) : Stimulus :=
  Published {| st_uuid := u;
               st_status := Some PENDING;
               st_statusMetadata := None |}.

Definition worldWith (ss : list Stimulus) : World :=
  {| sharedApprovalFlowId := "";
     approvalFlows := [];
     flowsStarted := 0;
     trace := [];
     pending := ss |}.

(** A batch of three transactions, the second of which is not signed. *)
Definition sampleBatch : list PublishBatchHookTransaction :=
  [ {| batch_id := Some "b-1"; batch_params := sampleTxParams;
       batch_signedTx := "0xs1" |};
    {| batch_id := Some "b-2"; batch_params := sampleTxParams;
       batch_signedTx := "" |};
    {| batch_id := None; batch_params := sampleTxParams;
       batch_signedTx := "0xs3" |} ].

(** A request as [submitBatchSmartTransactionHook] gets it. *)
Definition sampleBatchRequest (type : option TransactionType)
    : SubmitSmartTransactionRequest :=
  {| req_transactionMeta := sampleMeta type;
     req_signedTransactionInHex := None;
     req_isSmartTransaction := true;
     req_featureFlags := sampleFlags (Some true);
     req_transactions := Some sampleBatch |}.

(** A request whose transaction is signed already. *)
Definition samplePreSignedRequest (hex : string) : SubmitSmartTransactionRequest :=
  {| req_transactionMeta := sampleMeta (Some simpleSend);
     req_signedTransactionInHex := Some hex;
     req_isSmartTransaction := true;
     req_featureFlags := sampleFlags None;
     req_transactions := None |}.


(** A confirmation with two gas fee tokens, the second one selected, and
    what the native token is built from. *)
Definition sampleGasFeeToken (address sym : string) : GasFeeToken :=
  {| amount := "0x3e8";
     balance := "0x929";
     decimals := 6;
     gas := "0x5208";
     maxFeePerGas := "0x4";
     maxPriorityFeePerGas := "0x5";
     rateWei := "0x38d7ea4c68000";
     recipient := "0x7";
     symbol := sym;
     tokenAddress := address |}.

Definition sampleConfirmation (selection : option string) : Confirmation :=
  {| gasFeeTokens :=
       Some [ sampleGasFeeToken "0x1234567890AbCdEf1234567890aBcDeF12345678" "USDC";
              sampleGasFeeToken "0xabc" "DAI" ];
     selectedGasFeeToken := selection |}.

Definition sampleNativeFeeInputs : NativeFeeInputs :=
  {| estimatedFeeNativeHex := "0x2386f26fc10000";
     availableBalance := "0xde0b6b3a7640000";
     nativeCurrency := "ETH";
     txParams_gas := "0x5208";
     txParams_maxFeePerGas := "0x1";
     txParams_maxPriorityFeePerGas := "0x1" |}.

(** ** Reading the result of a run *)

Definition outcome_of {A : Type} (r : Outcome A * Instance * World) : Outcome A :=
  fst (fst r).

Definition instance_of {A : Type} (r : Outcome A * Instance * World) : Instance :=
  snd (fst r).

Definition world_of {A : Type} (r : Outcome A * Instance * World) : World :=
  snd r.

(** [triple P m Q]: from an instance and a world that satisfy [P], the
    method [m] ends in an outcome, an instance and a world that satisfy
    [Q]. *)
Definition triple {A : Type} (P : Instance -> World -> Prop) (m : M A)
    (Q : Outcome A -> Instance -> World -> Prop) : Prop :=
  forall i w, P i w ->
    Q (outcome_of (m i w)) (instance_of (m i w)) (world_of (m i w)).

(** [preserves I m]: [m] keeps [I], however it ends. *)
Definition preserves {A : Type} (I : Instance -> World -> Prop) (m : M A) : Prop :=
  triple I m (fun _ => I).

(** A smart transaction whose status is final, for the listener of [uuid]. *)
Definition qualifies (uuid : string) (smartTransaction : SmartTransaction) : bool :=
  (st_uuid smartTransaction =? uuid)%string
  && match st_status smartTransaction with
     | Some status => negb (is_PENDING status)
     | None => false
     end.

Definition stimulus_qualifies (uuid : string) (s : Stimulus) : bool :=
  match s with
  | Published smartTransaction => qualifies uuid smartTransaction
  | RequestSettled => false
  end.

Definition is_WaitForHash (h : Handler) : bool :=
  match h with
  | WaitForHash _ => true
  | _ => false
  end.

(** What a callback resolves the awaited promise with, if it does. *)
Definition resolution (h : Handler) (s : Stimulus) : option (option string) :=
  match h, s with
  | WaitForHash uuid, Published smartTransaction =>
      if qualifies uuid smartTransaction
      then Some (resolvedHash smartTransaction)
      else None
  | _, _ => None
  end.

Fixpoint firstResolution (hs : list Handler) (s : Stimulus) : option (option string) :=
  match hs with
  | [] => None
  | h :: hs' =>
      match resolution h s with
      | Some v => Some v
      | None => firstResolution hs' s
      end
  end.


(** The flows left open by [ApprovalController:endFlow] on [id]. *)
Definition flows_after_endFlow (id : string) (fl : list string) : list string :=
  match rev fl with
  | current :: earlier => if (id =? current)%string then rev earlier else fl
  | [] => fl
  end.

Definition is_UpdateStatusPage (h : Handler) : bool :=
  match h with
  | UpdateStatusPage _ => true
  | _ => false
  end.

(** The calls a callback can make: debug logging by the one that waits for
    the hash, an update of the status page by the listener of the status
    page, the end of the flow by [#onApproveOrReject] when the status page
    is shown. *)
Definition handler_effect (show statusListener : bool) (e : Effect) : Prop :=
  match e with
  | LogDebug _ => True
  | CallUpdateRequestState _ _ _ _ => statusListener = true
  | CallEndFlow _ => show = true
  | _ => False
  end.

(** What the callbacks may have done between two states of an instance. *)
Definition handled (i : Instance) (w : World) (i' : Instance) (w' : World) : Prop :=
  shouldShowStatusPage i' = shouldShowStatusPage i
  /\ (forall s, firstResolution (handlers i') s = firstResolution (handlers i) s)
  /\ existsb is_UpdateStatusPage (handlers i')
     = existsb is_UpdateStatusPage (handlers i)
  /\ exists T,
       trace w' = trace w ++ T
       /\ Forall (handler_effect (shouldShowStatusPage i)
                                 (existsb is_UpdateStatusPage (handlers i))) T.

(** The calls [#endExistingApprovalFlow] can make. *)
Definition ending_effect (e : Effect) : Prop :=
  match e with
  | CallEndFlow _ | CallAcceptRequest _ | LogError _ => True
  | _ => False
  end.



(** ** The approval flow of one instance *)

(** The flow of the instance is the one open flow, and the static field
    names it. *)
Definition flow_open (i : Instance) (w : World) : Prop :=
  approvalFlowEnded i = false
  /\ approvalFlows w = [approvalFlowId i]
  /\ sharedApprovalFlowId w = approvalFlowId i.

(** The flow of the instance was ended: no flow is open and the static
    field names none. *)
Definition flow_closed (i : Instance) (w : World) : Prop :=
  approvalFlowEnded i = true
  /\ approvalFlows w = []
  /\ sharedApprovalFlowId w = "".

(** What holds from [#startApprovalFlow] on in an instance that shows the
    status page. *)
Definition own_flow (i : Instance) (w : World) : Prop :=
  shouldShowStatusPage i = true /\ (flow_open i w \/ flow_closed i w).

(** The flow of the instance is ended, or the callback that ends it when
    the approval request is settled is in place. *)
Definition awaits_settlement (i : Instance) (w : World) : Prop :=
  own_flow i w
  /\ (approvalFlowEnded i = false -> In ApprovalSettled (handlers i)).

(** What holds when a part of [submit] has ended: the callback is in place
    if the part returned. *)
Definition settled_if_returned {A : Type} (o : Outcome A) (i : Instance)
    (w : World) : Prop :=
  match o with
  | Returned _ => awaits_settlement i w
  | _ => own_flow i w
  end.

(** ** The parts of [submit] and [submitBatch]

    The two methods cut at the points the properties speak of. Each part
    is the text of the method from that point on; [submit_parts] and
    [submitBatch_parts] below say so. *)

(** The [catch] of the second [try] of [submit]. *)
Definition submit_catch (error : Error) : M SubmitResult :=
  emit (LogError "Error in smart transaction publish hook") ;;
  onApproveOrReject ;;
  throw error.

(** [submit] from where the hash is asked for: [i0] is the instance
    [submit] was called on. *)
Definition submit_hash (i0 : Instance)
    (submitTransactionResponse : option SubmitTransactionResponse)
    (uuid : string) : M SubmitResult :=
  transactionHash <-
    match response_txHash submitTransactionResponse with
    | Some h =>
        if returnTxHashAsap i0 && truthy h
        then ret (Some h)
        else waitForTransactionHash uuid
    | None => waitForTransactionHash uuid
    end ;;
  hash <- requireHash transactionHash ;;
  ret {| transactionHash := Some hash |}.

(** The second [try] of [submit]. *)
Definition submit_relay (env : Env) (i0 : Instance) (getFeesResponse : Fees)
    : M SubmitResult :=
  try_catch
    (submitTransactionResponse <-
       signAndSubmitTransactions env (Some getFeesResponse) ;;
     uuid <- requireUuid submitTransactionResponse ;;
     processApprovalIfNeeded env uuid ;;
     submit_hash i0 submitTransactionResponse uuid)
    submit_catch.

(** [submit] after the approval flow was started. *)
Definition submit_fees (env : Env) (i0 : Instance) : M SubmitResult :=
  fetched <-
    try_catch
      (let p := with_chainId (Some (chainId i0)) (txParams i0) in
       emit (CallGetFees p) ;;
       getFeesResponse <- settle (getFees env p) ;;
       ret (inr getFeesResponse))
      (fun _ =>
         emit (LogError "Error in smart transaction publish hook, falling back to regular transaction submission") ;;
         onApproveOrReject ;;
         ret (inl useRegularTransactionSubmit)) ;;
  match fetched with
  | inl fallback => ret fallback
  | inr getFeesResponse => submit_relay env i0 getFeesResponse
  end.

(** The [catch] of [submitBatch]. *)
Definition submitBatch_catch (error : Error) : M (option SubmitBatchResult) :=
  emit (LogError "Error in smart transaction publish batch hook") ;;
  onApproveOrReject ;;
  throw error.

(** The object [submitBatch] returns for a response of the relay. *)
Definition submitBatchResponse
    (submitTransactionResponse : option SubmitTransactionResponse)
    : SubmitBatchResult :=
  match submitTransactionResponse with
  | Some {| txHashes := Some hashes |} =>
      {| results :=
           map (fun txHash => {| transactionHash := Some txHash |}) hashes |}
  | _ => {| results := [] |}
  end.

(** [submitBatch] from where the hash is waited for. *)
Definition submitBatch_hash
    (submitTransactionResponse : option SubmitTransactionResponse)
    (uuid : string) : M (option SubmitBatchResult) :=
  transactionHash <- waitForTransactionHash uuid ;;
  _ <- requireHash transactionHash ;;
  ret (Some (submitBatchResponse submitTransactionResponse)).

(** The [try] of [submitBatch]. *)
Definition submitBatch_relay (env : Env) : M (option SubmitBatchResult) :=
  try_catch
    (submitTransactionResponse <- signAndSubmitTransactions env None ;;
     uuid <- requireUuid submitTransactionResponse ;;
     processApprovalIfNeeded env uuid ;;
     submitBatch_hash submitTransactionResponse uuid)
    submitBatch_catch.

(** The world after further calls. *)
Definition log (w : World) (T : list Effect) : World :=
  {| sharedApprovalFlowId := sharedApprovalFlowId w;
     approvalFlows := approvalFlows w;
     flowsStarted := flowsStarted w;
     trace := trace w ++ T;
     pending := pending w |}.

(** The phases of [submit] a call belongs to. *)
Inductive Step : Type :=
| StartsApprovalFlow
| RetrievesFees
| SignsTransactions
| SubmitsToRelay
| CreatesApprovalRequest
| RegistersStatusListener
| WaitsForTransactionHash.

Definition step_of (e : Effect) : list Step :=
  match e with
  | CallStartFlow => [StartsApprovalFlow]
  | CallGetFees _ => [RetrievesFees]
  | CallApproveTransactionsWithSameNonce _ _ => [SignsTransactions]
  | CallSubmitSignedTransactions _ => [SubmitsToRelay]
  | CallAddRequest _ _ => [CreatesApprovalRequest]
  | Subscribe (UpdateStatusPage _) => [RegistersStatusListener]
  | Subscribe (WaitForHash _) => [WaitsForTransactionHash]
  | _ => []
  end.

(** The phases a list of calls goes through, in order. *)
Definition steps (T : list Effect) : list Step := flat_map step_of T.

(** Whether [#signAndSubmitTransactions] has to sign: no batch, no
    pre-signed transaction. *)
Definition requiresSigning (i : Instance) : bool :=
  match transactions i with
  | Some (_ :: _) => false
  | _ => negb (truthy_opt (signedTransactionInHex i))
  end.

(** An outcome that is not the fallback to a regular submission. *)
Definition no_fallback (o : Outcome SubmitResult) : Prop :=
  forall r, o = Returned r -> exists h, transactionHash r = Some h.

(** The call by which [#onApproveOrReject] ends the flow [id] of an
    instance: none when the status page is not shown or the flow was ended
    before. *)
Definition ends_flow (i : Instance) (id : string) : list Effect :=
  if shouldShowStatusPage i && negb (approvalFlowEnded i)
  then [CallEndFlow id]
  else [].

(** ** The order of the phases *)

(** The place of a phase in a run. *)
Definition rank (s : Step) : nat :=
  match s with
  | StartsApprovalFlow => 0
  | RetrievesFees => 1
  | SignsTransactions => 2
  | SubmitsToRelay => 3
  | CreatesApprovalRequest => 4
  | RegistersStatusListener => 5
  | WaitsForTransactionHash => 6
  end.

(** The phases of [T] come in order, each at most once. *)
Definition ordered (T : list Effect) : Prop :=
  StronglySorted lt (map rank (steps T)).

(** [in_order k t0 i w]: the calls made since the trace was [t0] went
    through phases before the [k]-th only, in order and each at most
    once. *)
Definition in_order (k : nat) (t0 : list Effect) (i : Instance) (w : World) : Prop :=
  exists T,
    trace w = t0 ++ T
    /\ ordered T
    /\ Forall (fun n => n < k) (map rank (steps T)).

(** [staged t0 k k' m]: from phase [k] on, [m] goes through phases from
    the [k]-th to before the [k']-th, in order, however it ends. *)
Definition staged {A : Type} (t0 : list Effect) (k k' : nat) (m : M A) : Prop :=
  triple (in_order k t0) m (fun _ => in_order k' t0).

(** What a method adds to the trace, whatever the state it starts from:
    phases from the [k]-th to before the [k']-th, in order. *)
Definition adds {A : Type} (k k' : nat) (m : M A) : Prop :=
  forall i w,
  exists T,
    trace (world_of (m i w)) = trace w ++ T
    /\ ordered T
    /\ Forall (fun n => k <= n < k') (map rank (steps T)).

(** * Properties *)

(** ** Rules for [triple] *)

Section Rules.

Context {A B : Type}.

Lemma run_eta (r : Outcome A * Instance * World) :
  r = (outcome_of r, instance_of r, world_of r).
Proof. destruct r as [[o i] w]. reflexivity. Qed.

Lemma triple_conseq (P P' : Instance -> World -> Prop) (m : M A)
    (Q Q' : Outcome A -> Instance -> World -> Prop) :
  triple P m Q ->
  (forall i w, P' i w -> P i w) ->
  (forall o i w, Q o i w -> Q' o i w) ->
  triple P' m Q'.
Proof. intros H HP HQ i w Hi. apply HQ, H, HP, Hi. Qed.

Lemma triple_ret (P : Instance -> World -> Prop) (a : A)
    (Q : Outcome A -> Instance -> World -> Prop) :
  (forall i w, P i w -> Q (Returned a) i w) ->
  triple P (ret a) Q.
Proof. intros H i w Hi. apply H, Hi. Qed.

Lemma triple_throw (P : Instance -> World -> Prop) (e : Error)
    (Q : Outcome A -> Instance -> World -> Prop) :
  (forall i w, P i w -> Q (Threw e) i w) ->
  triple P (throw e) Q.
Proof. intros H i w Hi. apply H, Hi. Qed.

Lemma triple_bind (P : Instance -> World -> Prop) (m : M A) (k : A -> M B)
    (R : Outcome A -> Instance -> World -> Prop)
    (Q : Outcome B -> Instance -> World -> Prop) :
  triple P m R ->
  (forall a, triple (R (Returned a)) (k a) Q) ->
  (forall e i w, R (Threw e) i w -> Q (Threw e) i w) ->
  (forall i w, R Pending i w -> Q Pending i w) ->
  triple P (bind m k) Q.
Proof.
  intros Hm Hk He Hp i w Hi. specialize (Hm i w Hi).
  unfold bind. destruct (m i w) as [[[a | e | ] i1] w1]; cbn in Hm.
  - apply Hk, Hm.
  - apply He, Hm.
  - apply Hp, Hm.
Qed.

Lemma triple_try_catch (P : Instance -> World -> Prop) (m : M A)
    (h : Error -> M A)
    (R : Outcome A -> Instance -> World -> Prop)
    (Q : Outcome A -> Instance -> World -> Prop) :
  triple P m R ->
  (forall e, triple (R (Threw e)) (h e) Q) ->
  (forall a i w, R (Returned a) i w -> Q (Returned a) i w) ->
  (forall i w, R Pending i w -> Q Pending i w) ->
  triple P (try_catch m h) Q.
Proof.
  intros Hm Hh Hr Hp i w Hi. specialize (Hm i w Hi).
  unfold try_catch. destruct (m i w) as [[[a | e | ] i1] w1]; cbn in Hm.
  - apply Hr, Hm.
  - apply Hh, Hm.
  - apply Hp, Hm.
Qed.

End Rules.

Lemma preserves_bind {A B : Type} (I : Instance -> World -> Prop)
    (m : M A) (k : A -> M B) :
  preserves I m -> (forall a, preserves I (k a)) -> preserves I (bind m k).
Proof.
  intros Hm Hk. apply (triple_bind I m k (fun _ => I)); auto.
Qed.

Lemma preserves_try_catch {A : Type} (I : Instance -> World -> Prop)
    (m : M A) (h : Error -> M A) :
  preserves I m -> (forall e, preserves I (h e)) -> preserves I (try_catch m h).
Proof.
  intros Hm Hh. apply (triple_try_catch I m h (fun _ => I)); auto.
Qed.

Lemma preserves_ret {A : Type} (I : Instance -> World -> Prop) (a : A) :
  preserves I (ret a).
Proof. apply triple_ret. auto. Qed.

Lemma preserves_throw {A : Type} (I : Instance -> World -> Prop) (e : Error) :
  preserves I (@throw A e).
Proof. apply triple_throw. auto. Qed.

Lemma preserves_this (I : Instance -> World -> Prop) : preserves I this.
Proof. intros i w H. exact H. Qed.

Lemma preserves_world (I : Instance -> World -> Prop) : preserves I world.
Proof. intros i w H. exact H. Qed.

Lemma preserves_when (I : Instance -> World -> Prop) (b : bool) (m : M unit) :
  (b = true -> preserves I m) -> preserves I (when b m).
Proof.
  intros H. destruct b; simpl.
  - apply H. reflexivity.
  - apply preserves_ret.
Qed.

Lemma preserves_settle {A : Type} (I : Instance -> World -> Prop) (r : Error + A) :
  preserves I (settle r).
Proof. destruct r; [apply preserves_throw | apply preserves_ret]. Qed.


(** [w <- world ;; k w], likewise. *)
Lemma preserves_bind_world {B : Type} (I : Instance -> World -> Prop)
    (k : World -> M B) :
  (forall v, triple (fun i w => I i w /\ w = v) (k v) (fun _ => I)) ->
  preserves I (bind world k).
Proof.
  intros H i w Hi. unfold bind, world. apply (H w i w). split; [exact Hi | reflexivity].
Qed.

(** ** [submit] without the relay *)

Section EarlyReturn.

Variable env : Env.

(** C8. When [isSmartTransaction] is false, or the type is swapAndSend,
    swapApproval or bridgeApproval, or the transaction is a legacy one,
    [submit] returns [{ transactionHash: undefined }] and leaves the
    instance and the world as they were: no flow is started, no fee is
    fetched, nothing reaches the relay, nothing is logged. *)
Theorem submit_regular_leaves_everything (i : Instance) (w : World) :
  isSmartTransaction i = false
  \/ In (meta_type (transactionMeta i))
        [Some swapAndSend; Some swapApproval; Some bridgeApproval]
  \/ isLegacyTransaction env (transactionMeta i) = true ->
  submit env i w = (Returned {| transactionHash := None |}, i, w).
Proof.
  intros H. unfold submit, bind, this.
  assert (G : negb (isSmartTransaction i)
              || isUnsupportedTransactionTypeForSmartTransaction i
              || isLegacyTransaction env (transactionMeta i) = true).
  { destruct H as [H | [H | H]].
    - rewrite H. reflexivity.
    - unfold isUnsupportedTransactionTypeForSmartTransaction.
      simpl in H.
      destruct H as [H | [H | [H | []]]]; rewrite <- H; simpl;
        rewrite orb_true_r; reflexivity.
    - rewrite H. apply orb_true_r. }
  rewrite G. reflexivity.
Qed.

End EarlyReturn.

Lemma submit_regular_leaves_everything_witness :
  submit sampleEnv (constructor sampleEnv (sampleRequest (Some swapApproval) None))
         initialWorld
  = (Returned {| transactionHash := None |},
     constructor sampleEnv (sampleRequest (Some swapApproval) None),
     initialWorld).
Proof.
  apply (submit_regular_leaves_everything sampleEnv).
  right. left. simpl. right. left. reflexivity.
Defined.

(** ** The callbacks and the awaited hash *)

Lemma onApproveOrReject_skips (i : Instance) (w : World) :
  negb (shouldShowStatusPage i) || approvalFlowEnded i = true ->
  onApproveOrReject i w = (Returned tt, i, w).
Proof.
  intros H. unfold onApproveOrReject, bind, this. rewrite H. reflexivity.
Qed.

Lemma onApproveOrReject_acts (i : Instance) (w : World) :
  shouldShowStatusPage i = true ->
  approvalFlowEnded i = false ->
  onApproveOrReject i w =
  (Returned tt,
   with_fields true (approvalFlowId i) (handlers i) i,
   {| sharedApprovalFlowId :=
        if (sharedApprovalFlowId w =? approvalFlowId i)%string
        then "" else sharedApprovalFlowId w;
      approvalFlows := flows_after_endFlow (approvalFlowId i) (approvalFlows w);
      flowsStarted := flowsStarted w;
      trace := trace w ++ [CallEndFlow (approvalFlowId i)];
      pending := pending w |}).
Proof.
  intros Hs He. unfold onApproveOrReject, bind, this. rewrite Hs, He. simpl.
  unfold try_catch, callEndFlow, bind, emit, world, flows_after_endFlow. simpl.
  destruct (rev (approvalFlows w)) as [| current earlier]; simpl.
  - destruct (sharedApprovalFlowId w =? approvalFlowId i)%string; reflexivity.
  - destruct (approvalFlowId i =? current)%string; simpl;
      destruct (sharedApprovalFlowId w =? approvalFlowId i)%string; reflexivity.
Qed.

(** Whatever the instance and the world, [#onApproveOrReject] returns; it
    leaves the callbacks and the stimuli alone. *)
Lemma onApproveOrReject_returns (i : Instance) (w : World) :
  exists ended w' T,
    onApproveOrReject i w
    = (Returned tt, with_fields ended (approvalFlowId i) (handlers i) i, w')
    /\ pending w' = pending w
    /\ trace w' = trace w ++ T
    /\ Forall (handler_effect (shouldShowStatusPage i) false) T.
Proof.
  destruct (negb (shouldShowStatusPage i) || approvalFlowEnded i) eqn:G.
  - exists (approvalFlowEnded i), w, []. rewrite (onApproveOrReject_skips i w G).
    rewrite app_nil_r. destruct i; auto.
  - apply orb_false_iff in G. destruct G as [Gs Ge].
    apply negb_false_iff in Gs.
    eexists; eexists; eexists. rewrite (onApproveOrReject_acts i w Gs Ge).
    repeat split; try reflexivity.
    constructor; [exact Gs | constructor].
Qed.

Lemma handler_effect_listener (show b : bool) (e : Effect) :
  handler_effect show false e -> handler_effect show b e.
Proof. destruct e; simpl; auto. discriminate. Qed.

Lemma handler_effect_orb (show a b : bool) (e : Effect) :
  handler_effect show a e \/ handler_effect show b e ->
  handler_effect show (a || b) e.
Proof.
  destruct e; simpl; auto; try tauto.
  intros [-> | ->]; [reflexivity | apply orb_true_r].
Qed.

Lemma runHandler_returns (h : Handler) (s : Stimulus) (i : Instance) (w : World) :
  exists ended w' T,
    runHandler h s i w
    = (Returned (resolution h s),
       with_fields ended (approvalFlowId i) (handlers i) i, w')
    /\ pending w' = pending w
    /\ trace w' = trace w ++ T
    /\ Forall (handler_effect (shouldShowStatusPage i) (is_UpdateStatusPage h)) T.
Proof.
  assert (Same : forall v : option (option string),
    exists ended w' T,
      (Returned v, i, w)
      = (Returned v, with_fields ended (approvalFlowId i) (handlers i) i, w')
      /\ pending w' = pending w
      /\ trace w' = trace w ++ T
      /\ Forall (handler_effect (shouldShowStatusPage i) (is_UpdateStatusPage h)) T).
  { intros v. exists (approvalFlowEnded i), w, []. rewrite app_nil_r.
    destruct i; auto. }
  destruct h as [u | u | ], s as [st | ]; simpl; try apply Same.
  - unfold qualifies.
    destruct (st_uuid st =? u)%string; simpl; [| apply Same].
    destruct (st_status st) as [status |]; [| apply Same].
    destruct (is_PENDING status); [apply Same |].
    unfold bind, this, ret. destruct (approvalFlowEnded i) eqn:E; simpl.
    + apply Same.
    + exists false. eexists; eexists.
      unfold updateApprovalRequest, bind, this, emit.
      simpl. rewrite <- E. split; [destruct i; reflexivity |].
      repeat split. repeat constructor.
  - unfold qualifies.
    destruct (st_uuid st =? u)%string; simpl; [| apply Same].
    destruct (st_status st) as [status |]; [| apply Same].
    destruct (is_PENDING status); simpl; [apply Same |].
    exists (approvalFlowEnded i). unfold bind, emit, ret.
    destruct (resolvedHash st); simpl; eexists; eexists;
      (split; [destruct i; reflexivity |]);
      (split; [reflexivity |]); (split; [ | shelve]);
      rewrite <- ?app_assoc; reflexivity.
    Unshelve. all: simpl; repeat constructor.
  - destruct (onApproveOrReject_returns i w) as (ended & w' & T & E & Hp & Ht & HT).
    exists ended, w', T. unfold bind. rewrite E. auto.
Qed.

Lemma runHandlers_returns (hs : list Handler) (s : Stimulus) :
  forall (i : Instance) (w : World),
  exists ended w' T,
    runHandlers hs s i w
    = (Returned (firstResolution hs s),
       with_fields ended (approvalFlowId i) (handlers i) i, w')
    /\ pending w' = pending w
    /\ trace w' = trace w ++ T
    /\ Forall (handler_effect (shouldShowStatusPage i)
                              (existsb is_UpdateStatusPage hs)) T.
Proof.
  induction hs as [| h hs IH]; intros i w; simpl.
  - exists (approvalFlowEnded i), w, []. rewrite app_nil_r. destruct i; auto.
  - destruct (runHandler_returns h s i w) as (e1 & w1 & T1 & E1 & P1 & Tr1 & F1).
    destruct (IH (with_fields e1 (approvalFlowId i) (handlers i) i) w1)
      as (e2 & w2 & T2 & E2 & P2 & Tr2 & F2).
    exists e2, w2, (T1 ++ T2). unfold bind at 1. rewrite E1. unfold bind. rewrite E2.
    simpl. split; [reflexivity |]. split; [congruence |].
    split; [rewrite Tr2, Tr1, app_assoc; reflexivity |].
    apply Forall_app. split.
    + eapply Forall_impl; [| exact F1]. intros e He.
      apply handler_effect_orb. left. exact He.
    + eapply Forall_impl; [| exact F2]. intros e He.
      apply handler_effect_orb. right. exact He.
Qed.

Lemma firstResolution_filter (hs : list Handler) (s : Stimulus) :
  firstResolution (filter (fun h => negb (is_ApprovalSettled h)) hs) s
  = firstResolution hs s.
Proof.
  induction hs as [| h hs IH]; simpl; [reflexivity |].
  destruct h; simpl; rewrite IH; reflexivity.
Qed.

Lemma statusListener_filter (hs : list Handler) :
  existsb is_UpdateStatusPage (filter (fun h => negb (is_ApprovalSettled h)) hs)
  = existsb is_UpdateStatusPage hs.
Proof.
  induction hs as [| h hs IH]; simpl; [reflexivity |].
  destruct h; simpl; congruence.
Qed.

Lemma handled_refl (i : Instance) (w : World) : handled i w i w.
Proof.
  repeat split. exists []. rewrite app_nil_r. split; [reflexivity | constructor].
Qed.

Lemma handled_trans (i1 i2 i3 : Instance) (w1 w2 w3 : World) :
  handled i1 w1 i2 w2 -> handled i2 w2 i3 w3 -> handled i1 w1 i3 w3.
Proof.
  intros (S1 & R1 & L1 & T1 & E1 & F1) (S2 & R2 & L2 & T2 & E2 & F2).
  split; [congruence |]. split; [intros s; rewrite R2; apply R1 |].
  split; [congruence |].
  exists (T1 ++ T2). split; [rewrite E2, E1, app_assoc; reflexivity |].
  apply Forall_app. split; [exact F1 |]. rewrite <- S1, <- L1. exact F2.
Qed.

Lemma dispatch_returns (s : Stimulus) (i : Instance) (w : World) :
  exists i' w',
    dispatch s i w = (Returned (firstResolution (handlers i) s), i', w')
    /\ pending w' = pending w
    /\ handled i w i' w'.
Proof.
  destruct (runHandlers_returns (handlers i) s i w)
    as (ended & w' & T & E & P & Tr & F).
  unfold dispatch, bind, this. rewrite E.
  destruct s; simpl.
  - eexists; eexists. split; [reflexivity |]. split; [exact P |].
    repeat split. exists T. auto.
  - eexists; eexists. split; [reflexivity |]. split; [exact P |].
    split; [reflexivity |]. split; [intros s'; apply firstResolution_filter |].
    split; [apply statusListener_filter |]. exists T. auto.
Qed.

(** The awaited promise is resolved by the first stimulus some callback
    resolves it at, and stays pending when there is none. *)
Lemma awaitTransactionHash_resolves (ss : list Stimulus) :
  forall (i : Instance) (w : World) pre s post v,
    ss = pre ++ s :: post ->
    (forall s', In s' pre -> firstResolution (handlers i) s' = None) ->
    firstResolution (handlers i) s = Some v ->
    exists i' w',
      awaitTransactionHash ss i w = (Returned v, i', w')
      /\ pending w' = post
      /\ handled i w i' w'.
Proof.
  induction ss as [| s0 rest IH]; intros i w pre s post v Hss Hpre Hs.
  - destruct pre; discriminate.
  - simpl. unfold bind at 1. unfold set_pending at 1. unfold bind at 1.
    match goal with |- context [dispatch s0 i ?w0] =>
      destruct (dispatch_returns s0 i w0) as (i1 & w1 & E & P & H1) end.
    rewrite E. simpl in P.
    assert (H1' : handled i w i1 w1) by exact H1.
    destruct pre as [| p pre'].
    + simpl in Hss. injection Hss as -> ->. rewrite Hs.
      exists i1, w1. split; [reflexivity |]. split; [exact P | exact H1'].
    + simpl in Hss. injection Hss as -> ->.
      rewrite (Hpre p (or_introl eq_refl)).
      destruct H1' as (S1 & R1 & L1 & T1).
      destruct (IH i1 w1 pre' s post v eq_refl) as (i2 & w2 & E2 & P2 & H2).
      * intros s' Hin. rewrite R1. apply Hpre. right. exact Hin.
      * rewrite R1. exact Hs.
      * exists i2, w2. split; [exact E2 |]. split; [exact P2 |].
        eapply handled_trans; [| exact H2]. exact H1.
Qed.

Lemma awaitTransactionHash_pending (ss : list Stimulus) :
  forall (i : Instance) (w : World),
    (forall s', In s' ss -> firstResolution (handlers i) s' = None) ->
    exists i' w',
      awaitTransactionHash ss i w = (Pending, i', w')
      /\ pending w' = []
      /\ handled i w i' w'.
Proof.
  induction ss as [| s0 rest IH]; intros i w Hall.
  - simpl. unfold bind, set_pending. eexists; eexists.
    split; [reflexivity |]. split; [reflexivity |]. apply (handled_refl i w).
  - simpl. unfold bind at 1. unfold set_pending at 1. unfold bind at 1.
    match goal with |- context [dispatch s0 i ?w0] =>
      destruct (dispatch_returns s0 i w0) as (i1 & w1 & E & P & H1) end.
    rewrite E. rewrite (Hall s0 (or_introl eq_refl)).
    assert (H1' : handled i w i1 w1) by exact H1.
    destruct H1' as (S1 & R1 & L1 & T1).
    destruct (IH i1 w1) as (i2 & w2 & E2 & P2 & H2).
    + intros s' Hin. rewrite R1. apply Hall. right. exact Hin.
    + exists i2, w2. split; [exact E2 |]. split; [exact P2 |].
      eapply handled_trans; [| exact H2]. exact H1.
Qed.

Lemma awaitTransactionHash_handled (ss : list Stimulus) :
  forall (i : Instance) (w : World),
  exists o i' w',
    awaitTransactionHash ss i w = (o, i', w')
    /\ (forall e, o <> Threw e)
    /\ handled i w i' w'.
Proof.
  induction ss as [| s0 rest IH]; intros i w.
  - simpl. unfold bind, set_pending. eexists; eexists; eexists.
    split; [reflexivity |]. split; [discriminate | apply (handled_refl i w)].
  - simpl. unfold bind at 1. unfold set_pending at 1. unfold bind at 1.
    match goal with |- context [dispatch s0 i ?w0] =>
      destruct (dispatch_returns s0 i w0) as (i1 & w1 & E & P & H1) end.
    rewrite E.
    assert (H1' : handled i w i1 w1) by exact H1.
    destruct (firstResolution (handlers i) s0) as [v |].
    + exists (Returned v), i1, w1. split; [reflexivity |].
      split; [discriminate | exact H1'].
    + destruct (IH i1 w1) as (o & i2 & w2 & E2 & N2 & H2).
      exists o, i2, w2. split; [exact E2 |]. split; [exact N2 |].
      eapply handled_trans; [exact H1' | exact H2].
Qed.

Lemma firstResolution_waiting (u : string) (hs : list Handler) (s : Stimulus) :
  forallb (fun h => negb (is_WaitForHash h)) hs = true ->
  firstResolution (hs ++ [WaitForHash u]) s = resolution (WaitForHash u) s.
Proof.
  induction hs as [| h hs IH]; intros H.
  - cbn [app firstResolution].
    destruct (resolution (WaitForHash u) s); reflexivity.
  - cbn [forallb] in H. apply andb_true_iff in H. destruct H as [Hh Hhs].
    cbn [app firstResolution].
    destruct h; try discriminate; destruct s; cbn [resolution]; auto.
Qed.

Lemma statusListener_waiting (u : string) (hs : list Handler) :
  existsb is_UpdateStatusPage (hs ++ [WaitForHash u])
  = existsb is_UpdateStatusPage hs.
Proof.
  rewrite existsb_app. simpl. rewrite orb_false_r. reflexivity.
Qed.

Lemma resolution_not_qualifying (u : string) (s : Stimulus) :
  stimulus_qualifies u s = false -> resolution (WaitForHash u) s = None.
Proof.
  destruct s as [st |]; simpl; [| reflexivity]. intros ->. reflexivity.
Qed.

(** The state in which [#waitForTransactionHash] starts to wait. *)
Lemma waitForTransactionHash_unfold (u : string) (i : Instance) (w : World) :
  waitForTransactionHash u i w
  = awaitTransactionHash (pending w)
      (with_fields (approvalFlowEnded i) (approvalFlowId i)
                   (handlers i ++ [WaitForHash u]) i)
      {| sharedApprovalFlowId := sharedApprovalFlowId w;
         approvalFlows := approvalFlows w;
         flowsStarted := flowsStarted w;
         trace := trace w ++ [Subscribe (WaitForHash u)];
         pending := pending w |}.
Proof. reflexivity. Qed.

Lemma waitForTransactionHash_run (u : string) (i : Instance) (w : World) :
  exists o i' w' T,
    waitForTransactionHash u i w = (o, i', w')
    /\ (forall e, o <> Threw e)
    /\ shouldShowStatusPage i' = shouldShowStatusPage i
    /\ existsb is_UpdateStatusPage (handlers i')
       = existsb is_UpdateStatusPage (handlers i)
    /\ trace w' = trace w ++ Subscribe (WaitForHash u) :: T
    /\ Forall (handler_effect (shouldShowStatusPage i)
                              (existsb is_UpdateStatusPage (handlers i))) T.
Proof.
  rewrite waitForTransactionHash_unfold.
  match goal with |- context [awaitTransactionHash ?ss ?j ?v] =>
    destruct (awaitTransactionHash_handled ss j v)
      as (o & i' & w' & E & N & S & R & L & T & Tr & F) end.
  exists o, i', w', T. split; [exact E |]. split; [exact N |].
  split; [exact S |]. simpl in Tr, F, L.
  rewrite statusListener_waiting in L, F.
  split; [exact L |].
  split; [rewrite Tr, <- app_assoc; reflexivity | exact F].
Qed.

(** C4. [#waitForTransactionHash] subscribes to the smart-transaction
    events of the bus. The promise it returns is resolved at the first
    event whose uuid is the submitted one and whose status is there and
    is not PENDING: with [statusMetadata.minedHash] when that event
    carries one, with [null] otherwise. Events of another uuid, without
    status or with status PENDING do not resolve it: while only such
    events come, it stays pending. *)
Theorem waitForTransactionHash_first_final_event
    (u : string) (i : Instance) (w : World) :
  forallb (fun h => negb (is_WaitForHash h)) (handlers i) = true ->
  (exists T,
     trace (world_of (waitForTransactionHash u i w))
     = trace w ++ Subscribe (WaitForHash u) :: T)
  /\ (forall pre smartTransaction post,
        pending w = pre ++ Published smartTransaction :: post ->
        forallb (fun s => negb (stimulus_qualifies u s)) pre = true ->
        qualifies u smartTransaction = true ->
        outcome_of (waitForTransactionHash u i w)
        = Returned
            match st_statusMetadata smartTransaction with
            | Some statusMetadata =>
                if truthy (minedHash statusMetadata)
                then Some (minedHash statusMetadata)
                else None
            | None => None
            end
        /\ pending (world_of (waitForTransactionHash u i w)) = post)
  /\ (forallb (fun s => negb (stimulus_qualifies u s)) (pending w) = true ->
      outcome_of (waitForTransactionHash u i w) = Pending).
Proof.
  intros Hfresh. split; [| split].
  - destruct (waitForTransactionHash_run u i w)
      as (o & i' & w' & T & E & _ & _ & _ & Tr & _).
    exists T. rewrite E. exact Tr.
  - intros pre st post Hp Hpre Hq.
    rewrite waitForTransactionHash_unfold.
    match goal with |- context [awaitTransactionHash ?ss ?j ?v] =>
      destruct (awaitTransactionHash_resolves ss j v pre (Published st) post
                  (resolvedHash st))
        as (i' & w' & E & P & _) end.
    + exact Hp.
    + intros s' Hin. simpl. rewrite (firstResolution_waiting u _ s' Hfresh).
      apply resolution_not_qualifying.
      rewrite forallb_forall in Hpre. specialize (Hpre s' Hin).
      apply negb_true_iff in Hpre. exact Hpre.
    + simpl. rewrite (firstResolution_waiting u _ _ Hfresh). simpl.
      rewrite Hq. reflexivity.
    + rewrite E. split; [reflexivity | exact P].
  - intros Hall. rewrite waitForTransactionHash_unfold.
    match goal with |- context [awaitTransactionHash ?ss ?j ?v] =>
      destruct (awaitTransactionHash_pending ss j v) as (i' & w' & E & _) end.
    + intros s' Hin. simpl. rewrite (firstResolution_waiting u _ s' Hfresh).
      apply resolution_not_qualifying.
      rewrite forallb_forall in Hall. specialize (Hall s' Hin).
      apply negb_true_iff in Hall. exact Hall.
    + rewrite E. reflexivity.
Qed.

Lemma waitForTransactionHash_first_final_event_witness :
  outcome_of
    (waitForTransactionHash "uuid-1"
       (constructor sampleEnv (sampleRequest (Some simpleSend) None))
       (worldWith [pendingEvent "uuid-1"; minedEvent "other" "0x1";
                   RequestSettled; minedEvent "uuid-1" "0xmined";
                   minedEvent "uuid-1" "0xlater"]))
  = Returned (Some "0xmined").
Proof.
  apply (proj1 (proj1 (proj2
    (waitForTransactionHash_first_final_event "uuid-1"
       (constructor sampleEnv (sampleRequest (Some simpleSend) None))
       (worldWith [pendingEvent "uuid-1"; minedEvent "other" "0x1";
                   RequestSettled; minedEvent "uuid-1" "0xmined";
                   minedEvent "uuid-1" "0xlater"])
       eq_refl))
    [pendingEvent "uuid-1"; minedEvent "other" "0x1"; RequestSettled]
    {| st_uuid := "uuid-1";
       st_status := Some SUCCESS;
       st_statusMetadata := Some {| minedHash := "0xmined"; minedTx := "success" |} |}
    [minedEvent "uuid-1" "0xlater"]
    eq_refl eq_refl eq_refl)).
Defined.

(** ** The approval flows *)

Section ApprovalFlows.

Variable env : Env.

(** [#startApprovalFlow] always returns. Before it starts the new flow it
    makes only the calls of [#endExistingApprovalFlow]. *)
Lemma startApprovalFlow_run (i : Instance) (w : World) :
  exists w' T,
    startApprovalFlow env i w
    = (Returned tt,
       with_fields (approvalFlowEnded i) (startFlowId env (flowsStarted w))
                   (handlers i) i,
       w')
    /\ pending w' = pending w
    /\ sharedApprovalFlowId w' = startFlowId env (flowsStarted w)
    /\ trace w' = trace w ++ T ++ [CallStartFlow]
    /\ Forall ending_effect T.
Proof.
  unfold startApprovalFlow, bind, world.
  destruct (truthy (sharedApprovalFlowId w)) eqn:Ht; simpl.
  - unfold endExistingApprovalFlow, try_catch, bind, callEndFlow, bind, emit,
      world. simpl.
    destruct (rev (approvalFlows w)) as [| current earlier]; simpl.
    + eexists.
      exists [CallEndFlow (sharedApprovalFlowId w);
              LogError "Error ending existing approval flow"].
      split; [reflexivity |]. cbn. repeat split.
      * rewrite <- !app_assoc. reflexivity.
      * repeat constructor.
    + destruct (sharedApprovalFlowId w =? current)%string; simpl.
      * unfold callAcceptRequest, bind, emit. simpl.
        destruct (acceptRequest env (sharedApprovalFlowId w)); simpl.
        -- eexists.
           exists [CallEndFlow (sharedApprovalFlowId w);
                   CallAcceptRequest (sharedApprovalFlowId w);
                   LogError "Error ending existing approval flow"].
           split; [reflexivity |]. cbn. repeat split.
           ++ rewrite <- !app_assoc. reflexivity.
           ++ repeat constructor.
        -- eexists.
           exists [CallEndFlow (sharedApprovalFlowId w);
                   CallAcceptRequest (sharedApprovalFlowId w)].
           split; [reflexivity |]. cbn. repeat split.
           ++ rewrite <- !app_assoc. reflexivity.
           ++ repeat constructor.
      * eexists.
        exists [CallEndFlow (sharedApprovalFlowId w);
                LogError "Error ending existing approval flow"].
        split; [reflexivity |]. cbn. repeat split.
        -- rewrite <- !app_assoc. reflexivity.
        -- repeat constructor.
  - eexists; exists []. split; [reflexivity |]. repeat split. constructor.
Qed.

(** With no flow named by the static field, the new flow is started at
    once. *)
Lemma startApprovalFlow_first (i : Instance) (w : World) :
  truthy (sharedApprovalFlowId w) = false ->
  startApprovalFlow env i w
  = (Returned tt,
     with_fields (approvalFlowEnded i) (startFlowId env (flowsStarted w))
                 (handlers i) i,
     {| sharedApprovalFlowId := startFlowId env (flowsStarted w);
        approvalFlows := approvalFlows w ++ [startFlowId env (flowsStarted w)];
        flowsStarted := S (flowsStarted w);
        trace := trace w ++ [CallStartFlow];
        pending := pending w |}).
Proof.
  intros Ht. unfold startApprovalFlow, bind, world. rewrite Ht. reflexivity.
Qed.

(** The flow named by the static field, when it is the open one, is ended
    and its request accepted. *)
Lemma endExistingApprovalFlow_open (i : Instance) (w : World) :
  approvalFlows w = [sharedApprovalFlowId w] ->
  endExistingApprovalFlow env (sharedApprovalFlowId w) i w
  = (Returned tt, i,
     {| sharedApprovalFlowId :=
          match acceptRequest env (sharedApprovalFlowId w) with
          | None => ""
          | Some _ => sharedApprovalFlowId w
          end;
        approvalFlows := [];
        flowsStarted := flowsStarted w;
        trace :=
          trace w
          ++ [CallEndFlow (sharedApprovalFlowId w);
              CallAcceptRequest (sharedApprovalFlowId w)]
          ++ match acceptRequest env (sharedApprovalFlowId w) with
             | None => []
             | Some _ => [LogError "Error ending existing approval flow"]
             end;
        pending := pending w |}).
Proof.
  intros H.
  unfold endExistingApprovalFlow, try_catch, bind, callEndFlow, bind, emit,
    world. simpl. rewrite H. simpl. rewrite String.eqb_refl. simpl.
  unfold callAcceptRequest, bind, emit. simpl.
  destruct (acceptRequest env (sharedApprovalFlowId w)); simpl;
    rewrite <- !app_assoc; reflexivity.
Qed.

Lemma startApprovalFlow_after_ending (i : Instance) (w : World) :
  truthy (sharedApprovalFlowId w) = true ->
  startApprovalFlow env i w
  = bind (callStartFlow env)
         (fun approvalFlowId =>
            bind (set_approvalFlowId approvalFlowId)
                 (fun _ => set_sharedApprovalFlowId approvalFlowId))
         (instance_of (endExistingApprovalFlow env (sharedApprovalFlowId w) i w))
         (world_of (endExistingApprovalFlow env (sharedApprovalFlowId w) i w)).
Proof.
  intros Ht. unfold startApprovalFlow at 1. unfold bind at 1, world at 1.
  unfold bind at 1. rewrite Ht. unfold when.
  assert (R : exists i1 w1,
             endExistingApprovalFlow env (sharedApprovalFlowId w) i w
             = (Returned tt, i1, w1)).
  { unfold endExistingApprovalFlow, try_catch.
    destruct (bind (callEndFlow (sharedApprovalFlowId w)) _ i w)
      as [[[[] | e |] i1] w1] eqn:E.
    - eexists; eexists; reflexivity.
    - eexists; eexists; reflexivity.
    - exfalso. revert E.
      unfold bind, callEndFlow, bind, emit, world, callAcceptRequest, bind, emit.
      simpl. destruct (rev (approvalFlows w)); simpl; [discriminate |].
      destruct (sharedApprovalFlowId w =? s)%string; simpl; [| discriminate].
      destruct (acceptRequest env (sharedApprovalFlowId w)); discriminate. }
  destruct R as (i1 & w1 & R). rewrite R. reflexivity.
Qed.

Lemma startApprovalFlow_keeps_flows_match (i : Instance) (w : World) :
  truthy (startFlowId env (flowsStarted w)) = true ->
  flows_match_shared w ->
  flows_match_shared (world_of (startApprovalFlow env i w))
  /\ approvalFlows (world_of (startApprovalFlow env i w))
     = [startFlowId env (flowsStarted w)].
Proof.
  intros Hid H. unfold flows_match_shared in H.
  destruct (truthy (sharedApprovalFlowId w)) eqn:Ht.
  - rewrite (startApprovalFlow_after_ending i w Ht).
    rewrite (endExistingApprovalFlow_open i w H).
    unfold flows_match_shared. cbn. rewrite Hid. split; reflexivity.
  - rewrite (startApprovalFlow_first i w Ht).
    unfold flows_match_shared. cbn. rewrite Hid, H. split; reflexivity.
Qed.

Lemma onApproveOrReject_keeps_flows_match (i : Instance) (w : World) :
  flows_match_shared w ->
  flows_match_shared (world_of (onApproveOrReject i w)).
Proof.
  intros H.
  destruct (negb (shouldShowStatusPage i) || approvalFlowEnded i) eqn:G.
  - rewrite (onApproveOrReject_skips i w G). exact H.
  - apply orb_false_iff in G. destruct G as [Gs Ge].
    apply negb_false_iff in Gs.
    rewrite (onApproveOrReject_acts i w Gs Ge).
    unfold flows_match_shared in *. cbn.
    unfold flows_after_endFlow.
    destruct (truthy (sharedApprovalFlowId w)) eqn:Ht; rewrite H; simpl.
    + rewrite (String.eqb_sym (approvalFlowId i)).
      destruct (sharedApprovalFlowId w =? approvalFlowId i)%string;
        simpl; [reflexivity | rewrite Ht; reflexivity].
    + destruct (sharedApprovalFlowId w =? approvalFlowId i)%string;
        simpl; [reflexivity | rewrite Ht; reflexivity].
Qed.

Lemma replace_nth_length {A : Type} (k : nat) (a : A) (l : list A) :
  List.length (replace_nth k a l) = List.length l.
Proof.
  revert k. induction l as [| x l IH]; intros k; [destruct k; reflexivity |].
  destruct k; simpl; [reflexivity | rewrite IH; reflexivity].
Qed.

Lemma call_on_length (m : M unit) (k : nat) (s : System) :
  List.length (instances (call_on m k s)) = List.length (instances s).
Proof.
  unfold call_on. destruct (nth_error (instances s) k) as [i |]; [| reflexivity].
  destruct (m i (shared s)) as [[o i'] w']. simpl. apply replace_nth_length.
Qed.

(** The two pieces into which the settlement of an accepted request cuts
    [#startApprovalFlow] are the method: with no callback in between,
    going on from the accepted request is [#startApprovalFlow]. *)
Lemma startApprovalFlow_after_accepting (i i1 : Instance) (w w1 : World) :
  truthy (sharedApprovalFlowId w) = true ->
  endAndAccept env (sharedApprovalFlowId w) i w = (Returned tt, i1, w1) ->
  startApprovalFlow env i w = startApprovalFlow_accepted env i1 w1.
Proof.
  intros Ht.
  unfold startApprovalFlow, startApprovalFlow_accepted,
    endExistingApprovalFlow, endAndAccept, try_catch, bind, world, when.
  rewrite Ht.
  destruct (callEndFlow (sharedApprovalFlowId w) i w) as [[[[] | e |] ia] wa];
    try discriminate.
  destruct (callAcceptRequest env (sharedApprovalFlowId w) ia wa)
    as [[[[] | e |] ib] wb]; try discriminate.
  intros E. injection E as -> ->. reflexivity.
Qed.

(** [#startApprovalFlow] is its part before the last [await] followed by
    its part after it. *)
Lemma startApprovalFlow_at_its_await (i : Instance) (w : World) :
  startApprovalFlow env i w
  = bind (startApprovalFlow_begin env) startApprovalFlow_resume i w.
Proof.
  unfold startApprovalFlow, startApprovalFlow_begin, startApprovalFlow_resume.
  unfold bind, world.
  destruct (when _ _ i w) as [[[[] | e |] i1] w1]; try reflexivity;
    destruct (callStartFlow env i1 w1) as [[[id | e |] i2] w2]; reflexivity.
Qed.

(** Whatever it finds, [#startApprovalFlow] starts a flow: the flow the
    static field names is ended when the ApprovalController allows it, and
    the new flow is opened after the flows that are left. *)
Lemma startApprovalFlow_flows (i : Instance) (w : World) :
  approvalFlows (world_of (startApprovalFlow env i w))
  = (if truthy (sharedApprovalFlowId w)
     then flows_after_endFlow (sharedApprovalFlowId w) (approvalFlows w)
     else approvalFlows w)
    ++ [startFlowId env (flowsStarted w)].
Proof.
  unfold startApprovalFlow, bind, world, flows_after_endFlow.
  destruct (truthy (sharedApprovalFlowId w)) eqn:Ht; simpl; [| reflexivity].
  unfold endExistingApprovalFlow, try_catch, bind, callEndFlow, bind, emit,
    world. simpl.
  destruct (rev (approvalFlows w)) as [| current earlier]; simpl;
    [reflexivity |].
  destruct (sharedApprovalFlowId w =? current)%string; simpl; [| reflexivity].
  unfold callAcceptRequest, bind, emit. simpl.
  destruct (acceptRequest env (sharedApprovalFlowId w)); reflexivity.
Qed.

Lemma endAndAccept_accepted (i i1 : Instance) (w w1 : World) :
  approvalFlows w = [sharedApprovalFlowId w] ->
  endAndAccept env (sharedApprovalFlowId w) i w = (Returned tt, i1, w1) ->
  approvalFlows w1 = [].
Proof.
  intros H. unfold endAndAccept, callEndFlow, callAcceptRequest, bind, emit,
    world. simpl. rewrite H. simpl. rewrite String.eqb_refl. simpl.
  destruct (acceptRequest env (sharedApprovalFlowId w)); [discriminate |].
  intros E. injection E as _ <-. reflexivity.
Qed.

Lemma onApproveOrReject_without_flows (i : Instance) (w : World) :
  approvalFlows w = [] ->
  approvalFlows (world_of (onApproveOrReject i w)) = [].
Proof.
  intros H.
  destruct (negb (shouldShowStatusPage i) || approvalFlowEnded i) eqn:G.
  - rewrite (onApproveOrReject_skips i w G). exact H.
  - apply orb_false_iff in G. destruct G as [Gs Ge].
    apply negb_false_iff in Gs.
    rewrite (onApproveOrReject_acts i w Gs Ge). cbn.
    unfold flows_after_endFlow. rewrite H. reflexivity.
Qed.

Lemma call_on_startApprovalFlow_keeps (k : nat) (s : System) :
  (forall n, truthy (startFlowId env n) = true) ->
  flows_match_shared (shared s) ->
  flows_match_shared (shared (call_on (startApprovalFlow env) k s)).
Proof.
  intros Hid H.
  unfold call_on. destruct (nth_error (instances s) k) as [i |]; [| exact H].
  pose proof (startApprovalFlow_keeps_flows_match i (shared s) (Hid _) H)
    as [K _].
  destruct (startApprovalFlow env i (shared s)) as [[o i'] w']. exact K.
Qed.

Lemma step_keeps_flows_match (s : System) (c : Call) :
  (forall n, truthy (startFlowId env n) = true) ->
  flows_match_shared (shared s) ->
  flows_match_shared (shared (step env s c)).
Proof.
  intros Hid H. destruct c as [request | k | k j | k]; simpl.
  - exact H.
  - apply call_on_startApprovalFlow_keeps; assumption.
  - destruct (nth_error (instances s) k) as [i |] eqn:Hk; [| exact H].
    destruct (truthy (sharedApprovalFlowId (shared s))) eqn:Ht;
      [| apply call_on_startApprovalFlow_keeps; assumption].
    destruct (endAndAccept env (sharedApprovalFlowId (shared s)) i (shared s))
      as [[[[] | e |] i1] w1] eqn:Ea;
      try (apply call_on_startApprovalFlow_keeps; assumption).
    assert (Hflows : approvalFlows (shared s) = [sharedApprovalFlowId (shared s)]).
    { unfold flows_match_shared in H. rewrite Ht in H. exact H. }
    pose proof (endAndAccept_accepted i i1 (shared s) w1 Hflows Ea) as H1.
    set (s1 := {| instances := replace_nth k i1 (instances s); shared := w1 |}).
    assert (H2 : approvalFlows (shared (call_on onApproveOrReject j s1)) = []).
    { unfold call_on. destruct (nth_error (instances s1) j) as [ij |];
        [| exact H1].
      pose proof (onApproveOrReject_without_flows ij (shared s1) H1) as K.
      destruct (onApproveOrReject ij (shared s1)) as [[o i'] w']. exact K. }
    assert (Hlen : k < List.length (instances (call_on onApproveOrReject j s1))).
    { rewrite call_on_length. unfold s1. cbn [instances].
      rewrite replace_nth_length. apply nth_error_Some. congruence. }
    unfold call_on at 1.
    destruct (nth_error (instances (call_on onApproveOrReject j s1)) k)
      as [ik |] eqn:Hk2; [| apply nth_error_None in Hk2; lia].
    unfold flows_match_shared. cbn. rewrite H2, Hid. reflexivity.
  - unfold call_on. destruct (nth_error (instances s) k) as [i |]; [| exact H].
    pose proof (onApproveOrReject_keeps_flows_match i (shared s) H) as K.
    destruct (onApproveOrReject i (shared s)) as [[o i'] w']. exact K.
Qed.

Lemma run_keeps_flows_match (cs : list Call) :
  (forall n, truthy (startFlowId env n) = true) ->
  forall s, flows_match_shared (shared s) ->
            flows_match_shared (shared (run env cs s)).
Proof.
  intros Hid. induction cs as [| c cs IH]; intros s H; simpl.
  - exact H.
  - apply IH. apply step_keeps_flows_match; assumption.
Qed.

Lemma flows_match_at_most_one (w : World) :
  flows_match_shared w -> List.length (approvalFlows w) <= 1.
Proof.
  unfold flows_match_shared. intros ->.
  destruct (truthy (sharedApprovalFlowId w)); simpl; lia.
Qed.

(** C3, as the code has it. When the instances of the hook are the only
    users of the flows of the ApprovalController, from a state with no
    flow open, [ApprovalController:startFlow] gives ids that are not
    empty, and their calls of [#startApprovalFlow] and
    [#onApproveOrReject] run one after the other (the callback that an
    accepted request triggers in the instance that added it running
    inside [#startApprovalFlow], right after the request is accepted),
    then at most one approval flow is open, the one the static field
    names. [#startApprovalFlow] first ends the flow the static field names
    (it calls endFlow and acceptRequest, and clears the static field when
    both went through), then starts a flow and records its id in the
    instance and in the static field; it starts that flow in every case,
    also when the ApprovalController has refused to end the old one.
    [#onApproveOrReject] ends the flow of the instance once
    ([#approvalFlowEnded] then makes every later call do nothing) and
    clears the static field only when it holds the id of the instance. *)
Theorem at_most_one_approval_flow :
  (forall n, truthy (startFlowId env n) = true) ->
  (forall calls,
      flows_match_shared (shared (run env calls initialSystem))
      /\ List.length (approvalFlows (shared (run env calls initialSystem))) <= 1)
  /\ (forall i w,
        flows_match_shared w ->
        truthy (sharedApprovalFlowId w) = true ->
        exists logged,
          endExistingApprovalFlow env (sharedApprovalFlowId w) i w
          = (Returned tt, i,
             {| sharedApprovalFlowId :=
                  match acceptRequest env (sharedApprovalFlowId w) with
                  | None => ""
                  | Some _ => sharedApprovalFlowId w
                  end;
                approvalFlows := [];
                flowsStarted := flowsStarted w;
                trace :=
                  trace w
                  ++ [CallEndFlow (sharedApprovalFlowId w);
                      CallAcceptRequest (sharedApprovalFlowId w)]
                  ++ logged;
                pending := pending w |})
          /\ startApprovalFlow env i w
             = (Returned tt,
                with_fields (approvalFlowEnded i)
                            (startFlowId env (flowsStarted w)) (handlers i) i,
                {| sharedApprovalFlowId := startFlowId env (flowsStarted w);
                   approvalFlows := [startFlowId env (flowsStarted w)];
                   flowsStarted := S (flowsStarted w);
                   trace :=
                     trace w
                     ++ [CallEndFlow (sharedApprovalFlowId w);
                         CallAcceptRequest (sharedApprovalFlowId w)]
                     ++ logged ++ [CallStartFlow];
                   pending := pending w |}))
  /\ (forall i w,
        flows_match_shared w ->
        truthy (sharedApprovalFlowId w) = false ->
        startApprovalFlow env i w
        = (Returned tt,
           with_fields (approvalFlowEnded i)
                       (startFlowId env (flowsStarted w)) (handlers i) i,
           {| sharedApprovalFlowId := startFlowId env (flowsStarted w);
              approvalFlows := [startFlowId env (flowsStarted w)];
              flowsStarted := S (flowsStarted w);
              trace := trace w ++ [CallStartFlow];
              pending := pending w |}))
  /\ (forall i w,
        trace (world_of (onApproveOrReject i w))
        = trace w
          ++ (if shouldShowStatusPage i && negb (approvalFlowEnded i)
              then [CallEndFlow (approvalFlowId i)] else [])
        /\ sharedApprovalFlowId (world_of (onApproveOrReject i w))
           = (if shouldShowStatusPage i && negb (approvalFlowEnded i)
                 && (sharedApprovalFlowId w =? approvalFlowId i)%string
              then "" else sharedApprovalFlowId w)
        /\ forall w2,
             onApproveOrReject (instance_of (onApproveOrReject i w)) w2
             = (Returned tt, instance_of (onApproveOrReject i w), w2))
  /\ (forall i w,
        outcome_of (startApprovalFlow env i w) = Returned tt
        /\ approvalFlows (world_of (startApprovalFlow env i w))
           = (if truthy (sharedApprovalFlowId w)
              then flows_after_endFlow (sharedApprovalFlowId w) (approvalFlows w)
              else approvalFlows w)
             ++ [startFlowId env (flowsStarted w)]
        /\ sharedApprovalFlowId (world_of (startApprovalFlow env i w))
           = startFlowId env (flowsStarted w)
        /\ approvalFlowId (instance_of (startApprovalFlow env i w))
           = startFlowId env (flowsStarted w)).
Proof.
  intros Hid. split; [| split; [| split; [| split]]]; cycle 4.
  { intros i w.
    destruct (startApprovalFlow_run i w) as (w' & T & E & _ & Hsh & _).
    split; [rewrite E; reflexivity |].
    split; [apply startApprovalFlow_flows |].
    rewrite E. split; [exact Hsh | reflexivity]. }
  - intros calls.
    assert (H : flows_match_shared (shared (run env calls initialSystem))).
    { apply run_keeps_flows_match; [exact Hid | reflexivity]. }
    split; [exact H | apply flows_match_at_most_one, H].
  - intros i w H Ht. unfold flows_match_shared in H. rewrite Ht in H.
    exists (match acceptRequest env (sharedApprovalFlowId w) with
            | None => []
            | Some _ => [LogError "Error ending existing approval flow"]
            end).
    split; [apply (endExistingApprovalFlow_open i w H) |].
    rewrite (startApprovalFlow_after_ending i w Ht).
    rewrite (endExistingApprovalFlow_open i w H). cbn.
    rewrite <- !app_assoc. reflexivity.
  - intros i w H Ht. rewrite (startApprovalFlow_first i w Ht).
    unfold flows_match_shared in H. rewrite Ht in H. rewrite H. reflexivity.
  - intros i w.
    destruct (negb (shouldShowStatusPage i) || approvalFlowEnded i) eqn:G.
    + rewrite (onApproveOrReject_skips i w G). cbn.
      assert (G' : shouldShowStatusPage i && negb (approvalFlowEnded i) = false).
      { destruct (shouldShowStatusPage i), (approvalFlowEnded i);
          simpl in *; congruence. }
      rewrite G'. simpl. rewrite app_nil_r.
      split; [reflexivity |]. split; [reflexivity |].
      intros w2. apply onApproveOrReject_skips. exact G.
    + apply orb_false_iff in G. destruct G as [Gs Ge].
      apply negb_false_iff in Gs.
      rewrite (onApproveOrReject_acts i w Gs Ge). cbn.
      rewrite Gs, Ge. simpl.
      split; [reflexivity |]. split; [reflexivity |].
      intros w2. reflexivity.
Qed.

End ApprovalFlows.

Lemma at_most_one_approval_flow_witness :
  List.length
    (approvalFlows
       (shared
          (run sampleEnv
               [New (sampleRequest (Some simpleSend) None);
                StartApprovalFlow 0;
                New (sampleRequest (Some swap) None);
                StartApprovalFlowSettling 1 0;
                OnApproveOrReject 0;
                New (sampleRequest None None);
                StartApprovalFlow 2;
                OnApproveOrReject 2;
                OnApproveOrReject 1]
               initialSystem))) <= 1.
Proof.
  apply (at_most_one_approval_flow sampleEnv (fun n => eq_refl)).
Defined.

(** C3 as the specification words it does not hold, in two runs of two
    instances. In the first, another client of the ApprovalController
    starts a flow after the first instance has started its own: the
    ApprovalController refuses to end a flow that is not the one started
    last, [#startApprovalFlow] of the second instance logs the refusal and
    starts its flow all the same, and the flows of both instances are
    open. In the second, the two instances reach the [await] of
    [ApprovalController:startFlow] one after the other, before either has
    recorded its flow in the static field: neither finds a flow to end,
    and again both flows are open. *)
Lemma two_approval_flows_open :
  (let first := constructor sampleEnv (sampleRequest (Some simpleSend) None) in
   let second := constructor sampleEnv (sampleRequest (Some swap) None) in
   let started := startApprovalFlow sampleEnv first initialWorld in
   let foreign :=
     callStartFlow sampleEnv (instance_of started) (world_of started) in
   let restarted := startApprovalFlow sampleEnv second (world_of foreign) in
   approvalFlowId (instance_of started) = "f"
   /\ outcome_of foreign = Returned "f'"
   /\ approvalFlowId (instance_of restarted) = "f''"
   /\ approvalFlows (world_of restarted) = ["f"; "f'"; "f''"]
   /\ In (LogError "Error ending existing approval flow")
         (trace (world_of restarted)))
  /\ (let first := constructor sampleEnv (sampleRequest (Some simpleSend) None) in
      let second := constructor sampleEnv (sampleRequest (Some swap) None) in
      let first_begun := startApprovalFlow_begin sampleEnv first initialWorld in
      let second_begun :=
        startApprovalFlow_begin sampleEnv second (world_of first_begun) in
      let first_resumed :=
        startApprovalFlow_resume "f" (instance_of first_begun)
                                 (world_of second_begun) in
      let second_resumed :=
        startApprovalFlow_resume "f'" (instance_of second_begun)
                                 (world_of first_resumed) in
      outcome_of first_begun = Returned "f"
      /\ outcome_of second_begun = Returned "f'"
      /\ approvalFlowId (instance_of first_resumed) = "f"
      /\ approvalFlowId (instance_of second_resumed) = "f'"
      /\ approvalFlows (world_of second_resumed) = ["f"; "f'"]).
Proof.
  split; cbv zeta; repeat split. vm_compute. tauto.
Qed.

(** ** Signing one transaction per fee *)

Section Signing.

Variable env : Env.

(** C5. With no non-empty batch and no pre-signed transaction, one
    unsigned transaction is built for each fee of [tradeTxFees.fees]: it
    is [txParams] with [maxFeePerGas] and [maxPriorityFeePerGas] replaced
    by ["0x"] followed by the hexadecimal form of the fee's values, the
    same [gas], and the [chainId] of [txParams] or, when that is missing,
    the hook's. The list is handed once to
    [approveTransactionsWithSameNonce] (with [hasNonce: true]); what it
    returns, one signed transaction per fee when the controller signs each,
    is submitted to the relay with an empty [signedCanceledTransactions]. *)
Theorem signAndSubmitTransactions_one_transaction_per_fee
    (i : Instance) (w : World) (getFeesResponse : Fees) (signed : list string) :
  let feeList :=
    match tradeTxFees getFeesResponse with
    | Some t => fees t
    | None => []
    end in
  let unsigned :=
    map (fun fee =>
           {| tx_from := tx_from (txParams i);
              tx_to := tx_to (txParams i);
              tx_data := tx_data (txParams i);
              tx_value := tx_value (txParams i);
              tx_nonce := tx_nonce (txParams i);
              tx_gas := tx_gas (txParams i);
              tx_gasPrice := tx_gasPrice (txParams i);
              tx_maxFeePerGas :=
                Some ("0x" ++ decimalToHex env (fee_maxFeePerGas fee))%string;
              tx_maxPriorityFeePerGas :=
                Some ("0x" ++ decimalToHex env (fee_maxPriorityFeePerGas fee))%string;
              tx_chainId :=
                Some match tx_chainId (txParams i) with
                     | Some c => if truthy c then c else chainId i
                     | None => chainId i
                     end;
              tx_type := tx_type (txParams i) |})
        feeList in
  let request :=
    {| signedTransactions := signed;
       signedCanceledTransactions := [];
       sub_txParams := txParams i;
       sub_transactionMeta := transactionMeta i |} in
  match transactions i with
  | Some (_ :: _) => False
  | _ => True
  end ->
  truthy_opt (signedTransactionInHex i) = false ->
  truthy (chainId i) = true ->
  approveTransactionsWithSameNonce env unsigned = inr signed ->
  List.length unsigned = List.length feeList
  /\ (forall k fee, nth_error feeList k = Some fee ->
        nth_error unsigned k
        = Some (with_chainId
                  (Some (or_else (tx_chainId (txParams i)) (chainId i)))
                  (applyFeeToTransaction env i fee false)))
  /\ signAndSubmitTransactions env (Some getFeesResponse) i w
     = (match submitSignedTransactions env request with
        | inl e => Threw e
        | inr response => Returned response
        end,
        i,
        {| sharedApprovalFlowId := sharedApprovalFlowId w;
           approvalFlows := approvalFlows w;
           flowsStarted := flowsStarted w;
           trace :=
             trace w
             ++ [CallApproveTransactionsWithSameNonce unsigned true;
                 CallSubmitSignedTransactions request];
           pending := pending w |})
  /\ (List.length signed = List.length unsigned ->
      List.length (signedTransactions request) = List.length feeList).
Proof.
  intros feeList unsigned request Hbatch Hhex Hchain Hsigned.
  assert (U : transactionsWithChainId env i feeList false = unsigned).
  { unfold transactionsWithChainId, unsigned. rewrite map_map.
    apply map_ext. intros fee. reflexivity. }
  split; [unfold unsigned; apply length_map |].
  split.
  { intros k fee Hk. unfold unsigned. rewrite nth_error_map, Hk. reflexivity. }
  split.
  - unfold signAndSubmitTransactions, bind at 1, this at 1.
    assert (S : (match transactions i with
                 | Some ((_ :: _) as txs) =>
                     ret (map batch_signedTx
                            (filter (fun tx => truthy (batch_signedTx tx)) txs))
                 | _ =>
                     match signedTransactionInHex i with
                     | Some hex =>
                         if truthy hex then ret [hex]
                         else createSignedTransactions env feeList false
                     | None => createSignedTransactions env feeList false
                     end
                 end) i w
                = (Returned signed, i,
                   {| sharedApprovalFlowId := sharedApprovalFlowId w;
                      approvalFlows := approvalFlows w;
                      flowsStarted := flowsStarted w;
                      trace :=
                        trace w
                        ++ [CallApproveTransactionsWithSameNonce unsigned true];
                      pending := pending w |})).
    { assert (C : createSignedTransactions env feeList false i w
                  = (Returned signed, i,
                     {| sharedApprovalFlowId := sharedApprovalFlowId w;
                        approvalFlows := approvalFlows w;
                        flowsStarted := flowsStarted w;
                        trace :=
                          trace w
                          ++ [CallApproveTransactionsWithSameNonce unsigned true];
                        pending := pending w |})).
      { unfold createSignedTransactions, bind, this. rewrite Hchain. simpl.
        rewrite U. unfold emit. rewrite Hsigned. reflexivity. }
      destruct (transactions i) as [[| tx txs] |]; try contradiction;
        (destruct (signedTransactionInHex i) as [hex |];
         [simpl in Hhex; rewrite Hhex; exact C | exact C]). }
    unfold bind. fold feeList. rewrite S. unfold emit. cbn.
    fold request. rewrite <- app_assoc. cbn.
    destruct (submitSignedTransactions env request); reflexivity.
  - intros L. cbn. rewrite L. unfold unsigned. apply length_map.
Qed.

End Signing.

Lemma signAndSubmitTransactions_one_transaction_per_fee_witness :
  List.length
    (signedTransactions
       {| signedTransactions := ["0xsigned"; "0xsigned"];
          signedCanceledTransactions := [];
          sub_txParams := sampleTxParams;
          sub_transactionMeta := sampleMeta (Some simpleSend) |})
  = List.length
      match tradeTxFees sampleFees with
      | Some t => fees t
      | None => []
      end.
Proof.
  apply (proj2 (proj2 (proj2
    (signAndSubmitTransactions_one_transaction_per_fee sampleEnv
       (constructor sampleEnv (sampleRequest (Some simpleSend) None))
       initialWorld sampleFees ["0xsigned"; "0xsigned"]
       I eq_refl eq_refl eq_refl)))).
  reflexivity.
Defined.

(** ** What a run may call, with and without the status page *)

Section Within.

Variable env : Env.
Variable b : bool.
Variable t0 : list Effect.
























End Within.

(** ** [submit] and [submitBatch], part by part *)

Lemma submit_parts (env : Env) (i : Instance) (w : World) :
  negb (isSmartTransaction i)
  || isUnsupportedTransactionTypeForSmartTransaction i
  || isLegacyTransaction env (transactionMeta i) = false ->
  submit env i w
  = bind (when (shouldShowStatusPage i) (startApprovalFlow env))
         (fun _ => submit_fees env i) i w.
Proof.
  intros G. unfold submit, bind at 1, this at 1. rewrite G. reflexivity.
Qed.

Lemma submitBatch_parts (env : Env) (i : Instance) (w : World) :
  isSmartTransaction i = true ->
  submitBatch env i w
  = bind (when (shouldShowStatusPage i) (startApprovalFlow env))
         (fun _ => submitBatch_relay env) i w.
Proof.
  intros G. unfold submitBatch, bind at 1, this at 1. rewrite G. simpl.
  unfold submitBatch_relay, submitBatch_hash, submitBatch_catch, bind, try_catch.
  destruct (when (shouldShowStatusPage i) (startApprovalFlow env) i w)
    as [[[[] | e |] i1] w1]; try reflexivity.
  destruct (signAndSubmitTransactions env None i1 w1)
    as [[[r | e |] i2] w2]; try reflexivity.
  destruct (requireUuid r i2 w2) as [[[u | e |] i3] w3]; try reflexivity.
  destruct (processApprovalIfNeeded env u i3 w3)
    as [[[[] | e |] i4] w4]; try reflexivity.
  destruct (waitForTransactionHash u i4 w4)
    as [[[h | e |] i5] w5]; try reflexivity.
  destruct (requireHash h i5 w5) as [[[x | e |] i6] w6]; try reflexivity.
  destruct r as [[ru rh [hs |]] |]; reflexivity.
Qed.

(** ** The status page *)

Section StatusPage.

Variable env : Env.





End StatusPage.

(** ** Signing and submitting do not depend on the state *)

Section Relay.

Variable env : Env.

(** [#signAndSubmitTransactions] reads only fields the hook never
    changes: from any state it ends as from the first one, and it adds
    the same calls. *)
Lemma signAndSubmitTransactions_run (f : option Fees) (i i1 : Instance) (w1 : World) :
  transactions i1 = transactions i ->
  signedTransactionInHex i1 = signedTransactionInHex i ->
  chainId i1 = chainId i ->
  txParams i1 = txParams i ->
  transactionMeta i1 = transactionMeta i ->
  signAndSubmitTransactions env f i1 w1
  = (outcome_of (signAndSubmitTransactions env f i initialWorld),
     i1,
     log w1 (trace (world_of (signAndSubmitTransactions env f i initialWorld)))).
Proof.
  intros H1 H2 H3 H4 H5.
  destruct i as [e0 id0 c ff d sm m hexo txso p sh hs0],
           i1 as [e1 id1 c1 ff1 d1 sm1 m1 hexo1 txso1 p1 sh1 hs1].
  cbn in H1, H2, H3, H4, H5. subst txso1 hexo1 c1 p1 m1.
  unfold signAndSubmitTransactions, createSignedTransactions,
    transactionsWithChainId, applyFeeToTransaction, bind, this, emit, log,
    outcome_of, world_of.
  cbn.
  destruct txso as [[| tx txs] |];
    destruct hexo as [hex |];
    try destruct (truthy hex);
    destruct f as [response |];
    cbn;
    try destruct (truthy c);
    cbn;
    repeat match goal with
           | |- context [settle ?r] => destruct r; cbn
           end;
    rewrite <- ?app_assoc, ?app_nil_r; try reflexivity;
    destruct w1; reflexivity.
Qed.

(** What [#signAndSubmitTransactions] returns is what the relay has
    answered to its one submission, the last call it makes. *)
Lemma signAndSubmitTransactions_answer (fo : option Fees) (i : Instance)
    (w : World) (resp : option SubmitTransactionResponse) :
  outcome_of (signAndSubmitTransactions env fo i w) = Returned resp ->
  exists signing signed,
    trace (world_of (signAndSubmitTransactions env fo i w))
    = trace w ++ signing
      ++ [CallSubmitSignedTransactions
            {| signedTransactions := signed;
               signedCanceledTransactions := [];
               sub_txParams := txParams i;
               sub_transactionMeta := transactionMeta i |}]
    /\ submitSignedTransactions env
         {| signedTransactions := signed;
            signedCanceledTransactions := [];
            sub_txParams := txParams i;
            sub_transactionMeta := transactionMeta i |}
       = inr resp.
Proof.
  destruct i as [e0 id0 c ff d sm m hexo txso p sh hs0].
  unfold signAndSubmitTransactions, createSignedTransactions,
    transactionsWithChainId, applyFeeToTransaction, bind, this, emit, log,
    outcome_of, world_of.
  cbn.
  destruct txso as [[| tx txs] |];
    destruct hexo as [hex |];
    try destruct (truthy hex);
    destruct fo as [response |];
    cbn;
    try destruct (truthy c);
    cbn;
    repeat match goal with
           | |- context [settle ?r] =>
               let E := fresh "E" in destruct r eqn:E; cbn
           end;
    intros H; try discriminate H; injection H as <-.
  all: try (eexists [], _; split; [reflexivity | eassumption]).
  all: try (eexists [_], _; split; [rewrite <- app_assoc; reflexivity | eassumption]).
Qed.

End Relay.

(** ** Failures in [submit] *)

(** From here on the methods are unfolded by name only. *)
Arguments onApproveOrReject : simpl never.
Arguments waitForTransactionHash : simpl never.
Arguments signAndSubmitTransactions : simpl never.
Arguments startApprovalFlow : simpl never.
Arguments processApprovalIfNeeded : simpl never.
Arguments submit_catch : simpl never.
Arguments submit_hash : simpl never.
Arguments submit_relay : simpl never.
Arguments submit_fees : simpl never.
Arguments submitBatch_catch : simpl never.
Arguments submitBatch_hash : simpl never.
Arguments submitBatch_relay : simpl never.

Section Failures.

Variable env : Env.

Lemma submit_catch_rethrows (error : Error) (i : Instance) (w : World) :
  outcome_of (submit_catch error i w) = Threw error.
Proof.
  unfold submit_catch, bind, emit.
  match goal with |- context [onApproveOrReject ?j ?v] =>
    destruct (onApproveOrReject_returns j v) as (e & w' & T & E & _) end.
  rewrite E. reflexivity.
Qed.

(** The second [try] of [submit] ends as its body does: a returned hash is
    returned, an error is thrown again. *)
Lemma submit_relay_no_fallback (i0 : Instance) (f : Fees) (i : Instance) (w : World) :
  no_fallback (outcome_of (submit_relay env i0 f i w)).
Proof.
  assert (H : triple (fun _ _ => True) (submit_relay env i0 f)
                (fun o _ _ => no_fallback o)).
  { unfold submit_relay.
    apply (triple_try_catch _ _ _ (fun o _ _ => no_fallback o)).
    - apply (triple_bind _ _ _ (fun _ _ _ => True)); [intros ? ? ?; exact I | | |];
        try (intros; intros r Hr; discriminate).
      intros resp.
      apply (triple_bind _ _ _ (fun _ _ _ => True)); [intros ? ? ?; exact I | | |];
        try (intros; intros r Hr; discriminate).
      intros u.
      apply (triple_bind _ _ _ (fun _ _ _ => True)); [intros ? ? ?; exact I | | |];
        try (intros; intros r Hr; discriminate).
      intros _. unfold submit_hash.
      apply (triple_bind _ _ _ (fun _ _ _ => True)); [intros ? ? ?; exact I | | |];
        try (intros; intros r Hr; discriminate).
      intros th.
      apply (triple_bind _ _ _ (fun _ _ _ => True)); [intros ? ? ?; exact I | | |];
        try (intros; intros r Hr; discriminate).
      intros hash. apply triple_ret. intros _ _ _ r Hr.
      injection Hr as <-. exists hash. reflexivity.
    - intros e j v _. rewrite submit_catch_rethrows. intros r Hr. discriminate.
    - intros a j v H. exact H.
    - intros j v H. exact H. }
  exact (H i w I).
Qed.

Lemma submit_relay_rethrows (i0 : Instance) (f : Fees) (i1 : Instance) (w1 : World)
    (e : Error) :
  transactions i1 = transactions i0 ->
  signedTransactionInHex i1 = signedTransactionInHex i0 ->
  chainId i1 = chainId i0 ->
  txParams i1 = txParams i0 ->
  transactionMeta i1 = transactionMeta i0 ->
  outcome_of (signAndSubmitTransactions env (Some f) i0 initialWorld) = Threw e ->
  outcome_of (submit_relay env i0 f i1 w1) = Threw e.
Proof.
  intros H1 H2 H3 H4 H5 He. unfold submit_relay, try_catch, bind.
  rewrite (signAndSubmitTransactions_run env (Some f) i0 i1 w1 H1 H2 H3 H4 H5).
  rewrite He. apply submit_catch_rethrows.
Qed.

(** After [getFees] failed, [submit] falls back. *)
Lemma submit_fees_falls_back (i0 : Instance) (e : Error) (i1 : Instance) (w1 : World) :
  getFees env (with_chainId (Some (chainId i0)) (txParams i0)) = inl e ->
  exists T,
    outcome_of (submit_fees env i0 i1 w1) = Returned {| transactionHash := None |}
    /\ trace (world_of (submit_fees env i0 i1 w1))
       = trace w1
         ++ [CallGetFees (with_chainId (Some (chainId i0)) (txParams i0));
             LogError "Error in smart transaction publish hook, falling back to regular transaction submission"]
         ++ T
    /\ Forall (handler_effect (shouldShowStatusPage i1) false) T.
Proof.
  intros Hf. unfold submit_fees, bind, try_catch, emit. cbn. rewrite Hf. cbn.
  match goal with |- context [onApproveOrReject ?j ?v] =>
    destruct (onApproveOrReject_returns j v) as (c & w' & T & E & _ & Tr & F) end.
  rewrite E. cbn. exists T. split; [reflexivity |].
  split; [| exact F]. rewrite Tr. cbn. rewrite <- !app_assoc. reflexivity.
Qed.

(** After [getFees] answered, [submit] goes on to the relay. *)
Lemma submit_fees_goes_on (i0 : Instance) (f : Fees) (i1 : Instance) (w1 : World) :
  getFees env (with_chainId (Some (chainId i0)) (txParams i0)) = inr f ->
  submit_fees env i0 i1 w1
  = submit_relay env i0 f i1
      (log w1 [CallGetFees (with_chainId (Some (chainId i0)) (txParams i0))]).
Proof.
  intros Hf. unfold submit_fees, bind, try_catch, emit. cbn. rewrite Hf. reflexivity.
Qed.

(** The state in which [submit] asks for the fees. *)
Lemma submit_starts (i : Instance) (w : World) :
  negb (isSmartTransaction i)
  || isUnsupportedTransactionTypeForSmartTransaction i
  || isLegacyTransaction env (transactionMeta i) = false ->
  exists i1 w1 T,
    submit env i w = submit_fees env i i1 w1
    /\ transactions i1 = transactions i
    /\ signedTransactionInHex i1 = signedTransactionInHex i
    /\ chainId i1 = chainId i
    /\ txParams i1 = txParams i
    /\ transactionMeta i1 = transactionMeta i
    /\ isDapp i1 = isDapp i
    /\ shouldShowStatusPage i1 = shouldShowStatusPage i
    /\ approvalFlowEnded i1 = approvalFlowEnded i
    /\ handlers i1 = handlers i
    /\ pending w1 = pending w
    /\ trace w1 = trace w ++ T
    /\ steps T = (if shouldShowStatusPage i then [StartsApprovalFlow] else []).
Proof.
  intros G. rewrite (submit_parts env i w G). unfold bind.
  destruct (shouldShowStatusPage i) eqn:Hs; simpl.
  - destruct (startApprovalFlow_run env i w) as (w1 & T & E & P & _ & Tr & F).
    rewrite E. eexists; exists w1, (T ++ [CallStartFlow]).
    split; [reflexivity |]. cbn. rewrite Hs. repeat split; auto.
    unfold steps. rewrite flat_map_app. cbn.
    replace (flat_map step_of T) with (@nil Step); [reflexivity |].
    clear -F. induction F as [| x l Hx _ IH]; [reflexivity |].
    cbn. destruct x; try contradiction; exact IH.
  - exists i, w, []. rewrite app_nil_r. repeat split; auto.
Qed.

(** What [#onApproveOrReject] does, in one equation for both cases. *)
Lemma onApproveOrReject_ending (i : Instance) (w : World) :
  exists w',
    onApproveOrReject i w
    = (Returned tt,
       with_fields (approvalFlowEnded i || shouldShowStatusPage i)
                   (approvalFlowId i) (handlers i) i,
       w')
    /\ trace w' = trace w ++ ends_flow i (approvalFlowId i)
    /\ pending w' = pending w.
Proof.
  unfold ends_flow.
  destruct (shouldShowStatusPage i) eqn:Hs;
    [destruct (approvalFlowEnded i) eqn:He |].
  - rewrite onApproveOrReject_skips; [| rewrite Hs, He; reflexivity].
    exists w. cbn. rewrite app_nil_r. repeat split.
    destruct i; cbn in *; subst; reflexivity.
  - rewrite (onApproveOrReject_acts i w Hs He). eexists.
    split; [reflexivity |]. split; reflexivity.
  - rewrite onApproveOrReject_skips; [| rewrite Hs; reflexivity].
    exists w. cbn. rewrite app_nil_r, orb_false_r. repeat split.
    destruct i; cbn in *; subst; reflexivity.
Qed.

(** The state in which [submit] asks for the fees, with the id of the flow
    it has started. *)
Lemma submit_started (i : Instance) (w : World) :
  negb (isSmartTransaction i)
  || isUnsupportedTransactionTypeForSmartTransaction i
  || isLegacyTransaction env (transactionMeta i) = false ->
  exists i1 w1 started,
    submit env i w = submit_fees env i i1 w1
    /\ transactions i1 = transactions i
    /\ signedTransactionInHex i1 = signedTransactionInHex i
    /\ chainId i1 = chainId i
    /\ txParams i1 = txParams i
    /\ transactionMeta i1 = transactionMeta i
    /\ shouldShowStatusPage i1 = shouldShowStatusPage i
    /\ approvalFlowEnded i1 = approvalFlowEnded i
    /\ (shouldShowStatusPage i = true ->
        approvalFlowId i1 = startFlowId env (flowsStarted w))
    /\ trace w1 = trace w ++ started
    /\ steps started
       = (if shouldShowStatusPage i then [StartsApprovalFlow] else []).
Proof.
  intros G. rewrite (submit_parts env i w G). unfold bind.
  destruct (shouldShowStatusPage i) eqn:Hs; simpl.
  - destruct (startApprovalFlow_run env i w) as (w1 & T & E & P & _ & Tr & F).
    rewrite E. eexists; exists w1, (T ++ [CallStartFlow]).
    split; [reflexivity |]. cbn. rewrite Hs. repeat split; auto.
    unfold steps. rewrite flat_map_app. cbn.
    replace (flat_map step_of T) with (@nil Step); [reflexivity |].
    clear -F. induction F as [| x l Hx _ IH]; [reflexivity |].
    cbn. destruct x; try contradiction; exact IH.
  - exists i, w, []. rewrite app_nil_r. repeat split; auto. discriminate.
Qed.

(** The [catch] of the second [try]: the error is logged, the flow of the
    instance is ended, the error is thrown again. *)
Lemma submit_catch_logs_and_ends (error : Error) (i : Instance) (w : World) :
  exists i' w',
    submit_catch error i w = (Threw error, i', w')
    /\ approvalFlowEnded i' = approvalFlowEnded i || shouldShowStatusPage i
    /\ trace w'
       = trace w
         ++ [LogError "Error in smart transaction publish hook"]
         ++ ends_flow i (approvalFlowId i).
Proof.
  unfold submit_catch, bind, emit.
  match goal with |- context [onApproveOrReject ?j ?v] =>
    destruct (onApproveOrReject_ending j v) as (w' & E & Tr & _) end.
  rewrite E. eexists; exists w'. split; [reflexivity |].
  split; [reflexivity |]. rewrite Tr. cbn. rewrite <- app_assoc. reflexivity.
Qed.

(** C1, as the code has it. For a smart transaction of a supported type
    that is not legacy (any other is left to the regular submission before
    anything is tried), when [getFees] fails, [submit] falls back to a
    regular submission: it logs the error, ends the approval flow it has
    started (it calls [ApprovalController:endFlow] with the id of that flow
    and marks the flow as ended, when the status page is shown) and
    returns [{ transactionHash: undefined }]; these are its last calls.
    Once [getFees] has answered there is no fallback any more: [submit]
    returns a hash or does not return, and an error thrown while signing
    or submitting to the relay is logged, the approval flow is ended in
    the same way, and the error is thrown again by [submit]. *)
Theorem submit_falls_back_only_when_getFees_fails (i : Instance) (w : World) :
  negb (isSmartTransaction i)
  || isUnsupportedTransactionTypeForSmartTransaction i
  || isLegacyTransaction env (transactionMeta i) = false ->
  (forall e,
      getFees env (with_chainId (Some (chainId i)) (txParams i)) = inl e ->
      outcome_of (submit env i w) = Returned {| transactionHash := None |}
      /\ In (LogError "Error in smart transaction publish hook, falling back to regular transaction submission")
            (trace (world_of (submit env i w)))
      /\ (exists started,
            trace (world_of (submit env i w))
            = trace w ++ started
              ++ [CallGetFees (with_chainId (Some (chainId i)) (txParams i));
                  LogError "Error in smart transaction publish hook, falling back to regular transaction submission"]
              ++ ends_flow i (startFlowId env (flowsStarted w))
            /\ steps started
               = (if shouldShowStatusPage i then [StartsApprovalFlow] else []))
      /\ (shouldShowStatusPage i = true ->
          approvalFlowEnded (instance_of (submit env i w)) = true))
  /\ (forall f,
        getFees env (with_chainId (Some (chainId i)) (txParams i)) = inr f ->
        outcome_of (submit env i w) <> Returned {| transactionHash := None |}
        /\ forall e,
             outcome_of (signAndSubmitTransactions env (Some f) i w) = Threw e ->
             outcome_of (submit env i w) = Threw e
             /\ (exists started attempted,
                   trace (world_of (signAndSubmitTransactions env (Some f) i w))
                   = trace w ++ attempted
                   /\ trace (world_of (submit env i w))
                      = trace w ++ started
                        ++ [CallGetFees
                              (with_chainId (Some (chainId i)) (txParams i))]
                        ++ attempted
                        ++ [LogError "Error in smart transaction publish hook"]
                        ++ ends_flow i (startFlowId env (flowsStarted w))
                   /\ steps started
                      = (if shouldShowStatusPage i
                         then [StartsApprovalFlow] else []))
             /\ (shouldShowStatusPage i = true ->
                 approvalFlowEnded (instance_of (submit env i w)) = true)).
Proof.
  intros G.
  destruct (submit_started i w G)
    as (i1 & w1 & started & E & H1 & H2 & H3 & H4 & H5 & Hs1 & He1 & Hid
        & Tr1 & St1).
  assert (Hends : ends_flow i1 (approvalFlowId i1)
                  = ends_flow i (startFlowId env (flowsStarted w))).
  { unfold ends_flow. rewrite Hs1, He1.
    destruct (shouldShowStatusPage i) eqn:Hs; [| reflexivity].
    rewrite (Hid eq_refl). reflexivity. }
  rewrite E. split.
  - intros e Hf.
    assert (K : exists w',
               submit_fees env i i1 w1
               = (Returned {| transactionHash := None |},
                  with_fields (approvalFlowEnded i1 || shouldShowStatusPage i1)
                              (approvalFlowId i1) (handlers i1) i1,
                  w')
               /\ trace w'
                  = trace w1
                    ++ [CallGetFees (with_chainId (Some (chainId i)) (txParams i));
                        LogError "Error in smart transaction publish hook, falling back to regular transaction submission"]
                    ++ ends_flow i1 (approvalFlowId i1)).
    { unfold submit_fees, bind, try_catch, emit. cbn. rewrite Hf. cbn.
      match goal with |- context [onApproveOrReject ?j ?v] =>
        destruct (onApproveOrReject_ending j v) as (w' & Eo & Tr & _) end.
      rewrite Eo. cbn. exists w'. split; [reflexivity |].
      rewrite Tr. cbn. rewrite <- !app_assoc. reflexivity. }
    destruct K as (w' & K & Tr). rewrite K. cbn.
    split; [reflexivity |]. split; [| split].
    + rewrite Tr. apply in_or_app. right. apply in_or_app. left.
      right. left. reflexivity.
    + exists started. split; [| exact St1].
      rewrite Tr, Tr1, Hends, <- !app_assoc. reflexivity.
    + intros Hs. rewrite Hs1, Hs. apply orb_true_r.
  - intros f Hf. rewrite (submit_fees_goes_on i f i1 w1 Hf). split.
    + intros Ho.
      destruct (submit_relay_no_fallback i f i1 _ _ Ho) as (h & Hh).
      discriminate.
    + intros e He.
      assert (He0 : outcome_of (signAndSubmitTransactions env (Some f) i initialWorld)
                    = Threw e).
      { rewrite <- He.
        rewrite (signAndSubmitTransactions_run env (Some f) i i w); reflexivity. }
      unfold submit_relay, try_catch, bind.
      rewrite (signAndSubmitTransactions_run env (Some f) i i1 _ H1 H2 H3 H4 H5).
      rewrite He0.
      match goal with |- context [submit_catch e i1 ?v] =>
        destruct (submit_catch_logs_and_ends e i1 v) as (i2 & w2 & Ec & En & Tr2)
      end.
      rewrite Ec. cbn. split; [reflexivity |]. split.
      * exists started,
          (trace (world_of (signAndSubmitTransactions env (Some f) i initialWorld))).
        split; [| split; [| exact St1]].
        -- rewrite (signAndSubmitTransactions_run env (Some f) i i w);
             reflexivity.
        -- rewrite Tr2. cbn. rewrite Tr1, Hends, <- !app_assoc. reflexivity.
      * intros Hs. rewrite En, Hs1, Hs. apply orb_true_r.
Qed.

End Failures.

Lemma submit_falls_back_only_when_getFees_fails_witness :
  outcome_of
    (submit
       (sampleEnvWith (inl (ExternalError "fees unavailable"))
                      (fun txs => inr (map (fun _ => "0xsigned") txs))
                      (inr (Some sampleResponse)))
       (constructor sampleEnv (sampleRequest (Some simpleSend) None))
       initialWorld)
  = Returned {| transactionHash := None |}
  /\ outcome_of
       (submit
          (sampleEnvWith (inr sampleFees)
                         (fun txs => inr (map (fun _ => "0xsigned") txs))
                         (inl (ExternalError "relay unavailable")))
          (constructor sampleEnv (sampleRequest (Some simpleSend) None))
          initialWorld)
     = Threw (ExternalError "relay unavailable").
Proof.
  split.
  - apply (proj1
      (submit_falls_back_only_when_getFees_fails
         (sampleEnvWith (inl (ExternalError "fees unavailable"))
                        (fun txs => inr (map (fun _ => "0xsigned") txs))
                        (inr (Some sampleResponse)))
         (constructor sampleEnv (sampleRequest (Some simpleSend) None))
         initialWorld eq_refl)
      (ExternalError "fees unavailable") eq_refl).
  - apply (proj2
      (proj2
         (submit_falls_back_only_when_getFees_fails
            (sampleEnvWith (inr sampleFees)
                           (fun txs => inr (map (fun _ => "0xsigned") txs))
                           (inl (ExternalError "relay unavailable")))
            (constructor sampleEnv (sampleRequest (Some simpleSend) None))
            initialWorld eq_refl)
         sampleFees eq_refl)
      (ExternalError "relay unavailable") eq_refl).
Defined.

(** C1 as the specification words it does not hold: the relay refuses the
    signed transactions, and [submit] throws the relay's error instead of
    returning [{ transactionHash: undefined }]. *)
Lemma submit_throws_when_the_relay_fails :
  (forall r,
      submitSignedTransactions
        (sampleEnvWith (inr sampleFees)
                       (fun txs => inr (map (fun _ => "0xsigned") txs))
                       (inl (ExternalError "relay unavailable")))
        r
      = inl (ExternalError "relay unavailable"))
  /\ outcome_of
       (submitSmartTransactionHook
          (sampleEnvWith (inr sampleFees)
                         (fun txs => inr (map (fun _ => "0xsigned") txs))
                         (inl (ExternalError "relay unavailable")))
          (sampleRequest (Some simpleSend) None)
          initialWorld)
     = Threw (ExternalError "relay unavailable")
  /\ outcome_of
       (submitSmartTransactionHook
          (sampleEnvWith (inr sampleFees)
                         (fun txs => inr (map (fun _ => "0xsigned") txs))
                         (inl (ExternalError "relay unavailable")))
          (sampleRequest (Some simpleSend) None)
          initialWorld)
     <> Returned {| transactionHash := None |}.
Proof.
  split; [intros r; reflexivity |]. split; [reflexivity | discriminate].
Qed.

(** ** From the relay to the hash *)

Section Forward.

Variable env : Env.

(** What [#processApprovalIfNeeded] calls and registers. *)
Lemma processApprovalIfNeeded_run (u : string) (i : Instance) (w : World) :
  (forall r, addRequest env r = None) ->
  exists i' w' T,
    processApprovalIfNeeded env u i w = (Returned tt, i', w')
    /\ shouldShowStatusPage i' = shouldShowStatusPage i
    /\ approvalFlowEnded i' = approvalFlowEnded i
    /\ handlers i'
       = handlers i
         ++ (if shouldShowStatusPage i
             then [ApprovalSettled; UpdateStatusPage u] else [])
    /\ pending w' = pending w
    /\ trace w' = trace w ++ T
    /\ steps T
       = (if shouldShowStatusPage i
          then [CreatesApprovalRequest; RegistersStatusListener] else [])
    /\ (shouldShowStatusPage i = true -> In (Subscribe (UpdateStatusPage u)) T).
Proof.
  intros Hadd. unfold processApprovalIfNeeded, bind, this.
  destruct (shouldShowStatusPage i) eqn:Hs; simpl.
  - unfold addApprovalRequest, addListenerToUpdateStatusPage, register, bind,
      this, emit. cbn. rewrite Hadd. cbn.
    eexists; eexists; eexists. split; [reflexivity |]. cbn.
    rewrite <- !app_assoc. cbn. repeat split; auto.
    intros _. right. left. reflexivity.
  - exists i, w, []. rewrite !app_nil_r. repeat split; auto. discriminate.
Qed.

(** The [try] of [submit] and of [submitBatch] up to the hash, when the
    relay has answered with a uuid and the approval request was added:
    what is left is the rest [K] of the [try], from a state in which
    only the calls of signing, submitting and of the approval request have
    been added. *)
Lemma relay_reaches_hash {A : Type}
    (fo : option Fees)
    (K : option SubmitTransactionResponse -> string -> M A)
    (h : Error -> M A)
    (i0 i1 : Instance) (w1 : World)
    (resp : option SubmitTransactionResponse) (u : string) :
  transactions i1 = transactions i0 ->
  signedTransactionInHex i1 = signedTransactionInHex i0 ->
  chainId i1 = chainId i0 ->
  txParams i1 = txParams i0 ->
  transactionMeta i1 = transactionMeta i0 ->
  shouldShowStatusPage i1 = shouldShowStatusPage i0 ->
  outcome_of (signAndSubmitTransactions env fo i0 initialWorld) = Returned resp ->
  response_uuid resp = Some u ->
  truthy u = true ->
  (forall r, addRequest env r = None) ->
  exists i2 w2 T,
    try_catch
      (bind (signAndSubmitTransactions env fo)
            (fun r =>
               bind (requireUuid r)
                    (fun uuid =>
                       bind (processApprovalIfNeeded env uuid)
                            (fun _ => K r uuid))))
      h i1 w1
    = try_catch (K resp u) h i2 w2
    /\ shouldShowStatusPage i2 = shouldShowStatusPage i0
    /\ approvalFlowEnded i2 = approvalFlowEnded i1
    /\ handlers i2
       = handlers i1
         ++ (if shouldShowStatusPage i0
             then [ApprovalSettled; UpdateStatusPage u] else [])
    /\ pending w2 = pending w1
    /\ trace w2
       = trace w1
         ++ trace (world_of (signAndSubmitTransactions env fo i0 initialWorld))
         ++ T
    /\ steps T
       = (if shouldShowStatusPage i0
          then [CreatesApprovalRequest; RegistersStatusListener] else [])
    /\ (shouldShowStatusPage i0 = true -> In (Subscribe (UpdateStatusPage u)) T).
Proof.
  intros H1 H2 H3 H4 H5 Hs Ho Hu Ht Hadd.
  destruct (processApprovalIfNeeded_run u i1
              (log w1 (trace (world_of
                 (signAndSubmitTransactions env fo i0 initialWorld)))) Hadd)
    as (i2 & w2 & T & E & S2 & E2 & Hh & P2 & Tr & St & Hin).
  exists i2, w2, T.
  split.
  - unfold try_catch at 1. unfold bind at 1.
    rewrite (signAndSubmitTransactions_run env fo i0 i1 w1 H1 H2 H3 H4 H5).
    rewrite Ho. unfold bind at 1. unfold requireUuid. rewrite Hu, Ht.
    unfold ret at 1. unfold bind at 1. rewrite E. reflexivity.
  - rewrite Hs in *. repeat split; auto.
    rewrite Tr. cbn. rewrite <- app_assoc. reflexivity.
Qed.

End Forward.

(** ** Waiting for the hash *)

Lemma steps_of_handler_effects (show listener : bool) (T : list Effect) :
  Forall (handler_effect show listener) T -> steps T = [].
Proof.
  induction 1 as [| e T He _ IH]; [reflexivity |].
  unfold steps in *. cbn [flat_map]. rewrite IH.
  destruct e; simpl in He; try contradiction; reflexivity.
Qed.

Lemma steps_app (T1 T2 : list Effect) : steps (T1 ++ T2) = steps T1 ++ steps T2.
Proof. unfold steps. apply flat_map_app. Qed.

Lemma in_steps (e : Effect) (s : Step) (T : list Effect) :
  In e T -> In s (step_of e) -> In s (steps T).
Proof.
  intros He Hs. unfold steps. apply in_flat_map. exists e. auto.
Qed.

(** The first final event of the submitted transaction ends the wait. *)
Lemma waitForTransactionHash_resolves (u : string) (i : Instance) (w : World)
    (pre : list Stimulus) (st : SmartTransaction) (post : list Stimulus) :
  forallb (fun h => negb (is_WaitForHash h)) (handlers i) = true ->
  pending w = pre ++ Published st :: post ->
  forallb (fun s => negb (stimulus_qualifies u s)) pre = true ->
  qualifies u st = true ->
  exists i' w' T,
    waitForTransactionHash u i w = (Returned (resolvedHash st), i', w')
    /\ shouldShowStatusPage i' = shouldShowStatusPage i
    /\ pending w' = post
    /\ trace w' = trace w ++ Subscribe (WaitForHash u) :: T
    /\ steps T = [].
Proof.
  intros Hfresh Hp Hpre Hq. rewrite waitForTransactionHash_unfold.
  match goal with |- context [awaitTransactionHash ?ss ?j ?v] =>
    destruct (awaitTransactionHash_resolves ss j v pre (Published st) post
                (resolvedHash st))
      as (i' & w' & E & P & S & _ & _ & T & Tr & F) end.
  - exact Hp.
  - intros s' Hin. simpl. rewrite (firstResolution_waiting u _ s' Hfresh).
    apply resolution_not_qualifying.
    rewrite forallb_forall in Hpre. specialize (Hpre s' Hin).
    apply negb_true_iff in Hpre. exact Hpre.
  - simpl. rewrite (firstResolution_waiting u _ _ Hfresh). simpl.
    rewrite Hq. reflexivity.
  - exists i', w', T. split; [exact E |]. split; [exact S |].
    split; [exact P |]. simpl in Tr.
    split; [rewrite Tr, <- app_assoc; reflexivity |].
    eapply steps_of_handler_effects. exact F.
Qed.

Lemma no_wait_after_approval (u : string) (hs : list Handler) (show : bool) :
  forallb (fun h => negb (is_WaitForHash h)) hs = true ->
  forallb (fun h => negb (is_WaitForHash h))
          (hs ++ (if show then [ApprovalSettled; UpdateStatusPage u] else []))
  = true.
Proof.
  intros H. rewrite forallb_app, H. destruct show; reflexivity.
Qed.

(** ** [submitBatch] *)

Section Batch.

Variable env : Env.

(** The state in which a method goes on after the approval flow. *)
Lemma starts_then {A : Type} (rest : M A) (i : Instance) (w : World) :
  exists i1 w1 T,
    bind (when (shouldShowStatusPage i) (startApprovalFlow env))
         (fun _ => rest) i w
    = rest i1 w1
    /\ transactions i1 = transactions i
    /\ signedTransactionInHex i1 = signedTransactionInHex i
    /\ chainId i1 = chainId i
    /\ txParams i1 = txParams i
    /\ transactionMeta i1 = transactionMeta i
    /\ shouldShowStatusPage i1 = shouldShowStatusPage i
    /\ approvalFlowEnded i1 = approvalFlowEnded i
    /\ handlers i1 = handlers i
    /\ pending w1 = pending w
    /\ trace w1 = trace w ++ T
    /\ steps T = (if shouldShowStatusPage i then [StartsApprovalFlow] else []).
Proof.
  unfold bind.
  destruct (shouldShowStatusPage i) eqn:Hs; simpl.
  - destruct (startApprovalFlow_run env i w) as (w1 & T & E & P & _ & Tr & F).
    rewrite E. eexists; exists w1, (T ++ [CallStartFlow]).
    split; [reflexivity |]. cbn. rewrite Hs. repeat split; auto.
    rewrite steps_app. cbn.
    replace (steps T) with (@nil Step); [reflexivity |].
    clear -F. induction F as [| x l Hx _ IH]; [reflexivity |].
    unfold steps in *. cbn. destruct x; try contradiction; exact IH.
  - exists i, w, []. rewrite app_nil_r. repeat split; auto.
Qed.

(** Without fees, which is how [submitBatch] calls it,
    [#signAndSubmitTransactions] signs nothing: it submits the signed
    transactions of the batch or the pre-signed transaction, as they are. *)
Lemma signAndSubmitTransactions_without_fees (i : Instance) (w : World) :
  let request :=
    {| signedTransactions :=
         match transactions i with
         | Some (tx :: txs) =>
             map batch_signedTx
                 (filter (fun t => truthy (batch_signedTx t)) (tx :: txs))
         | _ =>
             match signedTransactionInHex i with
             | Some hex => if truthy hex then [hex] else []
             | None => []
             end
         end;
       signedCanceledTransactions := [];
       sub_txParams := txParams i;
       sub_transactionMeta := transactionMeta i |} in
  signAndSubmitTransactions env None i w
  = (match submitSignedTransactions env request with
     | inl e => Threw e
     | inr response => Returned response
     end,
     i,
     log w [CallSubmitSignedTransactions request]).
Proof.
  intros request. subst request.
  unfold signAndSubmitTransactions, bind, this, emit, log.
  destruct (transactions i) as [[| tx txs] |];
    try (destruct (signedTransactionInHex i) as [hex |];
         [cbn; destruct (truthy hex) |]);
    cbn;
    try (destruct (truthy (batch_signedTx tx)); cbn);
    match goal with |- context [settle ?r] => destruct r end; reflexivity.
Qed.

(** C7. [submitBatch] returns [undefined], and changes nothing, whenever
    [isSmartTransaction] is false. Otherwise it submits to the relay, once,
    the signed transactions it was given. When the relay has answered that
    submission with a uuid and the transaction hash has arrived, it returns
    an object whose [results] has one [{ transactionHash }] for each of the
    response's [txHashes], in their order, and is empty when the response
    has no [txHashes]. *)
Theorem submitBatch_results (i : Instance) (w : World) :
  let request :=
    {| signedTransactions :=
         match transactions i with
         | Some (tx :: txs) =>
             map batch_signedTx
                 (filter (fun t => truthy (batch_signedTx t)) (tx :: txs))
         | _ =>
             match signedTransactionInHex i with
             | Some hex => if truthy hex then [hex] else []
             | None => []
             end
         end;
       signedCanceledTransactions := [];
       sub_txParams := txParams i;
       sub_transactionMeta := transactionMeta i |} in
  (isSmartTransaction i = false ->
   submitBatch env i w = (Returned None, i, w))
  /\ (forall resp u pre smartTransaction post h,
        isSmartTransaction i = true ->
        forallb (fun h => negb (is_WaitForHash h)) (handlers i) = true ->
        submitSignedTransactions env request = inr resp ->
        response_uuid resp = Some u ->
        truthy u = true ->
        (forall r, addRequest env r = None) ->
        pending w = pre ++ Published smartTransaction :: post ->
        forallb (fun s => negb (stimulus_qualifies u s)) pre = true ->
        qualifies u smartTransaction = true ->
        resolvedHash smartTransaction = Some h ->
        outcome_of (submitBatch env i w)
        = Returned
            (Some
               {| results :=
                    match resp with
                    | Some r =>
                        match txHashes r with
                        | Some hashes =>
                            map (fun txHash =>
                                   {| transactionHash := Some txHash |})
                                hashes
                        | None => []
                        end
                    | None => []
                    end |})
        /\ exists started shown handled,
             trace (world_of (submitBatch env i w))
             = trace w ++ started
               ++ [CallSubmitSignedTransactions request]
               ++ shown
               ++ [Subscribe (WaitForHash u)]
               ++ handled
             /\ steps started
                = (if shouldShowStatusPage i then [StartsApprovalFlow] else [])
             /\ steps shown
                = (if shouldShowStatusPage i
                   then [CreatesApprovalRequest; RegistersStatusListener]
                   else [])
             /\ steps handled = []).
Proof.
  intros request. split.
  - intros G. unfold submitBatch, bind, this. rewrite G. reflexivity.
  - intros resp u pre st post h G Hfresh Hrelay Hu Ht Hadd Hp Hpre Hq Hh.
    pose proof (signAndSubmitTransactions_without_fees i initialWorld) as Hs.
    cbv zeta in Hs. fold request in Hs. rewrite Hrelay in Hs.
    rewrite (submitBatch_parts env i w G).
    destruct (starts_then (submitBatch_relay env) i w)
      as (i1 & w1 & T1 & E1 & H1 & H2 & H3 & H4 & H5 & S1 & _ & Hh1 & P1
          & Tr1 & St1).
    rewrite E1. unfold submitBatch_relay.
    assert (Ho' : outcome_of (signAndSubmitTransactions env None i initialWorld)
                  = Returned resp) by (rewrite Hs; reflexivity).
    destruct (relay_reaches_hash env None submitBatch_hash submitBatch_catch
                i i1 w1 resp u H1 H2 H3 H4 H5 S1 Ho' Hu Ht Hadd)
      as (i2 & w2 & T2 & E2 & S2 & _ & Hh2 & P2 & Tr2 & St2 & _).
    rewrite E2. rewrite Hs in Tr2. cbn [world_of snd trace log initialWorld app]
      in Tr2.
    destruct (waitForTransactionHash_resolves u i2 w2 pre st post)
      as (i3 & w3 & T3 & E3 & _ & _ & Tr3 & St3); auto.
    { rewrite Hh2, Hh1. apply no_wait_after_approval. exact Hfresh. }
    { congruence. }
    unfold try_catch, submitBatch_hash, bind. rewrite E3, Hh. cbn.
    split.
    + unfold submitBatchResponse.
      destruct resp as [[ru rh [hashes |]] |]; reflexivity.
    + exists T1, T2, T3.
      split; [| split; [exact St1 | split; [exact St2 | exact St3]]].
      rewrite Tr3, Tr2, Tr1, <- !app_assoc. reflexivity.
Qed.

End Batch.

Lemma submitBatch_results_witness :
  outcome_of
    (submitBatch sampleEnv
       (constructor sampleEnv (sampleBatchRequest (Some batch)))
       (worldWith [pendingEvent "uuid-1"; minedEvent "uuid-1" "0xmined"]))
  = Returned
      (Some {| results := [ {| transactionHash := Some "0xhash" |};
                            {| transactionHash := Some "0xhash2" |} ] |}).
Proof.
  exact (proj1
    (proj2
       (submitBatch_results sampleEnv
          (constructor sampleEnv (sampleBatchRequest (Some batch)))
          (worldWith [pendingEvent "uuid-1"; minedEvent "uuid-1" "0xmined"]))
       (Some sampleResponse) "uuid-1"
       [pendingEvent "uuid-1"]
       {| st_uuid := "uuid-1";
          st_status := Some SUCCESS;
          st_statusMetadata :=
            Some {| minedHash := "0xmined"; minedTx := "success" |} |}
       [] "0xmined"
       eq_refl eq_refl eq_refl eq_refl eq_refl (fun _ => eq_refl)
       eq_refl eq_refl eq_refl eq_refl)).
Defined.

(** A batch that goes through, on the concrete environment. *)
Example submitBatch_on_sample :
  outcome_of
    (submitBatchSmartTransactionHook sampleEnv
       (sampleRequest (Some batch) None)
       (worldWith [pendingEvent "uuid-1"; minedEvent "uuid-1" "0xmined"]))
  = Returned
      (Some {| results := [ {| transactionHash := Some "0xhash" |};
                            {| transactionHash := Some "0xhash2" |} ] |}).
Proof. reflexivity. Qed.

(** ** The order of the steps of [submit] *)

Section Order.

Variable env : Env.

(** When [#signAndSubmitTransactions] returns, it has signed if it had to
    and has submitted to the relay, in this order. *)
Lemma signAndSubmitTransactions_steps (f : Fees) (i : Instance)
    (resp : option SubmitTransactionResponse) :
  outcome_of (signAndSubmitTransactions env (Some f) i initialWorld)
  = Returned resp ->
  steps (trace (world_of (signAndSubmitTransactions env (Some f) i initialWorld)))
  = (if requiresSigning i then [SignsTransactions] else []) ++ [SubmitsToRelay].
Proof.
  destruct i as [e0 id0 c ff d sm m hexo txso p sh hs0].
  unfold signAndSubmitTransactions, createSignedTransactions,
    transactionsWithChainId, applyFeeToTransaction, bind, this, emit,
    outcome_of, world_of, requiresSigning.
  cbn.
  destruct txso as [[| tx txs] |];
    destruct hexo as [hex |];
    cbn;
    try destruct (truthy hex);
    cbn;
    try destruct (truthy c);
    cbn;
    repeat match goal with
           | |- context [settle ?r] => destruct r; cbn
           end;
    intros H; try discriminate H; reflexivity.
Qed.

(** [submit] up to the point where it asks for the hash. *)
Lemma submit_reaches_hash (i : Instance) (w : World) (f : Fees)
    (resp : option SubmitTransactionResponse) (u : string) :
  negb (isSmartTransaction i)
  || isUnsupportedTransactionTypeForSmartTransaction i
  || isLegacyTransaction env (transactionMeta i) = false ->
  getFees env (with_chainId (Some (chainId i)) (txParams i)) = inr f ->
  outcome_of (signAndSubmitTransactions env (Some f) i w) = Returned resp ->
  response_uuid resp = Some u ->
  truthy u = true ->
  (forall r, addRequest env r = None) ->
  exists i2 w2 T,
    submit env i w = try_catch (submit_hash i resp u) submit_catch i2 w2
    /\ shouldShowStatusPage i2 = shouldShowStatusPage i
    /\ handlers i2
       = handlers i
         ++ (if shouldShowStatusPage i
             then [ApprovalSettled; UpdateStatusPage u] else [])
    /\ pending w2 = pending w
    /\ trace w2 = trace w ++ T
    /\ steps T
       = (if shouldShowStatusPage i then [StartsApprovalFlow] else [])
         ++ [RetrievesFees]
         ++ (if requiresSigning i then [SignsTransactions] else [])
         ++ [SubmitsToRelay]
         ++ (if shouldShowStatusPage i
             then [CreatesApprovalRequest; RegistersStatusListener] else [])
    /\ (shouldShowStatusPage i = true -> In (Subscribe (UpdateStatusPage u)) T).
Proof.
  intros G Hf Ho Hu Ht Hadd.
  assert (Ho' : outcome_of (signAndSubmitTransactions env (Some f) i initialWorld)
                = Returned resp).
  { rewrite <- Ho.
    rewrite (signAndSubmitTransactions_run env (Some f) i i w); reflexivity. }
  destruct (submit_starts env i w G)
    as (i1 & w1 & T1 & E1 & H1 & H2 & H3 & H4 & H5 & _ & S1 & _ & Hh1 & P1
        & Tr1 & St1).
  rewrite E1, (submit_fees_goes_on env i f i1 w1 Hf). unfold submit_relay.
  destruct (relay_reaches_hash env (Some f) (submit_hash i) submit_catch
              i i1 (log w1 [CallGetFees (with_chainId (Some (chainId i)) (txParams i))])
              resp u H1 H2 H3 H4 H5 S1 Ho' Hu Ht Hadd)
    as (i2 & w2 & T2 & E2 & S2 & _ & Hh2 & P2 & Tr2 & St2 & Hin2).
  exists i2, w2.
  exists (T1 ++ [CallGetFees (with_chainId (Some (chainId i)) (txParams i))]
             ++ trace (world_of
                         (signAndSubmitTransactions env (Some f) i initialWorld))
             ++ T2).
  split; [exact E2 |]. split; [exact S2 |].
  split; [rewrite Hh2, Hh1; reflexivity |].
  split; [rewrite P2; exact P1 |].
  split; [| split].
  - rewrite Tr2. cbn. rewrite Tr1, <- !app_assoc. reflexivity.
  - rewrite !steps_app, St1, St2,
      (signAndSubmitTransactions_steps f i resp Ho').
    cbn. rewrite <- !app_assoc. reflexivity.
  - intros Hs. apply in_or_app. right. right.
    apply in_or_app. right. apply in_or_app. right. apply Hin2, Hs.
Qed.

(** With [extensionReturnTxHashAsap] and a [txHash] in the response, the
    hash is returned at once. *)
Lemma submit_hash_asap (i : Instance) (resp : option SubmitTransactionResponse)
    (u h : string) (i2 : Instance) (w2 : World) :
  response_txHash resp = Some h ->
  returnTxHashAsap i && truthy h = true ->
  try_catch (submit_hash i resp u) submit_catch i2 w2
  = (Returned {| transactionHash := Some h |}, i2, w2).
Proof.
  intros Hh Ha. unfold try_catch, submit_hash, bind. rewrite Hh, Ha. reflexivity.
Qed.

(** Otherwise the hash is waited for. *)
Lemma submit_hash_waits (i : Instance) (resp : option SubmitTransactionResponse)
    (u : string) :
  returnTxHashAsap i && truthy_opt (response_txHash resp) = false ->
  submit_hash i resp u
  = bind (waitForTransactionHash u)
         (fun transactionHash =>
            bind (requireHash transactionHash)
                 (fun hash => ret {| transactionHash := Some hash |})).
Proof.
  intros Ha. unfold submit_hash.
  destruct (response_txHash resp) as [h |]; [| reflexivity].
  simpl in Ha. rewrite Ha. reflexivity.
Qed.

(** C2, as the code has it. For a smart transaction of a supported type
    that is not a legacy one, when every step goes through, [submit]
    starts the approval flow (if the status page is shown), retrieves the
    fees, signs (if it has to) and submits to the relay, creates the
    approval request and registers the listener of the status page (if the
    status page is shown), then, unless [extensionReturnTxHashAsap] is set
    and the response carries a [txHash], waits for the hash through the
    status events, and returns the hash: the [txHash] of the response in
    the one case, the [minedHash] of the first final event in the other. *)
Theorem submit_steps_in_order (i : Instance) (w : World) (f : Fees)
    (resp : option SubmitTransactionResponse) (u h : string) :
  negb (isSmartTransaction i)
  || isUnsupportedTransactionTypeForSmartTransaction i
  || isLegacyTransaction env (transactionMeta i) = false ->
  forallb (fun x => negb (is_WaitForHash x)) (handlers i) = true ->
  getFees env (with_chainId (Some (chainId i)) (txParams i)) = inr f ->
  outcome_of (signAndSubmitTransactions env (Some f) i w) = Returned resp ->
  response_uuid resp = Some u ->
  truthy u = true ->
  (forall r, addRequest env r = None) ->
  (if returnTxHashAsap i && truthy_opt (response_txHash resp)
   then response_txHash resp = Some h
   else exists pre smartTransaction post,
          pending w = pre ++ Published smartTransaction :: post
          /\ forallb (fun s => negb (stimulus_qualifies u s)) pre = true
          /\ qualifies u smartTransaction = true
          /\ resolvedHash smartTransaction = Some h) ->
  exists T,
    outcome_of (submit env i w) = Returned {| transactionHash := Some h |}
    /\ trace (world_of (submit env i w)) = trace w ++ T
    /\ steps T
       = (if shouldShowStatusPage i then [StartsApprovalFlow] else [])
         ++ [RetrievesFees]
         ++ (if requiresSigning i then [SignsTransactions] else [])
         ++ [SubmitsToRelay]
         ++ (if shouldShowStatusPage i
             then [CreatesApprovalRequest; RegistersStatusListener] else [])
         ++ (if returnTxHashAsap i && truthy_opt (response_txHash resp)
             then [] else [WaitsForTransactionHash]).
Proof.
  intros G Hfresh Hf Ho Hu Ht Hadd Hhash.
  destruct (submit_reaches_hash i w f resp u G Hf Ho Hu Ht Hadd)
    as (i2 & w2 & T & E & S2 & Hh2 & P2 & Tr2 & St2 & _).
  rewrite E.
  destruct (returnTxHashAsap i && truthy_opt (response_txHash resp)) eqn:Ha.
  - rewrite Hhash in Ha. simpl in Ha.
    rewrite (submit_hash_asap i resp u h i2 w2 Hhash Ha).
    exists T. cbn. split; [reflexivity |]. split; [exact Tr2 |].
    rewrite St2, ?app_nil_r. reflexivity.
  - destruct Hhash as (pre & st & post & Hp & Hpre & Hq & Hres).
    rewrite (submit_hash_waits i resp u Ha).
    destruct (waitForTransactionHash_resolves u i2 w2 pre st post)
      as (i3 & w3 & T3 & E3 & _ & _ & Tr3 & St3); auto.
    { rewrite Hh2. apply no_wait_after_approval. exact Hfresh. }
    { congruence. }
    unfold try_catch, bind. rewrite E3, Hres. cbn.
    exists (T ++ Subscribe (WaitForHash u) :: T3).
    split; [reflexivity |].
    split; [rewrite Tr3, Tr2, <- app_assoc; reflexivity |].
    rewrite steps_app, St2.
    change (Subscribe (WaitForHash u) :: T3)
      with ([Subscribe (WaitForHash u)] ++ T3).
    rewrite steps_app, St3. cbn [steps flat_map step_of].
    rewrite <- ?app_assoc. reflexivity.
Qed.

End Order.

Lemma submit_steps_in_order_witness :
  exists T,
    outcome_of
      (submit sampleEnv
         (constructor sampleEnv (sampleRequest (Some simpleSend) None))
         (worldWith [pendingEvent "uuid-1"; minedEvent "uuid-1" "0xmined"]))
    = Returned {| transactionHash := Some "0xmined" |}
    /\ trace
         (world_of
            (submit sampleEnv
               (constructor sampleEnv (sampleRequest (Some simpleSend) None))
               (worldWith [pendingEvent "uuid-1"; minedEvent "uuid-1" "0xmined"])))
       = trace (worldWith [pendingEvent "uuid-1"; minedEvent "uuid-1" "0xmined"])
         ++ T
    /\ steps T
       = [StartsApprovalFlow; RetrievesFees; SignsTransactions; SubmitsToRelay;
          CreatesApprovalRequest; RegistersStatusListener;
          WaitsForTransactionHash].
Proof.
  apply (submit_steps_in_order sampleEnv
           (constructor sampleEnv (sampleRequest (Some simpleSend) None))
           (worldWith [pendingEvent "uuid-1"; minedEvent "uuid-1" "0xmined"])
           sampleFees (Some sampleResponse) "uuid-1" "0xmined"
           eq_refl eq_refl eq_refl eq_refl eq_refl eq_refl (fun _ => eq_refl)).
  simpl.
  exists [pendingEvent "uuid-1"],
         {| st_uuid := "uuid-1";
            st_status := Some SUCCESS;
            st_statusMetadata :=
              Some {| minedHash := "0xmined"; minedTx := "success" |} |},
         [].
  repeat split.
Defined.

(** C2 as the specification words it does not hold: with
    [extensionReturnTxHashAsap] set and a [txHash] in the relay's response,
    [submit] returns that [txHash] without waiting for a status event; the
    event that carries the mined hash is not even looked at. *)
Lemma submit_returns_without_waiting :
  outcome_of
    (submitSmartTransactionHook sampleEnv
       (sampleRequest (Some simpleSend) (Some true))
       (worldWith [minedEvent "uuid-1" "0xmined"]))
  = Returned {| transactionHash := Some "0xhash" |}
  /\ ~ In WaitsForTransactionHash
          (steps
             (trace
                (world_of
                   (submitSmartTransactionHook sampleEnv
                      (sampleRequest (Some simpleSend) (Some true))
                      (worldWith [minedEvent "uuid-1" "0xmined"])))))
  /\ pending
       (world_of
          (submitSmartTransactionHook sampleEnv
             (sampleRequest (Some simpleSend) (Some true))
             (worldWith [minedEvent "uuid-1" "0xmined"])))
     = [minedEvent "uuid-1" "0xmined"].
Proof.
  split; [reflexivity |]. split; [| reflexivity].
  vm_compute. intros H.
  repeat (destruct H as [H | H]; [discriminate H |]). exact H.
Qed.

(** ** The hash at once, or awaited *)

Section Asap.

Variable env : Env.

Lemma submit_catch_run (error : Error) (i : Instance) (w : World) :
  exists i' w' T,
    submit_catch error i w = (Threw error, i', w')
    /\ trace w' = trace w ++ T.
Proof.
  unfold submit_catch, bind, emit.
  match goal with |- context [onApproveOrReject ?j ?v] =>
    destruct (onApproveOrReject_returns j v) as (e & w' & T & E & _ & Tr & _) end.
  rewrite E. eexists; eexists; eexists. split; [reflexivity |].
  rewrite Tr. cbn. rewrite <- app_assoc. reflexivity.
Qed.

(** C9, as the code has it. For a smart transaction of a supported type
    that is not legacy, on an instance that has no listener waiting for a
    hash yet (as every new instance), when the fees have been fetched, the
    relay has answered with a uuid and the ApprovalController adds
    approval requests without an error: if [extensionReturnTxHashAsap] is true and
    the response has a [txHash], [submit] returns that [txHash]; it does
    not subscribe to wait for the hash and takes no stimulus (the listener
    of the status page, when the status page is shown, is subscribed all
    the same); its calls are those of the phases up to the listener of the
    status page. If the flag is not true or the response has no [txHash],
    [submit] goes through the same phases, then subscribes and waits for
    the hash; it returns the hash the first final event resolves the wait
    with, and throws when that is [null]. The response is what the relay
    has answered to the one submission of the run. *)
Theorem submit_hash_at_once_or_awaited (i : Instance) (w : World) (f : Fees)
    (resp : option SubmitTransactionResponse) (u : string) :
  negb (isSmartTransaction i)
  || isUnsupportedTransactionTypeForSmartTransaction i
  || isLegacyTransaction env (transactionMeta i) = false ->
  forallb (fun x => negb (is_WaitForHash x)) (handlers i) = true ->
  getFees env (with_chainId (Some (chainId i)) (txParams i)) = inr f ->
  outcome_of (signAndSubmitTransactions env (Some f) i w) = Returned resp ->
  response_uuid resp = Some u ->
  truthy u = true ->
  (forall r, addRequest env r = None) ->
  (forall h,
      returnTxHashAsap i = true ->
      response_txHash resp = Some h ->
      truthy h = true ->
      exists T,
        outcome_of (submit env i w) = Returned {| transactionHash := Some h |}
        /\ trace (world_of (submit env i w)) = trace w ++ T
        /\ (forall u', ~ In (Subscribe (WaitForHash u')) T)
        /\ (shouldShowStatusPage i = true ->
            In (Subscribe (UpdateStatusPage u)) T)
        /\ pending (world_of (submit env i w)) = pending w
        /\ steps T
           = (if shouldShowStatusPage i then [StartsApprovalFlow] else [])
             ++ [RetrievesFees]
             ++ (if requiresSigning i then [SignsTransactions] else [])
             ++ [SubmitsToRelay]
             ++ (if shouldShowStatusPage i
                 then [CreatesApprovalRequest; RegistersStatusListener]
                 else []))
  /\ (returnTxHashAsap i && truthy_opt (response_txHash resp) = false ->
      (exists T,
          trace (world_of (submit env i w)) = trace w ++ T
          /\ In (Subscribe (WaitForHash u)) T
          /\ steps T
             = (if shouldShowStatusPage i then [StartsApprovalFlow] else [])
               ++ [RetrievesFees]
               ++ (if requiresSigning i then [SignsTransactions] else [])
               ++ [SubmitsToRelay]
               ++ (if shouldShowStatusPage i
                   then [CreatesApprovalRequest; RegistersStatusListener]
                   else [])
               ++ [WaitsForTransactionHash])
      /\ forall pre smartTransaction post,
           pending w = pre ++ Published smartTransaction :: post ->
           forallb (fun s => negb (stimulus_qualifies u s)) pre = true ->
           qualifies u smartTransaction = true ->
           outcome_of (submit env i w)
           = match resolvedHash smartTransaction with
             | Some h => Returned {| transactionHash := Some h |}
             | None =>
                 Threw (HookError
                          "Transaction does not have a transaction hash, there was a problem")
             end)
  /\ (exists signing signed,
        trace (world_of (signAndSubmitTransactions env (Some f) i w))
        = trace w ++ signing
          ++ [CallSubmitSignedTransactions
                {| signedTransactions := signed;
                   signedCanceledTransactions := [];
                   sub_txParams := txParams i;
                   sub_transactionMeta := transactionMeta i |}]
        /\ submitSignedTransactions env
             {| signedTransactions := signed;
                signedCanceledTransactions := [];
                sub_txParams := txParams i;
                sub_transactionMeta := transactionMeta i |}
           = inr resp).
Proof.
  intros G Hfresh Hf Ho Hu Ht Hadd.
  destruct (submit_reaches_hash env i w f resp u G Hf Ho Hu Ht Hadd)
    as (i2 & w2 & T & E & S2 & Hh2 & P2 & Tr2 & St2 & Hin2).
  rewrite E.
  split; [| split;
            [| exact (signAndSubmitTransactions_answer env (Some f) i w resp Ho)]].
  - intros h Ha Hh Hth.
    rewrite (submit_hash_asap i resp u h i2 w2 Hh);
      [| rewrite Ha, Hth; reflexivity].
    exists T. cbn. split; [reflexivity |]. split; [exact Tr2 |].
    split; [| split; [exact Hin2 | split; [exact P2 | exact St2]]].
    intros u' Hin.
    assert (Hs : In WaitsForTransactionHash (steps T)).
    { eapply in_steps; [exact Hin | left; reflexivity]. }
    rewrite St2 in Hs.
    destruct (shouldShowStatusPage i), (requiresSigning i); simpl in Hs;
      repeat (destruct Hs as [Hs | Hs]; [discriminate Hs |]); exact Hs.
  - intros Ha. rewrite (submit_hash_waits i resp u Ha). split.
    + destruct (waitForTransactionHash_run u i2 w2)
        as (o & i3 & w3 & T3 & E3 & N & _ & _ & Tr3 & F3).
      pose proof (steps_of_handler_effects _ _ _ F3) as St3.
      assert (Hsteps : forall T4,
                 steps T4 = [] ->
                 steps (T ++ (Subscribe (WaitForHash u) :: T3) ++ T4)
                 = ((if shouldShowStatusPage i then [StartsApprovalFlow] else [])
                    ++ [RetrievesFees]
                    ++ (if requiresSigning i then [SignsTransactions] else [])
                    ++ [SubmitsToRelay]
                    ++ (if shouldShowStatusPage i
                        then [CreatesApprovalRequest; RegistersStatusListener]
                        else [])
                    ++ [WaitsForTransactionHash])).
      { intros T4 St4.
        change (Subscribe (WaitForHash u) :: T3)
          with ([Subscribe (WaitForHash u)] ++ T3).
        rewrite !steps_app, St2, St3, St4.
        change (steps [Subscribe (WaitForHash u)]) with [WaitsForTransactionHash].
        rewrite !app_nil_r, <- !app_assoc. reflexivity. }
      unfold try_catch, bind. rewrite E3.
      destruct o as [[h |] | e |].
      * cbn. exists (T ++ (Subscribe (WaitForHash u) :: T3) ++ []).
        split; [rewrite Tr3, Tr2, app_nil_r, <- app_assoc; reflexivity |].
        split; [| apply Hsteps; reflexivity].
        apply in_or_app. right. left. reflexivity.
      * cbn.
        match goal with |- context [submit_catch ?err i3 w3] =>
          destruct (submit_catch_logs_and_ends err i3 w3)
            as (i4 & w4 & E4 & _ & Tr4) end.
        rewrite E4. cbn.
        exists (T ++ (Subscribe (WaitForHash u) :: T3)
                  ++ [LogError "Error in smart transaction publish hook"]
                  ++ ends_flow i3 (approvalFlowId i3)).
        split; [rewrite Tr4, Tr3, Tr2, <- !app_assoc; reflexivity |].
        split; [apply in_or_app; right; left; reflexivity |].
        apply Hsteps. unfold ends_flow.
        destruct (shouldShowStatusPage i3 && negb (approvalFlowEnded i3));
          reflexivity.
      * exfalso. exact (N e eq_refl).
      * cbn. exists (T ++ (Subscribe (WaitForHash u) :: T3) ++ []).
        split; [rewrite Tr3, Tr2, app_nil_r, <- app_assoc; reflexivity |].
        split; [| apply Hsteps; reflexivity].
        apply in_or_app. right. left. reflexivity.
    + intros pre st post Hp Hpre Hq.
      destruct (waitForTransactionHash_resolves u i2 w2 pre st post)
        as (i3 & w3 & T3 & E3 & _); auto.
      { rewrite Hh2. apply no_wait_after_approval. exact Hfresh. }
      { congruence. }
      unfold try_catch, bind. rewrite E3.
      destruct (resolvedHash st) as [h |]; cbn; [reflexivity |].
      apply submit_catch_rethrows.
Qed.

End Asap.

Lemma submit_hash_at_once_or_awaited_witness :
  exists T,
    outcome_of
      (submit sampleEnv
         (constructor sampleEnv (sampleRequest (Some simpleSend) (Some true)))
         (worldWith [minedEvent "uuid-1" "0xmined"]))
    = Returned {| transactionHash := Some "0xhash" |}
    /\ trace
         (world_of
            (submit sampleEnv
               (constructor sampleEnv (sampleRequest (Some simpleSend) (Some true)))
               (worldWith [minedEvent "uuid-1" "0xmined"])))
       = trace (worldWith [minedEvent "uuid-1" "0xmined"]) ++ T
    /\ (forall u', ~ In (Subscribe (WaitForHash u')) T)
    /\ (shouldShowStatusPage
          (constructor sampleEnv (sampleRequest (Some simpleSend) (Some true)))
        = true ->
        In (Subscribe (UpdateStatusPage "uuid-1")) T)
    /\ pending
         (world_of
            (submit sampleEnv
               (constructor sampleEnv (sampleRequest (Some simpleSend) (Some true)))
               (worldWith [minedEvent "uuid-1" "0xmined"])))
       = pending (worldWith [minedEvent "uuid-1" "0xmined"])
    /\ steps T
       = [StartsApprovalFlow; RetrievesFees; SignsTransactions; SubmitsToRelay;
          CreatesApprovalRequest; RegistersStatusListener].
Proof.
  apply (proj1
    (submit_hash_at_once_or_awaited sampleEnv
       (constructor sampleEnv (sampleRequest (Some simpleSend) (Some true)))
       (worldWith [minedEvent "uuid-1" "0xmined"])
       sampleFees (Some sampleResponse) "uuid-1"
       eq_refl eq_refl eq_refl eq_refl eq_refl eq_refl (fun _ => eq_refl))
    "0xhash" eq_refl eq_refl eq_refl).
Defined.

(** C9 as the specification words it does not hold. The flag is set and
    the response has a [txHash] in each of three runs. In the first
    [submit] returns the [txHash], but the status page is shown and its
    listener has subscribed to the status events. In the second the
    response has no uuid, and [submit] throws instead of returning the
    [txHash]. In the third the ApprovalController refuses the approval
    request, and [submit] throws its error. *)
Lemma submit_asap_subscribes_or_throws :
  returnTxHashAsap
    (constructor sampleEnv (sampleRequest (Some simpleSend) (Some true)))
  = true
  /\ txHash sampleResponse = Some "0xhash"
  /\ outcome_of
       (submitSmartTransactionHook sampleEnv
          (sampleRequest (Some simpleSend) (Some true))
          initialWorld)
     = Returned {| transactionHash := Some "0xhash" |}
  /\ In (Subscribe (UpdateStatusPage "uuid-1"))
        (trace
           (world_of
              (submitSmartTransactionHook sampleEnv
                 (sampleRequest (Some simpleSend) (Some true))
                 initialWorld)))
  /\ outcome_of
       (submitSmartTransactionHook
          (sampleEnvWith
             (inr sampleFees)
             (fun txs => inr (map (fun _ => "0xsigned") txs))
             (inr (Some {| uuid := None;
                           txHash := Some "0xhash";
                           txHashes := None |})))
          (sampleRequest (Some simpleSend) (Some true))
          initialWorld)
     = Threw (HookError "No smart transaction UUID")
  /\ outcome_of
       (submitSmartTransactionHook sampleEnvRefusingRequests
          (sampleRequest (Some simpleSend) (Some true))
          initialWorld)
     = Threw (ExternalError "request refused").
Proof.
  repeat split. vm_compute. tauto.
Qed.

(** ** The gas fee tokens of the modal *)

Lemma selected_iff (selectedGasFeeToken : option string) (address : string) :
  selected selectedGasFeeToken address = true
  <-> (exists s, selectedGasFeeToken = Some s
                 /\ toLowerCase s = toLowerCase address)
      \/ (truthy_opt selectedGasFeeToken = false
          /\ address = NATIVE_TOKEN_ADDRESS).
Proof.
  unfold selected. rewrite orb_true_iff, andb_true_iff, negb_true_iff.
  rewrite String.eqb_eq. split; (intros [H | H]; [left | right; exact H]).
  - destruct selectedGasFeeToken as [s |]; [| discriminate].
    exists s. split; [reflexivity | apply String.eqb_eq, H].
  - destruct H as (s & -> & H). apply String.eqb_eq, H.
Qed.

(** C10, as the code has it. The modal lists the native token address
    first and then the address of every gas fee token of the confirmation,
    in order. An item is selected exactly when its address equals
    [selectedGasFeeToken] up to the case of letters, or
    [selectedGasFeeToken] is missing (or empty) and the address is the
    native one. So with no [selectedGasFeeToken] the first item is
    selected, every selected item has the native address, and the first
    item is the only selected one when no gas fee token has the native
    address. *)
Theorem GasFeeTokenModal_items (currentConfirmation : Confirmation) :
  map item_tokenAddress (GasFeeTokenModal currentConfirmation)
  = NATIVE_TOKEN_ADDRESS
    :: match gasFeeTokens currentConfirmation with
       | Some tokens => map tokenAddress tokens
       | None => []
       end
  /\ (forall item,
        In item (GasFeeTokenModal currentConfirmation) ->
        isSelected item = true
        <-> (exists s, selectedGasFeeToken currentConfirmation = Some s
                       /\ toLowerCase s = toLowerCase (item_tokenAddress item))
            \/ (truthy_opt (selectedGasFeeToken currentConfirmation) = false
                /\ item_tokenAddress item = NATIVE_TOKEN_ADDRESS))
  /\ (selectedGasFeeToken currentConfirmation = None ->
      exists rest,
        GasFeeTokenModal currentConfirmation
        = {| key := NATIVE_TOKEN_ADDRESS;
             item_tokenAddress := NATIVE_TOKEN_ADDRESS;
             isSelected := true |} :: rest
        /\ (forall item,
              In item rest ->
              isSelected item = true ->
              item_tokenAddress item = NATIVE_TOKEN_ADDRESS)
        /\ ((forall token tokens,
                gasFeeTokens currentConfirmation = Some tokens ->
                In token tokens ->
                tokenAddress token <> NATIVE_TOKEN_ADDRESS) ->
            Forall (fun item => isSelected item = false) rest)).
Proof.
  split; [| split].
  - unfold GasFeeTokenModal, gasFeeTokenAddresses. rewrite map_map. cbn [map].
    f_equal. rewrite map_id. reflexivity.
  - intros item Hin. unfold GasFeeTokenModal in Hin. apply in_map_iff in Hin.
    destruct Hin as (address & <- & _). cbn [isSelected item_tokenAddress].
    apply selected_iff.
  - intros Hnone. unfold GasFeeTokenModal, gasFeeTokenAddresses.
    rewrite Hnone. cbn [map].
    eexists. split; [reflexivity |]. split.
    + intros item Hin Hsel. apply in_map_iff in Hin.
      destruct Hin as (address & <- & _). cbn in Hsel |- *.
      apply String.eqb_eq. exact Hsel.
    + intros Hfresh. apply Forall_forall. intros item Hin.
      apply in_map_iff in Hin. destruct Hin as (address & <- & Hin).
      cbn [isSelected]. unfold selected. cbn.
      apply String.eqb_neq.
      destruct (gasFeeTokens currentConfirmation) as [tokens |]; [| contradiction].
      apply in_map_iff in Hin. destruct Hin as (token & <- & Hin).
      exact (Hfresh token tokens eq_refl Hin).
Qed.

(** C10 as the specification words it does not hold: a gas fee token that
    has the native address is selected too when no [selectedGasFeeToken] is
    given, so two items are selected. *)
Lemma GasFeeTokenModal_selects_two_items :
  selectedGasFeeToken
    {| gasFeeTokens :=
         Some [ {| amount := "0x3e8"; balance := "0x929"; decimals := 18;
                   gas := "0x3"; maxFeePerGas := "0x4";
                   maxPriorityFeePerGas := "0x5";
                   rateWei := "0xde0b6b3a7640000"; recipient := "0x7";
                   symbol := "ETH";
                   tokenAddress := NATIVE_TOKEN_ADDRESS |} ];
       selectedGasFeeToken := None |}
  = None
  /\ map isSelected
         (GasFeeTokenModal
            {| gasFeeTokens :=
                 Some [ {| amount := "0x3e8"; balance := "0x929"; decimals := 18;
                           gas := "0x3"; maxFeePerGas := "0x4";
                           maxPriorityFeePerGas := "0x5";
                           rateWei := "0xde0b6b3a7640000"; recipient := "0x7";
                           symbol := "ETH";
                           tokenAddress := NATIVE_TOKEN_ADDRESS |} ];
               selectedGasFeeToken := None |})
     = [true; true].
Proof. split; reflexivity. Qed.

(** A gas fee token listed under the native address is the one
    [useGasFeeToken] finds for that address; the native token built from
    the transaction is only the fallback. *)
Example findGasFeeToken_prefers_the_listed_token (listed native : GasFeeToken) :
  tokenAddress listed = NATIVE_TOKEN_ADDRESS ->
  findGasFeeToken {| gasFeeTokens := Some [listed]; selectedGasFeeToken := None |}
                  native NATIVE_TOKEN_ADDRESS
  = Some listed.
Proof.
  intros H. unfold findGasFeeToken. cbn [gasFeeTokens find].
  rewrite H, String.eqb_refl. reflexivity.
Qed.

(** * Further properties of the hook *)

(** ** What is submitted without signing *)

Section SubmittedAsGiven.

Variable env : Env.

(** X1. A batch that is not empty is what [#signAndSubmitTransactions]
    submits: the [signedTx] of its transactions that have one, in their
    order. Neither a pre-signed transaction nor the fees are looked at, and
    the TransactionController is not asked to sign. *)
Theorem signAndSubmitTransactions_batch
    (getFeesResponse : option Fees) (i : Instance) (w : World)
    (tx : PublishBatchHookTransaction) (txs : list PublishBatchHookTransaction) :
  transactions i = Some (tx :: txs) ->
  let request :=
    {| signedTransactions :=
         map batch_signedTx
             (filter (fun t => truthy (batch_signedTx t)) (tx :: txs));
       signedCanceledTransactions := [];
       sub_txParams := txParams i;
       sub_transactionMeta := transactionMeta i |} in
  signAndSubmitTransactions env getFeesResponse i w
  = (match submitSignedTransactions env request with
     | inl e => Threw e
     | inr response => Returned response
     end,
     i,
     log w [CallSubmitSignedTransactions request]).
Proof.
  intros Ht request. subst request.
  unfold signAndSubmitTransactions, bind, this, emit, log. rewrite Ht. cbn.
  destruct (truthy (batch_signedTx tx)); cbn;
    match goal with |- context [settle ?r] => destruct r end; reflexivity.
Qed.

(** X2. With no batch (or an empty one) and a pre-signed transaction, that
    transaction alone is submitted, whatever the fees are; nothing is
    signed. *)
Theorem signAndSubmitTransactions_pre_signed
    (getFeesResponse : option Fees) (i : Instance) (w : World) (hex : string) :
  transactions i = None \/ transactions i = Some [] ->
  signedTransactionInHex i = Some hex ->
  hex <> "" ->
  let request :=
    {| signedTransactions := [hex];
       signedCanceledTransactions := [];
       sub_txParams := txParams i;
       sub_transactionMeta := transactionMeta i |} in
  signAndSubmitTransactions env getFeesResponse i w
  = (match submitSignedTransactions env request with
     | inl e => Threw e
     | inr response => Returned response
     end,
     i,
     log w [CallSubmitSignedTransactions request]).
Proof.
  intros Ht Hh Hne request.
  assert (Htr : truthy hex = true).
  { unfold truthy. apply negb_true_iff, String.eqb_neq, Hne. }
  subst request. unfold signAndSubmitTransactions, bind, this, emit, log.
  destruct Ht as [Ht | Ht]; rewrite Ht, Hh, Htr; cbn;
    match goal with |- context [settle ?r] => destruct r end; reflexivity.
Qed.

(** X3. With no batch, no pre-signed transaction and no fees, which is how
    [submitBatch] calls it, [#signAndSubmitTransactions] still goes to the
    relay: it submits an empty list of signed transactions. *)
Theorem signAndSubmitTransactions_nothing_to_submit (i : Instance) (w : World) :
  transactions i = None \/ transactions i = Some [] ->
  truthy_opt (signedTransactionInHex i) = false ->
  let request :=
    {| signedTransactions := [];
       signedCanceledTransactions := [];
       sub_txParams := txParams i;
       sub_transactionMeta := transactionMeta i |} in
  signAndSubmitTransactions env None i w
  = (match submitSignedTransactions env request with
     | inl e => Threw e
     | inr response => Returned response
     end,
     i,
     log w [CallSubmitSignedTransactions request]).
Proof.
  intros Ht Hh request.
  subst request. unfold signAndSubmitTransactions, bind, this, emit, log.
  destruct Ht as [Ht | Ht]; rewrite Ht;
    (destruct (signedTransactionInHex i) as [hex |];
     [simpl in Hh; rewrite Hh |]);
    cbn;
    match goal with |- context [settle ?r] => destruct r end; reflexivity.
Qed.

End SubmittedAsGiven.


Lemma signAndSubmitTransactions_batch_witness :
  signAndSubmitTransactions sampleEnv (Some sampleFees)
    (constructor sampleEnv (sampleBatchRequest (Some simpleSend))) initialWorld
  = (Returned (Some sampleResponse),
     constructor sampleEnv (sampleBatchRequest (Some simpleSend)),
     log initialWorld
         [CallSubmitSignedTransactions
            {| signedTransactions := ["0xs1"; "0xs3"];
               signedCanceledTransactions := [];
               sub_txParams := sampleTxParams;
               sub_transactionMeta := sampleMeta (Some simpleSend) |}]).
Proof.
  exact (signAndSubmitTransactions_batch sampleEnv (Some sampleFees)
           (constructor sampleEnv (sampleBatchRequest (Some simpleSend)))
           initialWorld _ _ eq_refl).
Defined.

Lemma signAndSubmitTransactions_pre_signed_witness :
  signAndSubmitTransactions sampleEnv (Some sampleFees)
    (constructor sampleEnv (samplePreSignedRequest "0xf86c")) initialWorld
  = (Returned (Some sampleResponse),
     constructor sampleEnv (samplePreSignedRequest "0xf86c"),
     log initialWorld
         [CallSubmitSignedTransactions
            {| signedTransactions := ["0xf86c"];
               signedCanceledTransactions := [];
               sub_txParams := sampleTxParams;
               sub_transactionMeta := sampleMeta (Some simpleSend) |}]).
Proof.
  refine (signAndSubmitTransactions_pre_signed sampleEnv (Some sampleFees)
            (constructor sampleEnv (samplePreSignedRequest "0xf86c"))
            initialWorld "0xf86c" (or_introl eq_refl) eq_refl _).
  discriminate.
Defined.

Lemma signAndSubmitTransactions_nothing_to_submit_witness :
  signAndSubmitTransactions sampleEnv None
    (constructor sampleEnv (sampleRequest (Some simpleSend) None)) initialWorld
  = (Returned (Some sampleResponse),
     constructor sampleEnv (sampleRequest (Some simpleSend) None),
     log initialWorld
         [CallSubmitSignedTransactions
            {| signedTransactions := [];
               signedCanceledTransactions := [];
               sub_txParams := sampleTxParams;
               sub_transactionMeta := sampleMeta (Some simpleSend) |}]).
Proof.
  exact (signAndSubmitTransactions_nothing_to_submit sampleEnv
           (constructor sampleEnv (sampleRequest (Some simpleSend) None))
           initialWorld (or_introl eq_refl) eq_refl).
Defined.

(** ** Errors before the hash is asked for *)

Section EarlyErrors.

Variable env : Env.

Lemma onApproveOrReject_ends (i : Instance) (w : World) :
  shouldShowStatusPage i = true ->
  approvalFlowEnded (instance_of (onApproveOrReject i w)) = true.
Proof.
  intros Hs. destruct (approvalFlowEnded i) eqn:He.
  - rewrite onApproveOrReject_skips; [exact He |]. rewrite He. apply orb_true_r.
  - rewrite (onApproveOrReject_acts i w Hs He). reflexivity.
Qed.






End EarlyErrors.





(** ** [submitBatch] waits for the hash *)

Section BatchWaits.

Variable env : Env.




End BatchWaits.


(** ** A failure leaves no approval flow open *)

Section OwnFlow.

Variable env : Env.

Lemma own_flow_emit (e : Effect) : preserves own_flow (emit e).
Proof. intros i w H. exact H. Qed.

Lemma own_flow_register (h : Handler) : preserves own_flow (register h).
Proof. intros i w H. exact H. Qed.

Lemma own_flow_set_handlers (hs : list Handler) :
  preserves own_flow (set_handlers hs).
Proof. intros i w H. exact H. Qed.

Lemma own_flow_set_pending (ss : list Stimulus) :
  preserves own_flow (set_pending ss).
Proof. intros i w H. exact H. Qed.

Lemma own_flow_stays_pending {A : Type} :
  preserves own_flow (fun i w => (@Pending A, i, w)).
Proof. intros i w H. exact H. Qed.

(** [#onApproveOrReject] ends the flow of the instance, if it has not been
    ended before. *)
Lemma own_flow_onApproveOrReject :
  triple own_flow onApproveOrReject
         (fun _ i w => shouldShowStatusPage i = true /\ flow_closed i w).
Proof.
  intros i w [Hs [(He & Hf & Hsh) | (He & Hf & Hsh)]].
  - rewrite (onApproveOrReject_acts i w Hs He).
    unfold outcome_of, instance_of, world_of, flow_closed. cbn.
    split; [exact Hs |]. split; [reflexivity |].
    rewrite Hf, Hsh. unfold flows_after_endFlow. cbn.
    rewrite String.eqb_refl. split; reflexivity.
  - rewrite onApproveOrReject_skips; [| rewrite He; apply orb_true_r].
    split; [exact Hs |]. split; [exact He |]. split; assumption.
Qed.

Lemma own_flow_kept_by_onApproveOrReject :
  preserves own_flow onApproveOrReject.
Proof.
  intros i w H. destruct (own_flow_onApproveOrReject i w H) as [Hs Hc].
  split; [exact Hs | right; exact Hc].
Qed.

Ltac flow_rules :=
  repeat first
    [ apply preserves_ret
    | apply preserves_throw
    | apply preserves_settle
    | apply preserves_this
    | apply preserves_world
    | apply own_flow_emit
    | apply own_flow_register
    | apply own_flow_set_handlers
    | apply own_flow_set_pending
    | apply own_flow_stays_pending
    | apply own_flow_kept_by_onApproveOrReject
    | assumption
    | match goal with
      | H : _ |- preserves _ _ => apply H
      | |- preserves _ (match ?x with _ => _ end) => destruct x
      end
    | apply preserves_when; intro
    | apply preserves_bind; [ | intro ]
    | apply preserves_try_catch; [ | intro ] ].

Lemma own_flow_runHandler (h : Handler) (s : Stimulus) :
  preserves own_flow (runHandler h s).
Proof.
  unfold runHandler, updateApprovalRequest. destruct h, s; flow_rules.
Qed.

Lemma own_flow_runHandlers (hs : list Handler) (s : Stimulus) :
  preserves own_flow (runHandlers hs s).
Proof.
  pose proof own_flow_runHandler.
  induction hs as [| h hs IH]; simpl; flow_rules.
Qed.

Lemma own_flow_dispatch (s : Stimulus) : preserves own_flow (dispatch s).
Proof.
  pose proof own_flow_runHandlers. unfold dispatch. flow_rules.
Qed.

Lemma own_flow_awaitTransactionHash (ss : list Stimulus) :
  preserves own_flow (awaitTransactionHash ss).
Proof.
  pose proof own_flow_dispatch.
  induction ss as [| s ss IH]; simpl; flow_rules.
Qed.

Lemma own_flow_waitForTransactionHash (u : string) :
  preserves own_flow (waitForTransactionHash u).
Proof.
  pose proof own_flow_awaitTransactionHash.
  unfold waitForTransactionHash. flow_rules.
Qed.

Lemma own_flow_signAndSubmitTransactions (getFeesResponse : option Fees) :
  preserves own_flow (signAndSubmitTransactions env getFeesResponse).
Proof.
  unfold signAndSubmitTransactions, createSignedTransactions. flow_rules.
Qed.

Lemma own_flow_processApprovalIfNeeded (u : string) :
  preserves own_flow (processApprovalIfNeeded env u).
Proof.
  unfold processApprovalIfNeeded, addApprovalRequest,
    addListenerToUpdateStatusPage.
  flow_rules.
Qed.

Lemma own_flow_requireUuid (r : option SubmitTransactionResponse) :
  preserves own_flow (requireUuid r).
Proof. unfold requireUuid. flow_rules. Qed.

Lemma own_flow_requireHash (h : option string) :
  preserves own_flow (requireHash h).
Proof. unfold requireHash. flow_rules. Qed.

Lemma own_flow_submit_hash (i0 : Instance)
    (r : option SubmitTransactionResponse) (u : string) :
  preserves own_flow (submit_hash i0 r u).
Proof.
  pose proof own_flow_waitForTransactionHash.
  pose proof own_flow_requireHash.
  unfold submit_hash.
  destruct (response_txHash r) as [h |];
    [destruct (returnTxHashAsap i0 && truthy h) |]; flow_rules.
Qed.

(** A [try] whose [catch] logs, calls [#onApproveOrReject] and throws
    again: when it throws, the flow has been ended. *)
Lemma own_flow_closed_by_catch {A : Type} (body : M A) (message : string) :
  preserves own_flow body ->
  triple own_flow
         (try_catch body
                    (fun error =>
                       bind (emit (LogError message))
                            (fun _ => bind onApproveOrReject
                                           (fun _ => throw error))))
         (fun o i w =>
            own_flow i w /\ forall e, o = Threw e -> flow_closed i w).
Proof.
  intros Hbody.
  apply (triple_try_catch _ _ _ (fun _ => own_flow)).
  - exact Hbody.
  - intros e i w H. unfold bind, emit.
    match goal with |- context [onApproveOrReject i ?v] =>
      pose proof (own_flow_onApproveOrReject i v H) as [Hs Hc];
      destruct (onApproveOrReject_returns i v) as (c & w' & T & E & _) end.
    rewrite E in *. unfold throw, outcome_of, instance_of, world_of in *.
    cbn in *.
    split; [split; [exact Hs | right; exact Hc] | intros _ _; exact Hc].
  - intros a i w H. split; [exact H | discriminate].
  - intros i w H. split; [exact H | discriminate].
Qed.

(** From a world in which the open flows are what the static field says,
    [#startApprovalFlow] leaves the flow of the instance as the one open
    flow. *)
Lemma startApprovalFlow_opens (i : Instance) (w : World) :
  flows_match_shared w ->
  shouldShowStatusPage i = true ->
  approvalFlowEnded i = false ->
  exists i1 w1,
    startApprovalFlow env i w = (Returned tt, i1, w1)
    /\ own_flow i1 w1.
Proof.
  intros H Hs He. unfold flows_match_shared in H.
  destruct (truthy (sharedApprovalFlowId w)) eqn:Ht.
  - rewrite (startApprovalFlow_after_ending env i w Ht).
    rewrite (endExistingApprovalFlow_open env i w H).
    eexists; eexists. split; [reflexivity |].
    split; [exact Hs |]. left. repeat split. exact He.
  - rewrite (startApprovalFlow_first env i w Ht).
    eexists; eexists. split; [reflexivity |].
    split; [exact Hs |]. left. unfold flow_open. cbn. rewrite H.
    repeat split. exact He.
Qed.

Lemma own_flow_submit_relay (i0 : Instance) (f : Fees) :
  triple own_flow (submit_relay env i0 f)
         (fun o i w => own_flow i w /\ forall e, o = Threw e -> flow_closed i w).
Proof.
  pose proof own_flow_signAndSubmitTransactions.
  pose proof own_flow_requireUuid.
  pose proof own_flow_processApprovalIfNeeded.
  pose proof own_flow_submit_hash.
  unfold submit_relay, submit_catch.
  apply own_flow_closed_by_catch. flow_rules.
Qed.

Lemma own_flow_submitBatch_relay :
  triple own_flow (submitBatch_relay env)
         (fun o i w => own_flow i w /\ forall e, o = Threw e -> flow_closed i w).
Proof.
  pose proof own_flow_signAndSubmitTransactions.
  pose proof own_flow_requireUuid.
  pose proof own_flow_processApprovalIfNeeded.
  pose proof own_flow_waitForTransactionHash.
  pose proof own_flow_requireHash.
  unfold submitBatch_relay, submitBatch_catch, submitBatch_hash.
  apply own_flow_closed_by_catch. flow_rules.
Qed.

Lemma own_flow_submit_fees (i0 : Instance) :
  triple own_flow (submit_fees env i0)
         (fun o i w =>
            own_flow i w
            /\ ((exists e, o = Threw e)
                \/ o = Returned {| transactionHash := None |} ->
                flow_closed i w)).
Proof.
  intros i w H. unfold submit_fees, bind at 1, try_catch, bind, emit.
  cbn [fst snd].
  destruct (getFees env (with_chainId (Some (chainId i0)) (txParams i0)))
    as [e | f] eqn:Hf; cbn.
  - match goal with |- context [onApproveOrReject i ?v] =>
      pose proof (own_flow_onApproveOrReject i v H) as [Hs Hc];
      destruct (onApproveOrReject_returns i v) as (c & w' & T & E & _) end.
    rewrite E in *. unfold outcome_of, instance_of, world_of in *. cbn in *.
    split; [split; [exact Hs | right; exact Hc] | intros _; exact Hc].
  - match goal with |- context [submit_relay env i0 f i ?v] =>
      pose proof (own_flow_submit_relay i0 f i v H) as [Ho Hc];
      pose proof (submit_relay_no_fallback env i0 f i v) as Hn end.
    split; [exact Ho |]. intros [[e He] | Hr].
    + exact (Hc e He).
    + destruct (Hn _ Hr) as (h & Hh). discriminate Hh.
Qed.

(** X8. A run of the exported [submitSmartTransactionHook] that shows the
    status page leaves at most its own approval flow open, and none when
    it fails: if it throws, or falls back to a regular submission because
    the fees could not be fetched, the flow it started has been ended, no
    flow is open and the static field is cleared. The world it starts
    from is one in which the open flows are what the static field says. *)
Theorem submitSmartTransactionHook_failure_ends_the_flow
    (request : SubmitSmartTransactionRequest) (w : World) :
  flows_match_shared w ->
  negb (req_isSmartTransaction request)
  || isUnsupportedTransactionTypeForSmartTransaction (constructor env request)
  || isLegacyTransaction env (req_transactionMeta request) = false ->
  shouldShowStatusPage (constructor env request) = true ->
  own_flow (instance_of (submitSmartTransactionHook env request w))
           (world_of (submitSmartTransactionHook env request w))
  /\ ((exists e,
          outcome_of (submitSmartTransactionHook env request w) = Threw e)
      \/ outcome_of (submitSmartTransactionHook env request w)
         = Returned {| transactionHash := None |} ->
      flow_closed (instance_of (submitSmartTransactionHook env request w))
                  (world_of (submitSmartTransactionHook env request w))).
Proof.
  intros H G Hs. unfold submitSmartTransactionHook.
  rewrite (submit_parts env (constructor env request) w G).
  destruct (startApprovalFlow_opens (constructor env request) w H Hs eq_refl)
    as (i1 & w1 & E & Ho).
  replace (bind (when (shouldShowStatusPage (constructor env request))
                      (startApprovalFlow env))
                (fun _ => submit_fees env (constructor env request))
                (constructor env request) w)
    with (submit_fees env (constructor env request) i1 w1)
    by (unfold bind; rewrite Hs; unfold when; rewrite E; reflexivity).
  exact (own_flow_submit_fees (constructor env request) i1 w1 Ho).
Qed.

(** X9. Likewise for the exported [submitBatchSmartTransactionHook]: a run
    that shows the status page leaves at most its own approval flow open,
    and when it throws the flow has been ended, no flow is open and the
    static field is cleared. *)
Theorem submitBatchSmartTransactionHook_failure_ends_the_flow
    (request : SubmitSmartTransactionRequest) (w : World) :
  flows_match_shared w ->
  req_isSmartTransaction request = true ->
  shouldShowStatusPage (constructor env request) = true ->
  own_flow (instance_of (submitBatchSmartTransactionHook env request w))
           (world_of (submitBatchSmartTransactionHook env request w))
  /\ (forall e,
        outcome_of (submitBatchSmartTransactionHook env request w) = Threw e ->
        flow_closed (instance_of (submitBatchSmartTransactionHook env request w))
                    (world_of (submitBatchSmartTransactionHook env request w))).
Proof.
  intros H G Hs. unfold submitBatchSmartTransactionHook.
  rewrite (submitBatch_parts env (constructor env request) w G).
  destruct (startApprovalFlow_opens (constructor env request) w H Hs eq_refl)
    as (i1 & w1 & E & Ho).
  replace (bind (when (shouldShowStatusPage (constructor env request))
                      (startApprovalFlow env))
                (fun _ => submitBatch_relay env)
                (constructor env request) w)
    with (submitBatch_relay env i1 w1)
    by (unfold bind; rewrite Hs; unfold when; rewrite E; reflexivity).
  exact (own_flow_submitBatch_relay i1 w1 Ho).
Qed.

End OwnFlow.

Lemma submitSmartTransactionHook_failure_ends_the_flow_witness :
  flow_closed
    (instance_of
       (submitSmartTransactionHook
          (sampleEnvWith (inr sampleFees)
                         (fun _ => inl (ExternalError "user rejected"))
                         (inr (Some sampleResponse)))
          (sampleRequest (Some simpleSend) None) initialWorld))
    (world_of
       (submitSmartTransactionHook
          (sampleEnvWith (inr sampleFees)
                         (fun _ => inl (ExternalError "user rejected"))
                         (inr (Some sampleResponse)))
          (sampleRequest (Some simpleSend) None) initialWorld)).
Proof.
  apply (proj2
    (submitSmartTransactionHook_failure_ends_the_flow
       (sampleEnvWith (inr sampleFees)
                      (fun _ => inl (ExternalError "user rejected"))
                      (inr (Some sampleResponse)))
       (sampleRequest (Some simpleSend) None) initialWorld
       eq_refl eq_refl eq_refl)).
  left. exists (ExternalError "user rejected"). reflexivity.
Defined.

Lemma submitBatchSmartTransactionHook_failure_ends_the_flow_witness :
  flow_closed
    (instance_of
       (submitBatchSmartTransactionHook
          (sampleEnvWith (inr sampleFees)
                         (fun txs => inr (map (fun _ => "0xsigned") txs))
                         (inl (ExternalError "relay down")))
          (sampleBatchRequest (Some batch)) initialWorld))
    (world_of
       (submitBatchSmartTransactionHook
          (sampleEnvWith (inr sampleFees)
                         (fun txs => inr (map (fun _ => "0xsigned") txs))
                         (inl (ExternalError "relay down")))
          (sampleBatchRequest (Some batch)) initialWorld)).
Proof.
  apply (proj2
    (submitBatchSmartTransactionHook_failure_ends_the_flow
       (sampleEnvWith (inr sampleFees)
                      (fun txs => inr (map (fun _ => "0xsigned") txs))
                      (inl (ExternalError "relay down")))
       (sampleBatchRequest (Some batch)) initialWorld
       eq_refl eq_refl eq_refl)
    (ExternalError "relay down")).
  reflexivity.
Defined.

(** ** The phases of every run *)

Lemma StronglySorted_lt_app (l1 l2 : list nat) (k : nat) :
  StronglySorted lt l1 ->
  StronglySorted lt l2 ->
  Forall (fun n => n < k) l1 ->
  Forall (fun n => k <= n) l2 ->
  StronglySorted lt (l1 ++ l2).
Proof.
  intros S1 S2 F1 F2. induction l1 as [| a l1 IH]; simpl; [exact S2 |].
  inversion S1 as [| a' l' Sl Fa]; subst.
  inversion F1 as [| a' l' Ha Fl]; subst.
  constructor; [apply IH; assumption |].
  apply Forall_app. split; [exact Fa |].
  eapply Forall_impl; [| exact F2]. intros n Hn. simpl in Hn. lia.
Qed.

Section Phases.

Variable env : Env.
Variable t0 : list Effect.

Lemma in_order_extend (k k' : nat) (i i' : Instance) (w w' : World)
    (T : list Effect) :
  in_order k t0 i w ->
  trace w' = trace w ++ T ->
  ordered T ->
  Forall (fun n => k <= n < k') (map rank (steps T)) ->
  k <= k' ->
  in_order k' t0 i' w'.
Proof.
  intros (T1 & Tr1 & S1 & F1) Tr S F Hk.
  exists (T1 ++ T). split; [rewrite Tr, Tr1, app_assoc; reflexivity |].
  unfold ordered in *. rewrite steps_app, map_app. split.
  - apply (StronglySorted_lt_app _ _ k); auto.
    eapply Forall_impl; [| exact F]. intros n Hn. simpl in Hn. lia.
  - apply Forall_app. split.
    + eapply Forall_impl; [| exact F1]. intros n Hn. simpl in Hn. lia.
    + eapply Forall_impl; [| exact F]. intros n Hn. simpl in Hn. lia.
Qed.

Lemma staged_of_adds {A : Type} (k k' : nat) (m : M A) :
  adds k k' m -> k <= k' -> staged t0 k k' m.
Proof.
  intros H Hk i w HI. destruct (H i w) as (T & Tr & S & F).
  exact (in_order_extend k k' i _ w _ T HI Tr S F Hk).
Qed.

Lemma staged_weaken {A : Type} (j j' k k' : nat) (m : M A) :
  staged t0 k k' m -> j <= k -> k' <= j' -> staged t0 j j' m.
Proof.
  intros H H1 H2 i w (T & Tr & S & F).
  destruct (H i w) as (T' & Tr' & S' & F').
  - exists T. split; [exact Tr |]. split; [exact S |].
    eapply Forall_impl; [| exact F]. intros n Hn. simpl in Hn. lia.
  - exists T'. split; [exact Tr' |]. split; [exact S' |].
    eapply Forall_impl; [| exact F']. intros n Hn. simpl in Hn. lia.
Qed.

Lemma in_order_weaken (k k' : nat) (i : Instance) (w : World) :
  k <= k' -> in_order k t0 i w -> in_order k' t0 i w.
Proof.
  intros Hk (T & Tr & S & F). exists T. split; [exact Tr |].
  split; [exact S |].
  eapply Forall_impl; [| exact F]. intros n Hn. simpl in Hn. lia.
Qed.

Lemma staged_bind {A B : Type} (k k1 k2 : nat) (m : M A) (f : A -> M B) :
  staged t0 k k1 m ->
  (forall a, staged t0 k1 k2 (f a)) ->
  k1 <= k2 ->
  staged t0 k k2 (bind m f).
Proof.
  intros Hm Hf Hk.
  apply (triple_bind _ _ _ (fun _ => in_order k1 t0)).
  - exact Hm.
  - exact Hf.
  - intros e i w. apply in_order_weaken, Hk.
  - intros i w. apply in_order_weaken, Hk.
Qed.

Lemma staged_try_catch {A : Type} (k k1 k2 : nat) (m : M A) (h : Error -> M A) :
  staged t0 k k1 m ->
  (forall e, staged t0 k1 k2 (h e)) ->
  k1 <= k2 ->
  staged t0 k k2 (try_catch m h).
Proof.
  intros Hm Hh Hk.
  apply (triple_try_catch _ _ _ (fun _ => in_order k1 t0)).
  - exact Hm.
  - exact Hh.
  - intros a i w. apply in_order_weaken, Hk.
  - intros i w. apply in_order_weaken, Hk.
Qed.

Lemma staged_ret {A : Type} (k : nat) (a : A) : staged t0 k k (ret a).
Proof. intros i w H. exact H. Qed.

Lemma staged_throw {A : Type} (k : nat) (e : Error) : staged t0 k k (@throw A e).
Proof. intros i w H. exact H. Qed.

(** A method that goes through no phase. *)
Lemma staged_quiet {A : Type} (k : nat) (m : M A) :
  (forall i w, exists T,
      trace (world_of (m i w)) = trace w ++ T /\ steps T = []) ->
  staged t0 k k m.
Proof.
  intros H. apply staged_of_adds; [| lia].
  intros i w. destruct (H i w) as (T & Tr & St).
  exists T. split; [exact Tr |]. unfold ordered. rewrite St.
  split; constructor.
Qed.

Lemma adds_startApprovalFlow :
  adds 0 1 (when true (startApprovalFlow env)).
Proof.
  intros i w. simpl.
  destruct (startApprovalFlow_run env i w) as (w1 & T & E & _ & _ & Tr & F).
  rewrite E. exists (T ++ [CallStartFlow]). split; [exact Tr |].
  assert (St : steps T = []).
  { clear -F. induction F as [| x l Hx _ IH]; [reflexivity |].
    unfold steps in *. cbn. destruct x; try contradiction; exact IH. }
  unfold ordered. rewrite steps_app, St. cbn. split; repeat constructor.
Qed.

Lemma adds_signAndSubmitTransactions (fo : option Fees) :
  adds 2 4 (signAndSubmitTransactions env fo).
Proof.
  intros i w.
  rewrite (signAndSubmitTransactions_run env fo i i w); try reflexivity.
  eexists. split; [reflexivity |].
  destruct i as [e0 id0 c ff d sm m hexo txso p sh hs0].
  unfold ordered, signAndSubmitTransactions, createSignedTransactions,
    transactionsWithChainId, applyFeeToTransaction, bind, this, emit,
    outcome_of, world_of.
  cbn.
  destruct txso as [[| tx txs] |];
    destruct hexo as [hex |];
    try destruct (truthy hex);
    destruct fo as [response |];
    cbn;
    try destruct (truthy c);
    cbn;
    repeat match goal with
           | |- context [settle ?r] => destruct r; cbn
           end;
    split; repeat constructor.
Qed.

Lemma adds_processApprovalIfNeeded (u : string) :
  adds 4 6 (processApprovalIfNeeded env u).
Proof.
  intros i w.
  unfold processApprovalIfNeeded, addApprovalRequest,
    addListenerToUpdateStatusPage, register, set_handlers, bind, this, emit,
    when, ordered, world_of.
  destruct (shouldShowStatusPage i); cbn.
  - match goal with |- context [addRequest env ?r] =>
      destruct (addRequest env r); cbn;
        [exists [CallAddRequest r true]
        | exists [CallAddRequest r true; Subscribe (UpdateStatusPage u)]]
    end;
      (split; [rewrite <- ?app_assoc; reflexivity |]); split;
      repeat constructor.
  - exists []. rewrite app_nil_r. split; [reflexivity |].
    split; constructor.
Qed.

Lemma adds_waitForTransactionHash (u : string) :
  adds 6 7 (waitForTransactionHash u).
Proof.
  intros i w.
  destruct (waitForTransactionHash_run u i w)
    as (o & i' & w' & T & E & _ & _ & _ & Tr & F).
  rewrite E. exists (Subscribe (WaitForHash u) :: T). split; [exact Tr |].
  change (Subscribe (WaitForHash u) :: T)
    with ([Subscribe (WaitForHash u)] ++ T).
  unfold ordered. rewrite steps_app, (steps_of_handler_effects _ _ _ F). cbn.
  split; repeat constructor.
Qed.

Lemma staged_onApproveOrReject (k : nat) : staged t0 k k onApproveOrReject.
Proof.
  apply staged_quiet. intros i w.
  destruct (onApproveOrReject_returns i w) as (c & w' & T & E & _ & Tr & F).
  rewrite E. exists T. split; [exact Tr |].
  eapply steps_of_handler_effects. exact F.
Qed.

Lemma staged_log (k : nat) (message : string) :
  staged t0 k k (emit (LogError message)).
Proof.
  apply staged_quiet. intros i w. exists [LogError message].
  split; reflexivity.
Qed.

Lemma staged_requireUuid (k : nat) (r : option SubmitTransactionResponse) :
  staged t0 k k (requireUuid r).
Proof.
  unfold requireUuid. destruct (response_uuid r) as [u |];
    [destruct (truthy u) |]; first [apply staged_ret | apply staged_throw].
Qed.

Lemma staged_requireHash (k : nat) (h : option string) :
  staged t0 k k (requireHash h).
Proof.
  unfold requireHash. destruct h; [apply staged_ret | apply staged_throw].
Qed.

(** The [catch] blocks: they log, end the flow and throw or return. *)
Lemma staged_catch {A : Type} (k : nat) (message : string) (last : M A) :
  staged t0 k k last ->
  staged t0 k k
         (bind (emit (LogError message))
               (fun _ => bind onApproveOrReject (fun _ => last))).
Proof.
  intros H.
  apply (staged_bind k k k); [apply staged_log | | lia]. intros _.
  apply (staged_bind k k k); [apply staged_onApproveOrReject | | lia].
  intros _. exact H.
Qed.

Lemma staged_submit_hash (i0 : Instance)
    (r : option SubmitTransactionResponse) (u : string) :
  staged t0 6 7 (submit_hash i0 r u).
Proof.
  assert (W : staged t0 6 7 (waitForTransactionHash u)).
  { apply staged_of_adds; [apply adds_waitForTransactionHash | lia]. }
  unfold submit_hash.
  apply (staged_bind 6 7 7); [| | lia].
  - destruct (response_txHash r) as [h |];
      [destruct (returnTxHashAsap i0 && truthy h) |]; try exact W.
    apply (staged_weaken 6 7 6 6); [apply staged_ret | lia | lia].
  - intros th. apply (staged_bind 7 7 7); [apply staged_requireHash | | lia].
    intros hash. apply staged_ret.
Qed.

Lemma staged_submit_relay (i0 : Instance) (f : Fees) :
  staged t0 2 7 (submit_relay env i0 f).
Proof.
  unfold submit_relay, submit_catch.
  apply (staged_try_catch 2 7 7); [| | lia].
  - apply (staged_bind 2 4 7); [| | lia].
    + apply staged_of_adds; [apply adds_signAndSubmitTransactions | lia].
    + intros resp. apply (staged_bind 4 4 7); [apply staged_requireUuid | | lia].
      intros u. apply (staged_bind 4 6 7); [| | lia].
      * apply staged_of_adds; [apply adds_processApprovalIfNeeded | lia].
      * intros _. apply staged_submit_hash.
  - intros e. apply staged_catch, staged_throw.
Qed.

Lemma staged_submitBatch_relay :
  staged t0 1 7 (submitBatch_relay env).
Proof.
  unfold submitBatch_relay, submitBatch_catch, submitBatch_hash.
  apply (staged_try_catch 1 7 7); [| | lia].
  - apply (staged_bind 1 4 7); [| | lia].
    + apply (staged_weaken 1 4 2 4); [| lia | lia].
      apply staged_of_adds; [apply adds_signAndSubmitTransactions | lia].
    + intros resp. apply (staged_bind 4 4 7); [apply staged_requireUuid | | lia].
      intros u. apply (staged_bind 4 6 7); [| | lia].
      * apply staged_of_adds; [apply adds_processApprovalIfNeeded | lia].
      * intros _. apply (staged_bind 6 7 7); [| | lia].
        -- apply staged_of_adds; [apply adds_waitForTransactionHash | lia].
        -- intros th.
           apply (staged_bind 7 7 7); [apply staged_requireHash | | lia].
           intros hash. apply staged_ret.
  - intros e. apply staged_catch, staged_throw.
Qed.

Lemma staged_submit_fees (i0 : Instance) :
  staged t0 1 7 (submit_fees env i0).
Proof.
  unfold submit_fees.
  apply (triple_bind _ _ _
           (fun o => match o with
                     | Returned (inr _) => in_order 2 t0
                     | _ => in_order 7 t0
                     end)).
  - apply (triple_try_catch _ _ _
             (fun o => match o with
                       | Returned (inr _) => in_order 2 t0
                       | _ => in_order 2 t0
                       end)).
    + intros i w HI. unfold bind, emit. cbn.
      assert (K : in_order 2 t0 i
                    (log w [CallGetFees
                              (with_chainId (Some (chainId i0)) (txParams i0))])).
      { apply (in_order_extend 1 2 i i w _
                 [CallGetFees (with_chainId (Some (chainId i0)) (txParams i0))]
                 HI); [reflexivity | | | lia]; repeat constructor. }
      destruct (getFees env (with_chainId (Some (chainId i0)) (txParams i0)));
        exact K.
    + intros e i w HI.
      match goal with |- context [bind (emit (LogError ?msg)) ?k] =>
        assert (K : staged t0 2 7 (bind (emit (LogError msg)) k))
      end.
      { apply (staged_weaken 2 7 7 7); [| lia | lia].
        apply staged_catch, staged_ret. }
      specialize (K i w HI). revert K. unfold bind, emit.
      match goal with |- context [onApproveOrReject i ?v] =>
        destruct (onApproveOrReject_returns i v) as (c & w' & T & E & _) end.
      rewrite E. cbn. intros K. exact K.
    + intros [fb | g] i w H; [apply (in_order_weaken 2 7); [lia | exact H] |].
      exact H.
    + intros i w H. apply (in_order_weaken 2 7); [lia | exact H].
  - intros [fb | g].
    + apply staged_ret.
    + apply staged_submit_relay.
  - intros e i w H. exact H.
  - intros i w H. exact H.
Qed.

End Phases.

Section PhasesOfARun.

Variable env : Env.

Lemma in_order_start (w : World) (i : Instance) : in_order 0 (trace w) i w.
Proof.
  exists []. rewrite app_nil_r. split; [reflexivity |]. split; constructor.
Qed.

Lemma staged_start (t0 : list Effect) (i : Instance) :
  staged t0 0 1 (when (shouldShowStatusPage i) (startApprovalFlow env)).
Proof.
  destruct (shouldShowStatusPage i).
  - apply staged_of_adds; [apply adds_startApprovalFlow | lia].
  - apply (staged_weaken t0 0 1 0 0); [apply staged_ret | lia | lia].
Qed.

(** X10. In every run of [submit] and of [submitBatch], whether it returns,
    throws or stays pending, the calls go through the phases in one order,
    each phase at most once: the approval flow is started, the fees are
    fetched, the transactions are signed, they are submitted to the relay,
    the approval request is created, the listener of the status page is
    registered, the transaction hash is waited for. A run may skip phases
    and may stop after any of them; it never goes back. *)
Theorem phases_of_every_run (i : Instance) (w : World) :
  (exists T,
      trace (world_of (submit env i w)) = trace w ++ T /\ ordered T)
  /\ (exists T,
        trace (world_of (submitBatch env i w)) = trace w ++ T /\ ordered T).
Proof.
  split.
  - destruct (negb (isSmartTransaction i)
              || isUnsupportedTransactionTypeForSmartTransaction i
              || isLegacyTransaction env (transactionMeta i)) eqn:G.
    + exists []. unfold submit, bind, this. rewrite G. cbn.
      rewrite app_nil_r. split; [reflexivity | constructor].
    + rewrite (submit_parts env i w G).
      assert (H : staged (trace w) 0 7
                    (bind (when (shouldShowStatusPage i) (startApprovalFlow env))
                          (fun _ => submit_fees env i))).
      { apply (staged_bind (trace w) 0 1 7); [apply staged_start | | lia].
        intros _. apply staged_submit_fees. }
      destruct (H i w (in_order_start w i)) as (T & Tr & S & _).
      exists T. split; assumption.
  - destruct (isSmartTransaction i) eqn:G.
    + rewrite (submitBatch_parts env i w G).
      assert (H : staged (trace w) 0 7
                    (bind (when (shouldShowStatusPage i) (startApprovalFlow env))
                          (fun _ => submitBatch_relay env))).
      { apply (staged_bind (trace w) 0 1 7); [apply staged_start | | lia].
        intros _. apply staged_submitBatch_relay. }
      destruct (H i w (in_order_start w i)) as (T & Tr & S & _).
      exists T. split; assumption.
    + exists []. unfold submitBatch, bind, this. rewrite G. cbn.
      rewrite app_nil_r. split; [reflexivity | constructor].
Qed.

End PhasesOfARun.

(** ** The listener of the status page *)

(** What the callbacks do on a published smart transaction: they leave the
    instance alone; the status page is updated by its listeners only, for
    a final status of their transaction, while the flow is not ended. *)
Lemma runHandlers_published (hs : list Handler) (st : SmartTransaction)
    (i : Instance) (w : World) :
  exists T,
    runHandlers hs (Published st) i w
    = (Returned (firstResolution hs (Published st)), i, log w T)
    /\ (forall e,
          In e T ->
          (exists message, e = LogDebug message)
          \/ (e = CallUpdateRequestState (approvalFlowId i) st (isDapp i)
                    (meta_id (transactionMeta i))
              /\ approvalFlowEnded i = false
              /\ In (UpdateStatusPage (st_uuid st)) hs
              /\ qualifies (st_uuid st) st = true))
    /\ (forall u,
          In (UpdateStatusPage u) hs ->
          qualifies u st = true ->
          approvalFlowEnded i = false ->
          In (CallUpdateRequestState (approvalFlowId i) st (isDapp i)
                (meta_id (transactionMeta i))) T).
Proof.
  revert w. induction hs as [| h hs IH]; intros w.
  - exists []. unfold log. rewrite app_nil_r. split; [destruct w; reflexivity |].
    split; [intros e [] | intros u []].
  - assert (Hh : exists T1,
               runHandler h (Published st) i w
               = (Returned (resolution h (Published st)), i, log w T1)
               /\ (forall e,
                     In e T1 ->
                     (exists message, e = LogDebug message)
                     \/ (e = CallUpdateRequestState (approvalFlowId i) st
                               (isDapp i) (meta_id (transactionMeta i))
                         /\ approvalFlowEnded i = false
                         /\ h = UpdateStatusPage (st_uuid st)
                         /\ qualifies (st_uuid st) st = true))
               /\ (forall u,
                     h = UpdateStatusPage u ->
                     qualifies u st = true ->
                     approvalFlowEnded i = false ->
                     In (CallUpdateRequestState (approvalFlowId i) st (isDapp i)
                           (meta_id (transactionMeta i))) T1)).
    { assert (Hnil : log w [] = w)
        by (unfold log; rewrite app_nil_r; destruct w; reflexivity).
      destruct h as [u | u |]; unfold runHandler, resolution, qualifies.
      - destruct (st_uuid st =? u) eqn:Eu; cbn.
        + apply String.eqb_eq in Eu. subst u.
          destruct (st_status st) as [status |]; cbn.
          * destruct (is_PENDING status); cbn.
            -- exists []. rewrite Hnil. split; [reflexivity |].
               split; [intros e [] |].
               intros u _ H. rewrite andb_false_r in H. discriminate.
            -- unfold bind, this, when, updateApprovalRequest, bind, this, emit.
               destruct (approvalFlowEnded i) eqn:He; cbn.
               ++ exists []. rewrite Hnil. split; [reflexivity |].
                  split; [intros e [] | intros; discriminate].
               ++ eexists. split; [reflexivity |]. split.
                  ** intros e [<- | []]. right.
                     rewrite String.eqb_refl. auto.
                  ** intros u _ _ _. left. reflexivity.
          * exists []. rewrite Hnil. split; [reflexivity |].
            split; [intros e [] |].
            intros u _ H. rewrite andb_false_r in H. discriminate.
        + exists []. rewrite Hnil. split; [reflexivity |].
          split; [intros e [] |].
          intros u' E H. injection E as <-. rewrite Eu in H. discriminate.
      - destruct (st_uuid st =? u) eqn:Eu; cbn.
        + destruct (st_status st) as [status |]; cbn.
          * destruct (is_PENDING status); cbn.
            -- exists []. rewrite Hnil. split; [reflexivity |].
               split; [intros e [] | intros; discriminate].
            -- unfold bind, emit, resolvedHash.
               destruct (st_statusMetadata st) as [md |]; cbn;
                 [destruct (truthy (minedHash md)); cbn |];
                 [ exists [LogDebug "Smart Transaction: ";
                           LogDebug "Smart Transaction - Received tx hash: "]
                 | exists [LogDebug "Smart Transaction: "]
                 | exists [LogDebug "Smart Transaction: "] ];
                 (split; [unfold log; cbn; rewrite <- ?app_assoc; reflexivity |];
                  split; [| intros; discriminate]);
                 intros e He; left; cbn in He;
                 repeat (destruct He as [<- | He]; [eexists; reflexivity |]);
                 destruct He.
          * exists []. rewrite Hnil. split; [reflexivity |].
            split; [intros e [] | intros; discriminate].
        + exists []. rewrite Hnil. split; [reflexivity |].
          split; [intros e [] | intros; discriminate].
      - exists []. rewrite Hnil. split; [reflexivity |].
        split; [intros e [] | intros; discriminate]. }
    destruct Hh as (T1 & E1 & Only1 & All1).
    destruct (IH (log w T1)) as (T2 & E2 & Only2 & All2).
    exists (T1 ++ T2). split; [| split].
    + cbn [runHandlers firstResolution]. unfold bind. rewrite E1, E2.
      unfold ret, log. cbn. rewrite <- app_assoc.
      destruct (resolution h (Published st)); reflexivity.
    + intros e He. apply in_app_or in He. destruct He as [He | He].
      * destruct (Only1 e He) as [L | (Ee & Hend & -> & Hq)]; [left; exact L |].
        right. repeat split; auto. left. reflexivity.
      * destruct (Only2 e He) as [L | (Ee & Hend & Hin & Hq)]; [left; exact L |].
        right. repeat split; auto. right. exact Hin.
    + intros u [-> | Hin] Hq Hend; apply in_or_app.
      * left. exact (All1 u eq_refl Hq Hend).
      * right. exact (All2 u Hin Hq Hend).
Qed.

(** X11. When a smart transaction is published to an instance, the status
    page is updated exactly when the instance has registered the listener
    of the status page for that transaction, the status is final and the
    approval flow of the instance has not ended; the update carries the
    flow id of the instance, the smart transaction, [isDapp] and the id of
    the transaction. The callbacks change nothing in the instance; so once
    the flow has ended the status page is never updated again. *)
Theorem status_page_updates (st : SmartTransaction) (i : Instance) (w : World) :
  exists T,
    dispatch (Published st) i w
    = (Returned (firstResolution (handlers i) (Published st)), i, log w T)
    /\ (forall id st' dapp txId,
          In (CallUpdateRequestState id st' dapp txId) T <->
          (id = approvalFlowId i
           /\ st' = st
           /\ dapp = isDapp i
           /\ txId = meta_id (transactionMeta i))
          /\ In (UpdateStatusPage (st_uuid st)) (handlers i)
          /\ qualifies (st_uuid st) st = true
          /\ approvalFlowEnded i = false).
Proof.
  destruct (runHandlers_published (handlers i) st i w) as (T & E & Only & All).
  exists T. split.
  - unfold dispatch, bind, this. rewrite E. reflexivity.
  - intros id st' dapp txId. split.
    + intros Hin.
      destruct (Only _ Hin) as [(message & Hm) | (Ee & Hend & Hl & Hq)];
        [discriminate Hm |].
      injection Ee as -> -> -> ->. auto.
    + intros ((-> & -> & -> & ->) & Hl & Hq & Hend).
      exact (All _ Hl Hq Hend).
Qed.

(** ** The status page, when it is shown *)

Section StatusPageShown.

Variable env : Env.







End StatusPageShown.


(** * The approval flow until the request is settled *)

Section Settlement.

Variable env : Env.

Lemma awaits_settlement_emit (e : Effect) :
  preserves awaits_settlement (emit e).
Proof. intros i w H. exact H. Qed.

Lemma awaits_settlement_set_pending (ss : list Stimulus) :
  preserves awaits_settlement (set_pending ss).
Proof. intros i w H. exact H. Qed.

Lemma awaits_settlement_stays_pending {A : Type} :
  preserves awaits_settlement (fun i w => (@Pending A, i, w)).
Proof. intros i w H. exact H. Qed.

Lemma awaits_settlement_register (h : Handler) :
  preserves awaits_settlement (register h).
Proof.
  intros i w [Ho Hc]. split; [exact Ho |].
  unfold register, bind, this, set_handlers, instance_of. cbn.
  intros He. apply in_or_app. left. exact (Hc He).
Qed.

Lemma awaits_settlement_onApproveOrReject :
  preserves awaits_settlement onApproveOrReject.
Proof.
  intros i w [Ho Hc]. split.
  - exact (own_flow_kept_by_onApproveOrReject i w Ho).
  - intros He. rewrite onApproveOrReject_ends in He; [discriminate He |].
    exact (proj1 Ho).
Qed.

Ltac settlement_rules :=
  repeat first
    [ apply preserves_ret
    | apply preserves_throw
    | apply preserves_settle
    | apply preserves_this
    | apply preserves_world
    | apply awaits_settlement_emit
    | apply awaits_settlement_register
    | apply awaits_settlement_set_pending
    | apply awaits_settlement_stays_pending
    | apply awaits_settlement_onApproveOrReject
    | assumption
    | match goal with
      | H : _ |- preserves _ _ => apply H
      | |- preserves _ (match ?x with _ => _ end) => destruct x
      end
    | apply preserves_when; intro
    | apply preserves_bind; [ | intro ]
    | apply preserves_try_catch; [ | intro ] ].

Lemma awaits_settlement_runHandler (h : Handler) (s : Stimulus) :
  preserves awaits_settlement (runHandler h s).
Proof.
  unfold runHandler, updateApprovalRequest. destruct h, s; settlement_rules.
Qed.

Lemma awaits_settlement_runHandlers (hs : list Handler) (s : Stimulus) :
  preserves awaits_settlement (runHandlers hs s).
Proof.
  pose proof awaits_settlement_runHandler.
  induction hs as [| h hs IH]; simpl; settlement_rules.
Qed.

(** The callbacks at the settlement of the approval request: the one
    attached to the request ends the flow. *)
Lemma runHandlers_at_settlement (hs : list Handler) :
  forall (i : Instance) (w : World),
    awaits_settlement i w ->
    approvalFlowEnded i = true \/ In ApprovalSettled hs ->
    exists i' w',
      runHandlers hs RequestSettled i w = (Returned None, i', w')
      /\ handlers i' = handlers i
      /\ awaits_settlement i' w'
      /\ approvalFlowEnded i' = true.
Proof.
  induction hs as [| h hs IH]; intros i w HJ Hor.
  - destruct Hor as [He | []]. exists i, w.
    split; [reflexivity |]. split; [reflexivity |]. split; assumption.
  - cbn [runHandlers]. unfold bind at 1.
    destruct h as [u | u |].
    + cbn [runHandler]. unfold ret at 1.
      destruct (IH i w HJ) as (i' & w' & E & Hh & HJ' & He').
      { destruct Hor as [He | [Hh | Hin]]; [left; exact He | discriminate Hh |].
        right. exact Hin. }
      unfold bind. rewrite E. exists i', w'.
      split; [reflexivity |]. split; [exact Hh |]. split; assumption.
    + cbn [runHandler]. unfold ret at 1.
      destruct (IH i w HJ) as (i' & w' & E & Hh & HJ' & He').
      { destruct Hor as [He | [Hh | Hin]]; [left; exact He | discriminate Hh |].
        right. exact Hin. }
      unfold bind. rewrite E. exists i', w'.
      split; [reflexivity |]. split; [exact Hh |]. split; assumption.
    + cbn [runHandler]. unfold bind at 1.
      pose proof (awaits_settlement_onApproveOrReject i w HJ) as HJ1.
      pose proof (onApproveOrReject_ends i w (proj1 (proj1 HJ))) as He1.
      destruct (onApproveOrReject_returns i w) as (c & w1 & T & E1 & _).
      rewrite E1 in *. unfold instance_of, world_of in HJ1, He1.
      cbn [fst snd] in HJ1, He1. unfold ret at 1.
      destruct (IH _ w1 HJ1 (or_introl He1)) as (i' & w' & E & Hh & HJ' & He').
      unfold bind. rewrite E. exists i', w'.
      split; [reflexivity |]. split; [exact Hh |]. split; assumption.
Qed.

Lemma awaits_settlement_dispatch (s : Stimulus) :
  preserves awaits_settlement (dispatch s).
Proof.
  destruct s as [st |].
  - pose proof awaits_settlement_runHandlers.
    unfold dispatch. settlement_rules.
  - intros i w HJ. unfold dispatch, bind at 1, this at 1.
    destruct (runHandlers_at_settlement (handlers i) i w HJ)
      as (i' & w' & E & Hh & [Ho _] & He').
    { destruct (approvalFlowEnded i) eqn:He; [left; reflexivity |].
      right. exact (proj2 HJ He). }
    unfold bind, this, set_handlers. rewrite E.
    unfold instance_of, world_of. cbn.
    split; [exact Ho |]. intros Hf. cbn in Hf. congruence.
Qed.

Lemma awaits_settlement_awaitTransactionHash (ss : list Stimulus) :
  preserves awaits_settlement (awaitTransactionHash ss).
Proof.
  pose proof awaits_settlement_dispatch.
  induction ss as [| s ss IH]; simpl; settlement_rules.
Qed.

Lemma awaits_settlement_waitForTransactionHash (u : string) :
  preserves awaits_settlement (waitForTransactionHash u).
Proof.
  pose proof awaits_settlement_awaitTransactionHash.
  unfold waitForTransactionHash. settlement_rules.
Qed.

Lemma awaits_settlement_requireHash (h : option string) :
  preserves awaits_settlement (requireHash h).
Proof. unfold requireHash. settlement_rules. Qed.

Lemma awaits_settlement_submit_hash (i0 : Instance)
    (r : option SubmitTransactionResponse) (u : string) :
  preserves awaits_settlement (submit_hash i0 r u).
Proof.
  pose proof awaits_settlement_waitForTransactionHash.
  pose proof awaits_settlement_requireHash.
  unfold submit_hash.
  destruct (response_txHash r) as [h |];
    [destruct (returnTxHashAsap i0 && truthy h) |]; settlement_rules.
Qed.

Lemma settled_if_returned_weaken {A : Type} (o : Outcome A) (i : Instance)
    (w : World) :
  awaits_settlement i w -> settled_if_returned o i w.
Proof. intros H. destruct o; [exact H | exact (proj1 H) | exact (proj1 H)]. Qed.

Lemma processApprovalIfNeeded_registers (u : string) :
  triple own_flow (processApprovalIfNeeded env u) settled_if_returned.
Proof.
  intros i w Ho.
  unfold processApprovalIfNeeded, addApprovalRequest,
    addListenerToUpdateStatusPage, register, set_handlers, bind, this, emit,
    when.
  rewrite (proj1 Ho). cbn.
  match goal with |- context [addRequest env ?r] =>
    destruct (addRequest env r) end; cbn.
  - exact Ho.
  - split; [exact Ho |]. intros _. cbn.
    apply in_or_app. left. apply in_or_app. right. left. reflexivity.
Qed.

Lemma own_flow_submit_catch (e : Error) (i : Instance) (w : World) :
  own_flow i w ->
  own_flow (instance_of (submit_catch e i w)) (world_of (submit_catch e i w))
  /\ outcome_of (submit_catch e i w) = Threw e.
Proof.
  intros Ho. split; [| apply submit_catch_rethrows].
  unfold submit_catch, bind, emit.
  match goal with |- context [onApproveOrReject i ?v] =>
    pose proof (own_flow_kept_by_onApproveOrReject i v Ho) as K;
    destruct (onApproveOrReject_returns i v) as (c & w' & T & E & _) end.
  rewrite E in *. exact K.
Qed.

Lemma submit_relay_registers (i0 : Instance) (f : Fees) :
  triple own_flow (submit_relay env i0 f) settled_if_returned.
Proof.
  unfold submit_relay.
  apply (triple_try_catch _ _ _ settled_if_returned).
  - apply (triple_bind _ _ _ (fun _ => own_flow)).
    + apply own_flow_signAndSubmitTransactions.
    + intros resp. apply (triple_bind _ _ _ (fun _ => own_flow)).
      * apply own_flow_requireUuid.
      * intros u. apply (triple_bind _ _ _ settled_if_returned).
        -- apply processApprovalIfNeeded_registers.
        -- intros a.
           apply (triple_conseq awaits_settlement _ _ (fun _ => awaits_settlement)).
           ++ apply awaits_settlement_submit_hash.
           ++ intros i w H. exact H.
           ++ intros o i w H. apply settled_if_returned_weaken, H.
        -- intros e i w H. exact H.
        -- intros i w H. exact H.
      * intros e i w H. exact H.
      * intros i w H. exact H.
    + intros e i w H. exact H.
    + intros i w H. exact H.
  - intros e i w Ho. simpl in Ho.
    destruct (own_flow_submit_catch e i w Ho) as [K E].
    rewrite E. exact K.
  - intros a i w H. exact H.
  - intros i w H. exact H.
Qed.

Lemma submit_fees_registers (i0 : Instance) :
  triple own_flow (submit_fees env i0) settled_if_returned.
Proof.
  intros i w H. unfold submit_fees, bind at 1, try_catch, bind, emit.
  cbn [fst snd].
  destruct (getFees env (with_chainId (Some (chainId i0)) (txParams i0)))
    as [e | f] eqn:Hf; cbn.
  - match goal with |- context [onApproveOrReject i ?v] =>
      pose proof (own_flow_onApproveOrReject i v H) as [Hs Hc];
      destruct (onApproveOrReject_returns i v) as (c & w' & T & E & _) end.
    rewrite E in *. unfold outcome_of, instance_of, world_of in *. cbn in *.
    split; [split; [exact Hs | right; exact Hc] |].
    intros He. destruct Hc as [Hc _]. congruence.
  - match goal with |- context [submit_relay env i0 f i ?v] =>
      exact (submit_relay_registers i0 f i v H) end.
Qed.

(** X12. Take a run of [submitSmartTransactionHook] that shows the status
    page, started in a world in which the open flows are what the static
    field says (no flow of another client of the ApprovalController is
    open), with nothing else acting on the flows meanwhile. When it has
    returned, with a hash or with the fallback, the approval flow it
    started is either ended already, or it is the one open flow and the
    callback that ends it is attached to the approval request: the status
    page stays until the request is approved or rejected. *)
Theorem returned_run_awaits_settlement
    (request : SubmitSmartTransactionRequest) (w : World) (result : SubmitResult) :
  flows_match_shared w ->
  negb (req_isSmartTransaction request)
  || isUnsupportedTransactionTypeForSmartTransaction (constructor env request)
  || isLegacyTransaction env (req_transactionMeta request) = false ->
  shouldShowStatusPage (constructor env request) = true ->
  outcome_of (submitSmartTransactionHook env request w) = Returned result ->
  awaits_settlement (instance_of (submitSmartTransactionHook env request w))
                    (world_of (submitSmartTransactionHook env request w)).
Proof.
  intros H G Hs. unfold submitSmartTransactionHook.
  rewrite (submit_parts env (constructor env request) w G).
  destruct (startApprovalFlow_opens env (constructor env request) w H Hs eq_refl)
    as (i1 & w1 & E & Ho).
  replace (bind (when (shouldShowStatusPage (constructor env request))
                      (startApprovalFlow env))
                (fun _ => submit_fees env (constructor env request))
                (constructor env request) w)
    with (submit_fees env (constructor env request) i1 w1)
    by (unfold bind; rewrite Hs; unfold when; rewrite E; reflexivity).
  intros Hr.
  pose proof (submit_fees_registers (constructor env request) i1 w1 Ho) as K.
  rewrite Hr in K. exact K.
Qed.

End Settlement.

Lemma returned_run_awaits_settlement_witness :
  awaits_settlement
    (instance_of
       (submitSmartTransactionHook sampleEnv
          (sampleRequest (Some simpleSend) (Some true)) initialWorld))
    (world_of
       (submitSmartTransactionHook sampleEnv
          (sampleRequest (Some simpleSend) (Some true)) initialWorld)).
Proof.
  exact (returned_run_awaits_settlement sampleEnv
           (sampleRequest (Some simpleSend) (Some true)) initialWorld
           {| transactionHash := Some "0xhash" |}
           eq_refl eq_refl eq_refl eq_refl).
Defined.

(** The callbacks at the settlement of the approval request, whatever the
    flows that are open: the flow of the instance is marked as ended. *)
Lemma runHandlers_settles (hs : list Handler) :
  forall (i : Instance) (w : World),
    shouldShowStatusPage i = true ->
    approvalFlowEnded i = true \/ In ApprovalSettled hs ->
    exists i' w',
      runHandlers hs RequestSettled i w = (Returned None, i', w')
      /\ handlers i' = handlers i
      /\ approvalFlowEnded i' = true.
Proof.
  induction hs as [| h hs IH]; intros i w Hs Hor.
  - destruct Hor as [He | []]. exists i, w. repeat split. exact He.
  - cbn [runHandlers]. unfold bind at 1.
    destruct h as [u | u |].
    + cbn [runHandler]. unfold ret at 1.
      destruct (IH i w Hs) as (i' & w' & E & Hh & He').
      { destruct Hor as [He | [Hh | Hin]]; [left; exact He | discriminate Hh |].
        right. exact Hin. }
      unfold bind. rewrite E. exists i', w'. repeat split; assumption.
    + cbn [runHandler]. unfold ret at 1.
      destruct (IH i w Hs) as (i' & w' & E & Hh & He').
      { destruct Hor as [He | [Hh | Hin]]; [left; exact He | discriminate Hh |].
        right. exact Hin. }
      unfold bind. rewrite E. exists i', w'. repeat split; assumption.
    + cbn [runHandler]. unfold bind at 1.
      destruct (onApproveOrReject_ending i w) as (w1 & E1 & _).
      rewrite E1. unfold ret at 1.
      destruct (IH (with_fields (approvalFlowEnded i || shouldShowStatusPage i)
                                (approvalFlowId i) (handlers i) i)
                   w1)
        as (i' & w' & E & Hh & He').
      { exact Hs. }
      { left. cbn. rewrite Hs. apply orb_true_r. }
      unfold bind. rewrite E. exists i', w'. repeat split; assumption.
Qed.

(** X13. When the approval request of an instance that shows the status
    page is settled, approved or rejected, the callback attached to it
    runs [#onApproveOrReject]: afterwards the flow of the instance is
    marked as ended and the callback is gone. Provided the flow of the
    instance was the one open flow, named by the static field (no other
    flow had been started after it), or was ended already, no flow is open
    afterwards and the static field is cleared. *)
Theorem settlement_ends_the_flow (i : Instance) (w : World) :
  shouldShowStatusPage i = true ->
  In ApprovalSettled (handlers i) ->
  outcome_of (dispatch RequestSettled i w) = Returned None
  /\ approvalFlowEnded (instance_of (dispatch RequestSettled i w)) = true
  /\ ~ In ApprovalSettled (handlers (instance_of (dispatch RequestSettled i w)))
  /\ (own_flow i w ->
      flow_closed (instance_of (dispatch RequestSettled i w))
                  (world_of (dispatch RequestSettled i w))).
Proof.
  intros Hs Hin. unfold dispatch, bind at 1, this at 1.
  destruct (runHandlers_settles (handlers i) i w Hs (or_intror Hin))
    as (i' & w' & E & Hh & He').
  unfold bind, this, set_handlers. rewrite E.
  unfold outcome_of, instance_of, world_of. cbn.
  split; [reflexivity |]. split; [exact He' |]. split.
  - intros Hin'. apply filter_In in Hin'. destruct Hin' as [_ Hn].
    discriminate Hn.
  - intros Hown.
    destruct (runHandlers_at_settlement (handlers i) i w
                (conj Hown (fun _ => Hin)) (or_intror Hin))
      as (i'' & w'' & E' & _ & [[_ Ho] _] & He'').
    rewrite E in E'. injection E' as <- <-.
    destruct Ho as [(Hf & _) | Hc]; [congruence |].
    exact Hc.
Qed.

Lemma settlement_ends_the_flow_witness :
  flow_closed
    (instance_of
       (dispatch RequestSettled
          (instance_of
             (submitSmartTransactionHook sampleEnv
                (sampleRequest (Some simpleSend) (Some true)) initialWorld))
          (world_of
             (submitSmartTransactionHook sampleEnv
                (sampleRequest (Some simpleSend) (Some true)) initialWorld))))
    (world_of
       (dispatch RequestSettled
          (instance_of
             (submitSmartTransactionHook sampleEnv
                (sampleRequest (Some simpleSend) (Some true)) initialWorld))
          (world_of
             (submitSmartTransactionHook sampleEnv
                (sampleRequest (Some simpleSend) (Some true)) initialWorld)))).
Proof.
  refine (proj2 (proj2 (proj2
    (settlement_ends_the_flow
       (instance_of
          (submitSmartTransactionHook sampleEnv
             (sampleRequest (Some simpleSend) (Some true)) initialWorld))
       (world_of
          (submitSmartTransactionHook sampleEnv
             (sampleRequest (Some simpleSend) (Some true)) initialWorld))
       eq_refl _))) _).
  - left. reflexivity.
  - split; [reflexivity | left; repeat split].
Defined.

(** * Further properties of the gas fee token hooks *)

Lemma findGasFeeToken_found (currentConfirmation : Confirmation)
    (native token : GasFeeToken) (address : string) :
  findGasFeeToken currentConfirmation native address = Some token ->
  (exists tokens,
      gasFeeTokens currentConfirmation = Some tokens
      /\ In token tokens
      /\ toLowerCase (tokenAddress token) = toLowerCase address)
  \/ (token = native /\ address = NATIVE_TOKEN_ADDRESS).
Proof.
  unfold findGasFeeToken.
  destruct (gasFeeTokens currentConfirmation) as [tokens |].
  - destruct (find _ tokens) as [t |] eqn:F.
    + intros E. injection E as <-. apply find_some in F. destruct F as [Hin Ht].
      left. exists tokens. repeat split; auto. apply String.eqb_eq, Ht.
    + destruct (address =? NATIVE_TOKEN_ADDRESS)%string eqn:En; [| discriminate].
      intros E. injection E as <-. right.
      split; [reflexivity | apply String.eqb_eq, En].
  - destruct (address =? NATIVE_TOKEN_ADDRESS)%string eqn:En; [| discriminate].
    intros E. injection E as <-. right.
    split; [reflexivity | apply String.eqb_eq, En].
Qed.

Lemma findGasFeeToken_none (currentConfirmation : Confirmation)
    (native : GasFeeToken) (address : string) :
  findGasFeeToken currentConfirmation native address = None
  <-> (forall tokens token,
          gasFeeTokens currentConfirmation = Some tokens ->
          In token tokens ->
          toLowerCase (tokenAddress token) <> toLowerCase address)
      /\ address <> NATIVE_TOKEN_ADDRESS.
Proof.
  unfold findGasFeeToken. split.
  - destruct (gasFeeTokens currentConfirmation) as [tokens |].
    + destruct (find _ tokens) as [t |] eqn:F; [discriminate |].
      destruct (address =? NATIVE_TOKEN_ADDRESS)%string eqn:En; [discriminate |].
      intros _. split; [| apply String.eqb_neq, En].
      intros tokens' token E Hin. injection E as <-.
      apply String.eqb_neq. exact (find_none _ _ F token Hin).
    + destruct (address =? NATIVE_TOKEN_ADDRESS)%string eqn:En; [discriminate |].
      intros _. split; [discriminate | apply String.eqb_neq, En].
  - intros [Hno Hn]. apply String.eqb_neq in Hn.
    destruct (gasFeeTokens currentConfirmation) as [tokens |].
    + destruct (find _ tokens) as [t |] eqn:F.
      * apply find_some in F. destruct F as [Hin Ht].
        apply String.eqb_eq in Ht. destruct (Hno tokens t eq_refl Hin Ht).
      * rewrite Hn. reflexivity.
    + rewrite Hn. reflexivity.
Qed.

Section GasFeeTokenHookProperties.

Variable formatTokenAmount : string -> N -> string.
Variable ethFiatAmount : string -> N -> string -> option string.

(** What [useGasFeeToken] returns for the token it found. *)
Lemma useGasFeeToken_of_found (currentConfirmation : Confirmation)
    (inputs : NativeFeeInputs) (address : string) :
  useGasFeeToken formatTokenAmount ethFiatAmount currentConfirmation inputs address
  = option_map
      (fun token =>
         {| details_token := token;
            amountFormatted := formatTokenAmount (amount token) (decimals token);
            amountFiat :=
              ethFiatAmount (amount token) (decimals token) (rateWei token);
            balanceFiat :=
              ethFiatAmount (balance token) (decimals token) (rateWei token) |})
      (findGasFeeToken currentConfirmation (useNativeGasFeeToken inputs) address).
Proof.
  unfold useGasFeeToken, useFiatTokenValue.
  destruct (findGasFeeToken _ _ _); reflexivity.
Qed.

Lemma useGasFeeToken_none (currentConfirmation : Confirmation)
    (inputs : NativeFeeInputs) (address : string) :
  useGasFeeToken formatTokenAmount ethFiatAmount currentConfirmation inputs
                 address = None
  <-> findGasFeeToken currentConfirmation (useNativeGasFeeToken inputs) address
      = None.
Proof.
  rewrite useGasFeeToken_of_found.
  destruct (findGasFeeToken _ _ _); simpl; split; intros H;
    try discriminate; reflexivity.
Qed.

Lemma useGasFeeToken_some (currentConfirmation : Confirmation)
    (inputs : NativeFeeInputs) (address : string) (details : GasFeeTokenDetails) :
  useGasFeeToken formatTokenAmount ethFiatAmount currentConfirmation inputs
                 address = Some details ->
  findGasFeeToken currentConfirmation (useNativeGasFeeToken inputs) address
  = Some (details_token details).
Proof.
  rewrite useGasFeeToken_of_found.
  destruct (findGasFeeToken _ _ _) as [token |]; simpl; [| discriminate].
  intros E. injection E as <-. reflexivity.
Qed.

(** X14. Every address the modal lists has a token: [useGasFeeToken]
    returns one for it, never [undefined], and the address of that token
    is the listed address up to the case of letters. It is the first
    listed token with that address or, for the native address when no
    listed token has it, the native token. *)
Theorem GasFeeTokenModal_items_have_a_token
    (currentConfirmation : Confirmation) (inputs : NativeFeeInputs)
    (item : GasFeeTokenListItemProps) :
  In item (GasFeeTokenModal currentConfirmation) ->
  exists details,
    useGasFeeToken formatTokenAmount ethFiatAmount currentConfirmation inputs
                   (item_tokenAddress item)
    = Some details
    /\ toLowerCase (tokenAddress (details_token details))
       = toLowerCase (item_tokenAddress item).
Proof.
  intros Hin. unfold GasFeeTokenModal in Hin. apply in_map_iff in Hin.
  destruct Hin as (address & <- & Hin). cbn [item_tokenAddress].
  rewrite useGasFeeToken_of_found.
  destruct (findGasFeeToken currentConfirmation (useNativeGasFeeToken inputs)
              address) as [token |] eqn:F.
  - eexists. split; [reflexivity |]. cbn [details_token].
    destruct (findGasFeeToken_found _ _ _ _ F)
      as [(tokens & _ & _ & H) | [-> ->]]; [exact H | reflexivity].
  - exfalso. apply findGasFeeToken_none in F. destruct F as [Hno Hn].
    unfold gasFeeTokenAddresses in Hin. destruct Hin as [<- | Hin].
    + apply Hn. reflexivity.
    + destruct (gasFeeTokens currentConfirmation) as [tokens |];
        [| destruct Hin].
      apply in_map_iff in Hin. destruct Hin as (token & <- & Hin).
      exact (Hno tokens token eq_refl Hin eq_refl).
Qed.

(** X15. [useGasFeeToken] returns [undefined] exactly when no listed
    token has the address up to the case of letters and the address is not
    the native one, letter for letter: the native token stands in for the
    native address only, written exactly as [NATIVE_TOKEN_ADDRESS]. When
    it returns a token, that token is a listed one with the address up to
    case, or the native token for the native address. *)
Theorem useGasFeeToken_undefined
    (currentConfirmation : Confirmation) (inputs : NativeFeeInputs)
    (address : string) :
  (useGasFeeToken formatTokenAmount ethFiatAmount currentConfirmation inputs
                  address = None
   <-> (forall tokens token,
           gasFeeTokens currentConfirmation = Some tokens ->
           In token tokens ->
           toLowerCase (tokenAddress token) <> toLowerCase address)
       /\ address <> NATIVE_TOKEN_ADDRESS)
  /\ (forall details,
        useGasFeeToken formatTokenAmount ethFiatAmount currentConfirmation
                       inputs address = Some details ->
        (exists tokens,
            gasFeeTokens currentConfirmation = Some tokens
            /\ In (details_token details) tokens
            /\ toLowerCase (tokenAddress (details_token details))
               = toLowerCase address)
        \/ (details_token details = useNativeGasFeeToken inputs
            /\ address = NATIVE_TOKEN_ADDRESS)).
Proof.
  split.
  - rewrite useGasFeeToken_none. apply findGasFeeToken_none.
  - intros details E.
    exact (findGasFeeToken_found _ _ _ _ (useGasFeeToken_some _ _ _ _ E)).
Qed.

(** X16. With no [selectedGasFeeToken], [useSelectedGasFeeToken] looks
    for the address ["0x"]: it returns [undefined] unless a listed token
    has that address, and never the native token, while the modal shows
    the native token as the selected one. *)
Theorem useSelectedGasFeeToken_without_selection
    (currentConfirmation : Confirmation) (inputs : NativeFeeInputs) :
  selectedGasFeeToken currentConfirmation = None ->
  (useSelectedGasFeeToken formatTokenAmount ethFiatAmount currentConfirmation
                          inputs = None
   <-> forall tokens token,
         gasFeeTokens currentConfirmation = Some tokens ->
         In token tokens ->
         toLowerCase (tokenAddress token) <> "0x")
  /\ (forall details,
        useSelectedGasFeeToken formatTokenAmount ethFiatAmount
                               currentConfirmation inputs = Some details ->
        details_token details <> useNativeGasFeeToken inputs)
  /\ (exists rest,
        GasFeeTokenModal currentConfirmation
        = {| key := NATIVE_TOKEN_ADDRESS;
             item_tokenAddress := NATIVE_TOKEN_ADDRESS;
             isSelected := true |} :: rest).
Proof.
  intros Hnone. unfold useSelectedGasFeeToken. rewrite Hnone.
  split; [| split].
  - rewrite useGasFeeToken_none, findGasFeeToken_none. split.
    + intros [H _]. exact H.
    + intros H. split; [exact H | discriminate].
  - intros details E Hn.
    destruct (findGasFeeToken_found _ _ _ _ (useGasFeeToken_some _ _ _ _ E))
      as [(tokens & _ & _ & Hl) | [_ Ha]]; [| discriminate Ha].
    rewrite Hn in Hl. discriminate Hl.
  - unfold GasFeeTokenModal, gasFeeTokenAddresses. rewrite Hnone.
    eexists. reflexivity.
Qed.

(** X17. With a [selectedGasFeeToken], the token [useSelectedGasFeeToken]
    returns is one the modal shows as selected: the modal has a selected
    item with the address of that token. *)
Theorem useSelectedGasFeeToken_is_selected_in_the_modal
    (currentConfirmation : Confirmation) (inputs : NativeFeeInputs)
    (s : string) (details : GasFeeTokenDetails) :
  selectedGasFeeToken currentConfirmation = Some s ->
  useSelectedGasFeeToken formatTokenAmount ethFiatAmount currentConfirmation
                         inputs = Some details ->
  In {| key := tokenAddress (details_token details);
        item_tokenAddress := tokenAddress (details_token details);
        isSelected := true |}
     (GasFeeTokenModal currentConfirmation).
Proof.
  intros Hs E. unfold useSelectedGasFeeToken in E. rewrite Hs in E.
  unfold GasFeeTokenModal, gasFeeTokenAddresses. apply in_map_iff.
  exists (tokenAddress (details_token details)).
  destruct (findGasFeeToken_found _ _ _ _ (useGasFeeToken_some _ _ _ _ E))
    as [(tokens & Ht & Hin & Hl) | [Hn Ha]].
  - split.
    + f_equal. unfold selected. rewrite Hs.
      apply orb_true_iff. left. apply String.eqb_eq. symmetry. exact Hl.
    + right. rewrite Ht. apply in_map. exact Hin.
  - rewrite Hn. cbn [useNativeGasFeeToken tokenAddress]. split.
    + f_equal. unfold selected. rewrite Hs, Ha.
      apply orb_true_iff. left. apply String.eqb_refl.
    + left. reflexivity.
Qed.

End GasFeeTokenHookProperties.

Lemma GasFeeTokenModal_items_have_a_token_witness :
  exists details,
    useGasFeeToken (fun amount _ => amount) (fun _ _ _ => None)
      (sampleConfirmation None) sampleNativeFeeInputs "0xabc"
    = Some details
    /\ toLowerCase (tokenAddress (details_token details)) = toLowerCase "0xabc".
Proof.
  refine (GasFeeTokenModal_items_have_a_token
            (fun amount _ => amount) (fun _ _ _ => None)
            (sampleConfirmation None) sampleNativeFeeInputs
            {| key := "0xabc"; item_tokenAddress := "0xabc"; isSelected := false |}
            _).
  right. right. left. reflexivity.
Defined.

Lemma useSelectedGasFeeToken_without_selection_witness :
  useSelectedGasFeeToken (fun amount _ => amount) (fun _ _ _ => None)
    (sampleConfirmation None) sampleNativeFeeInputs
  = None.
Proof.
  apply (proj1
    (useSelectedGasFeeToken_without_selection
       (fun amount _ => amount) (fun _ _ _ => None)
       (sampleConfirmation None) sampleNativeFeeInputs eq_refl)).
  intros tokens token E Hin. injection E as <-.
  destruct Hin as [<- | [<- | []]]; discriminate.
Defined.

Lemma useSelectedGasFeeToken_is_selected_in_the_modal_witness :
  In {| key := "0xabc"; item_tokenAddress := "0xabc"; isSelected := true |}
     (GasFeeTokenModal (sampleConfirmation (Some "0xABC"))).
Proof.
  exact (useSelectedGasFeeToken_is_selected_in_the_modal
           (fun amount _ => amount) (fun _ _ _ => None)
           (sampleConfirmation (Some "0xABC")) sampleNativeFeeInputs
           "0xABC"
           {| details_token := sampleGasFeeToken "0xabc" "DAI";
              amountFormatted := "0x3e8";
              amountFiat := None;
              balanceFiat := None |}
           eq_refl eq_refl).
Defined.

(** * Properties of the token list polling *)

(** X18. [useTokenListPolling] polls a chain exactly when it is one of the
    chains to poll, onboarding is completed, the wallet is unlocked,
    external services are allowed, and token detection or transaction
    simulations are on. Otherwise it polls nothing. *)
Theorem tokenListPolling_polls (state : TokenListPollingState) (chainId : string) :
  In chainId (tokenListPollingInput state)
  <-> In chainId (chainIdsToPoll state)
      /\ completedOnboarding state = true
      /\ isUnlocked state = true
      /\ useExternalServices state = true
      /\ (useTokenDetection state = true
          \/ useTransactionSimulations state = true).
Proof.
  unfold tokenListPollingInput.
  destruct (completedOnboarding state), (isUnlocked state),
    (useExternalServices state), (useTokenDetection state),
    (useTransactionSimulations state); simpl; intuition discriminate.
Qed.

(** * Properties of the private key form *)

Lemma handleEvents_app (state : PrivateKeyImportState)
    (events1 events2 : list PrivateKeyImportEvent) :
  handleEvents state (events1 ++ events2)
  = (fst (handleEvents (fst (handleEvents state events1)) events2),
     snd (handleEvents state events1)
     ++ snd (handleEvents (fst (handleEvents state events1)) events2)).
Proof.
  revert state. induction events1 as [| e events1 IH]; intros state; simpl.
  - destruct (handleEvents state events2); reflexivity.
  - destruct (handleEvent state e) as [state1 calls1].
    rewrite IH.
    destruct (handleEvents state1 events1) as [state2 calls2]. simpl.
    destruct (handleEvents state2 events2) as [state3 calls3]. simpl.
    rewrite app_assoc. reflexivity.
Qed.

Lemma privateKey_kept (state : PrivateKeyImportState)
    (events : list PrivateKeyImportEvent) :
  forallb (fun event => negb (is_Change event)) events = true ->
  privateKey (fst (handleEvents state events)) = privateKey state.
Proof.
  revert state. induction events as [| e events IH]; intros state H; simpl.
  - reflexivity.
  - simpl in H. apply andb_true_iff in H. destruct H as [He H].
    destruct (handleEvent state e) as [state1 calls1] eqn:E1.
    specialize (IH state1 H).
    destruct (handleEvents state1 events) as [state2 calls2]. simpl in *.
    rewrite IH. destruct e as [v | k |]; simpl in *.
    + discriminate He.
    + destruct (negb (privateKey state =? "")%string && (k =? "Enter")%string);
        injection E1 as <- _; reflexivity.
    + injection E1 as <- _. reflexivity.
Qed.

(** X19. In the private key form, pressing Enter imports the account
    exactly when the text field is not empty, which is exactly when the
    import button is enabled. The text last typed is what is imported:
    [importAccountFunc] is called once, with the strategy ["privateKey"]
    and that text as the only argument, after [preventDefault]. Among
    typing, key presses and the toggle, nothing but Enter calls
    [importAccountFunc], and whatever the user types and presses, it is
    never called with an empty key. *)
Theorem enter_imports_the_typed_key
    (before after : list PrivateKeyImportEvent) (value : string) :
  forallb (fun event => negb (is_Change event)) after = true ->
  let state :=
    fst (handleEvents initialPrivateKeyImportState
                      (before ++ Change value :: after)) in
  snd (handleEvent state (KeyPress "Enter"))
  = (if isPrimaryDisabled state then []
     else [{| strategy := "privateKey"; args := [value]; prevented := true |}])
  /\ isPrimaryDisabled state = (value =? "")%string
  /\ (forall event,
        snd (handleEvent state event) <> [] -> event = KeyPress "Enter")
  /\ Forall (fun call =>
               strategy call = "privateKey"
               /\ prevented call = true
               /\ exists typed, args call = [typed] /\ typed <> "")
            (snd (handleEvents initialPrivateKeyImportState
                               (before ++ Change value :: after))).
Proof.
  intros Hafter state.
  assert (Hkey : privateKey state = value).
  { unfold state. rewrite handleEvents_app. cbn [fst].
    cbn [handleEvents handleEvent].
    match goal with |- context [handleEvents ?s after] =>
      pose proof (privateKey_kept s after Hafter) as K;
      destruct (handleEvents s after) as [s2 c2] end.
    exact K. }
  split; [| split; [| split]].
  - unfold handleEvent, isPrimaryDisabled. rewrite Hkey.
    destruct (value =? "")%string; reflexivity.
  - unfold isPrimaryDisabled. rewrite Hkey. reflexivity.
  - intros event H. destruct event as [v | k |]; simpl in H;
      try (exfalso; apply H; reflexivity).
    destruct (k =? "Enter")%string eqn:Ek.
    + apply String.eqb_eq in Ek. subst k. reflexivity.
    + rewrite andb_false_r in H. exfalso. apply H. reflexivity.
  - clear. generalize (before ++ Change value :: after) as events.
    generalize initialPrivateKeyImportState as s.
    intros s events. revert s.
    induction events as [| e events IH]; intros s; simpl; [constructor |].
    destruct (handleEvent s e) as [s1 c1] eqn:E1.
    specialize (IH s1). destruct (handleEvents s1 events) as [s2 c2].
    simpl in *. apply Forall_app. split; [| exact IH].
    destruct e as [v | k |]; simpl in E1.
    + injection E1 as _ <-. constructor.
    + destruct (privateKey s =? "")%string eqn:Ep; simpl in E1.
      * injection E1 as _ <-. constructor.
      * destruct (k =? "Enter")%string; injection E1 as _ <-;
          constructor; [| constructor].
        repeat split. exists (privateKey s). split; [reflexivity |].
        apply String.eqb_neq, Ep.
    + injection E1 as _ <-. constructor.
Qed.

Lemma enter_imports_the_typed_key_witness :
  snd (handleEvent
         (fst (handleEvents initialPrivateKeyImportState
                 ([Change "0xdeadbeef"; Toggle] ++ Change "0xc0ffee" :: [Toggle])))
         (KeyPress "Enter"))
  = [{| strategy := "privateKey"; args := ["0xc0ffee"]; prevented := true |}].
Proof.
  exact (proj1
    (enter_imports_the_typed_key [Change "0xdeadbeef"; Toggle] [Toggle]
       "0xc0ffee" eq_refl)).
Defined.

(** X20. The private key is shown as text exactly after an odd number of
    uses of the show/hide toggle; typing and key presses do not reveal
    it. It is hidden at first. *)
Theorem private_key_shown_after_odd_toggles
    (events : list PrivateKeyImportEvent) :
  fieldType (fst (handleEvents initialPrivateKeyImportState events))
  = if Nat.odd (List.length
                  (filter (fun event =>
                             match event with Toggle => true | _ => false end)
                          events))
    then Text else Password.
Proof.
  assert (H : forall s,
             showPrivateKey (fst (handleEvents s events))
             = xorb (showPrivateKey s)
                    (Nat.odd (List.length
                       (filter (fun event =>
                                  match event with Toggle => true | _ => false end)
                               events)))).
  { induction events as [| e events IH]; intros s; simpl.
    - rewrite xorb_false_r. reflexivity.
    - destruct (handleEvent s e) as [s1 c1] eqn:E1.
      specialize (IH s1). destruct (handleEvents s1 events) as [s2 c2].
      simpl in *. rewrite IH. destruct e as [v | k |]; simpl in *.
      + injection E1 as <- _. reflexivity.
      + destruct (negb (privateKey s =? "")%string && (k =? "Enter")%string);
          injection E1 as <- _; reflexivity.
      + injection E1 as <- _. simpl. rewrite Nat.odd_succ, <- Nat.negb_odd.
        destruct (showPrivateKey s), (Nat.odd _); reflexivity. }
  unfold fieldType. rewrite H. simpl.
  destruct (Nat.odd _); reflexivity.
Qed.
